(** * generic-pico-sw: the sensor scheduler, the error handler, the MQTT
    publish path, the MQTT callbacks, sensor initialisation, the main
    loop and the service LED animation, embedded in Rocq.

    Sources: src/generic-pico-sw/src/utils/service_led.py,
    sensors/base_sensor.py, sensors/sensor_manager.py,
    control/error_handler.py, communication/mqtt_manager.py, app.py. *)

From Stdlib Require Import String List ZArith QArith Bool Lia.
Import ListNotations.
Set Warnings "-register-all".

(* ===================================================================== *)
(** ** ServiceLED._animate_led as a coroutine *)
(* ===================================================================== *)

Module ServiceLED.

Definition color := (Z * Z * Z)%type.

(** [self.off_color = (0, 0, 0)] *)
Definition off_color : color := (0, 0, 0)%Z.

(** What the coroutine does to the outside world: a pixel write
    ([self.rgb_led[0] = c; self.rgb_led.write()]) or the start of an
    [await asyncio.sleep(d)]. *)
Inductive event :=
| Write (c : color)
| Sleep (d : Q).

(** The two [await] points of the loop body at which the task is
    suspended: after the "on" write and after the "off" write.
    [rest] is what remains of [blink_pattern] in the current pass. *)
Inductive point :=
| AtOn (iteration : Z) (duration : Q) (rest : list Q)
| AtOff (iteration : Z) (rest : list Q).

(** The result of running the coroutine from one suspension to the next:
    it writes [w] and suspends on [sleep d] at [p]; or it writes [w] and
    returns (the [finally] block ran); or it loops forever without
    reaching an [await] ([Spin]). *)
Inductive resumption :=
| Yield (w : list event) (d : Q) (p : point)
| Return (w : list event)
| Spin.

Section Animate.
Variables (color0 : color) (blink_pattern : list Q) (times : Z).

(** [while times == 0 or iteration < times] *)
Definition loop_cond (iteration : Z) : bool :=
  (times =? 0)%Z || (iteration <? times)%Z.

(** [for duration in blink_pattern:] resumed at the entries [ds];
    when the pass is exhausted, [iteration += 1] and back to the loop
    head [k]. *)
Definition for_body (iteration : Z) (ds : list Q) (k : Z -> resumption)
  : resumption :=
  match ds with
  | d :: ds' => Yield [Write color0] d (AtOn iteration d ds')
  | [] => k (iteration + 1)%Z
  end.

(** The loop head. On exit the [finally] block writes the off color.
    [fuel] bounds the number of loop passes that reach no [await]
    (only an empty [blink_pattern] gives such passes). *)
Fixpoint while_head (fuel : nat) (iteration : Z) : resumption :=
  match fuel with
  | O => Spin
  | S f =>
      if loop_cond iteration
      then for_body iteration blink_pattern (while_head f)
      else Return [Write off_color]
  end.

(** Resuming the task after the sleep it is suspended on completes. *)
Definition resume (fuel : nat) (p : point) : resumption :=
  match p with
  | AtOn it d ds => Yield [Write off_color] d (AtOff it ds)
  | AtOff it ds => for_body it ds (while_head fuel)
  end.

(** [iteration = 0] and the first loop test. *)
Definition start (fuel : nat) : resumption := while_head fuel 0.

Inductive status :=
| Suspended (p : point)
| Finished
| Diverged.

(** Drive the task through [n] completed sleeps: the events it produces
    and where it stands afterwards. *)
Fixpoint run (fuel : nat) (n : nat) (r : resumption) : list event * status :=
  match r with
  | Return w => (w, Finished)
  | Spin => ([], Diverged)
  | Yield w d p =>
      match n with
      | O => (w ++ [Sleep d], Suspended p)
      | S n' =>
          let '(tr, st) := run fuel n' (resume fuel p) in
          (w ++ Sleep d :: tr, st)
      end
  end.

(** [current_task.cancel()] delivered after [n] completed sleeps: a task
    suspended on a sleep receives [CancelledError], which is caught, and
    the [finally] block writes the off color. *)
Definition cancelled_trace (fuel n : nat) : list event :=
  let '(tr, st) := run fuel n (start fuel) in
  match st with
  | Suspended _ => tr ++ [Write off_color]
  | _ => tr
  end.

End Animate.

(** One entry of the pattern: on for [d], then off for [d]. *)
Definition blink (c : color) (d : Q) : list event :=
  [Write c; Sleep d; Write off_color; Sleep d].

Definition one_pass (c : color) (pattern : list Q) : list event :=
  flat_map (blink c) pattern.

Fixpoint passes (c : color) (pattern : list Q) (k : nat) : list event :=
  match k with
  | O => []
  | S k' => one_pass c pattern ++ passes c pattern k'
  end.

Definition color_eqb (a b : color) : bool :=
  let '(r1, g1, b1) := a in
  let '(r2, g2, b2) := b in
  (r1 =? r2)%Z && (g1 =? g2)%Z && (b1 =? b2)%Z.

(** Number of writes of color [c] in a trace. *)
Definition writes_of (c : color) (tr : list event) : nat :=
  length (filter (fun e => match e with
                           | Write c' => color_eqb c' c
                           | Sleep _ => false
                           end) tr).

Definition durations (tr : list event) : list Q :=
  flat_map (fun e => match e with Sleep d => [d] | Write _ => [] end) tr.

End ServiceLED.


(* ===================================================================== *)
(** ** Python values, dicts and the world of the sensor node *)
(* ===================================================================== *)

Module Node.

Open Scope string_scope.

(** JSON values as the configuration and the MQTT payloads carry them. *)
Inductive val :=
| VInt (z : Z)
| VStr (s : string)
| VBool (b : bool)
| VNone
| VList (l : list val)
| VObj (kv : list (string * val)).

(** A Python dict with string keys, in insertion order. *)
Definition dict := list (string * val).

Fixpoint assoc_get {A} (d : list (string * A)) (k : string) : option A :=
  match d with
  | [] => None
  | (k', v) :: d' => if String.eqb k k' then Some v else assoc_get d' k
  end.

(** [d[k] = v]: the value is replaced in place when [k] is present,
    the pair is appended otherwise. *)
Fixpoint assoc_set {A} (d : list (string * A)) (k : string) (v : A)
  : list (string * A) :=
  match d with
  | [] => [(k, v)]
  | (k', v') :: d' =>
      if String.eqb k k' then (k', v) :: d' else (k', v') :: assoc_set d' k v
  end.

(** [k in d] *)
Definition dict_mem {A} (d : list (string * A)) (k : string) : bool :=
  match assoc_get d k with Some _ => true | None => false end.

(** [d.get(k, default)] *)
Definition dict_get_default (d : dict) (k : string) (default : val) : val :=
  match assoc_get d k with Some v => v | None => default end.

(** Python truthiness. *)
Definition truthy (v : val) : bool :=
  match v with
  | VInt z => negb (z =? 0)%Z
  | VStr s => negb (String.eqb s "")
  | VBool b => b
  | VNone => false
  | VList l => match l with [] => false | _ => true end
  | VObj kv => match kv with [] => false | _ => true end
  end.

Definition dict_truthy (d : dict) : bool :=
  match d with [] => false | _ => true end.

(** [sub in s] for strings. *)
Fixpoint str_contains (s sub : string) : bool :=
  String.prefix sub s ||
  match s with
  | EmptyString => false
  | String _ s' => str_contains s' sub
  end.

(** [src/defaults.py] *)
Definition DEFAULT_UPDATE_SENSOR_INTERVAL : Z := 60.
Definition DEFAULT_POST_GLOBAL_ERROR : bool := false.
Definition DEFAULT_AUTO_RESTART_ON_ERROR : bool := true.

(** [SensorState]: string constants compared with [is]. *)
Inductive sensor_state := ACTIVE | DISABLED | ERROR.

Definition state_str (s : sensor_state) : string :=
  match s with ACTIVE => "ACTIVE" | DISABLED => "DISABLED" | ERROR => "ERROR" end.

Definition state_eqb (a b : sensor_state) : bool :=
  match a, b with
  | ACTIVE, ACTIVE | DISABLED, DISABLED | ERROR, ERROR => true
  | _, _ => false
  end.

(** Exceptions that reach the code of the core. [DriverError] is what a
    sensor driver's [read_values] raises. *)
Inductive exn := ValueError | TypeError | KeyError | AttributeError | OSError
               | DriverError.

Definition exn_str (e : exn) : string :=
  match e with
  | ValueError => "ValueError" | TypeError => "TypeError" | KeyError => "KeyError"
  | AttributeError => "AttributeError" | OSError => "OSError"
  | DriverError => "DriverError"
  end.

(** A [BaseSensor] instance. [editable] and [defaults] are
    [parameters["editable"]] and [parameters["defaults"]] ([None] when the
    key is absent); [control] is [capabilities["control"]];
    [read_result] is what the driver's [read_values()] gives: the
    readings, or [None] when it raises. *)
Record sensor := mkSensor {
  sensor_id : string;
  publish_topics : list (string * string);
  editable : option dict;
  defaults : option dict;
  control : list string;
  s_state : sensor_state;
  read_result : option dict
}.

Definition with_state (s : sensor) (st : sensor_state) : sensor :=
  mkSensor (sensor_id s) (publish_topics s) (editable s) (defaults s)
           (control s) st (read_result s).

Definition with_editable (s : sensor) (e : option dict) : sensor :=
  mkSensor (sensor_id s) (publish_topics s) e (defaults s)
           (control s) (s_state s) (read_result s).

(** The MQTT client behind [MQTTManager]: its [connected] flag, which
    topics [client.publish] raises on and which topics
    [client.subscribe] raises on. *)
Record mqtt_client := mkClient {
  connected : bool;
  client_fails : string -> bool;
  client_sub_fails : string -> bool
}.

(** Interactions with the collaborators, newest first in the world. *)
Inductive event :=
| Publish (topic : string) (payload : dict)  (* MQTTManager.publish called *)
| Sent (topic : string) (payload : dict)     (* client.publish returned *)
| ReadValues (sid : string)                  (* driver read_values() called *)
| SaveConfig (snapshot : list (string * option dict))  (* Config.save_config *)
| Reboot.                                    (* machine.reset() *)

Inductive level := LDebug | LInfo | LWarning | LError.

(** The state of the node: [SensorManager.sensors] (the sensor
    objects, by id), [SensorManager._next_update_times], the MQTT
    manager ([None]: no manager attached), the interactions and the log,
    the value of [time.time()] and of [get_formatted_datetime()], and
    whether [open(self.path, "w")] in [Config.save_config()] succeeds. *)
Record world := mkWorld {
  sensors : list (string * sensor);
  next_update_times : list (string * Z);
  mqtt : option mqtt_client;
  trace : list event;
  logs : list (level * string);
  clock : Z;
  datetime : string;
  config_writable : bool
}.

(** Python's outcomes: a value, a raised exception, or the device reset
    by [machine.reset()] (which never returns). *)
Inductive outcome (A : Type) :=
| Ok (a : A)
| Raise (e : exn)
| Halted.
Arguments Ok {A} a.
Arguments Raise {A} e.
Arguments Halted {A}.

Definition M (A : Type) : Type := world -> outcome A * world.

Definition ret {A} (a : A) : M A := fun w => (Ok a, w).

Definition bind {A B} (c : M A) (k : A -> M B) : M B :=
  fun w =>
    match c w with
    | (Ok a, w') => k a w'
    | (Raise e, w') => (Raise e, w')
    | (Halted, w') => (Halted, w')
    end.

Definition raise {A} (e : exn) : M A := fun w => (Raise e, w).
Definition halt {A} : M A := fun w => (Halted, w).

(** [try: c except Exception as e: h(e)] *)
Definition try_except {A} (c : M A) (h : exn -> M A) : M A :=
  fun w =>
    match c w with
    | (Raise e, w') => h e w'
    | r => r
    end.

Notation "'let*' x ':=' c 'in' k" := (bind c (fun x => k))
  (at level 200, x name, c at level 100, k at level 200).
Notation "c1 ;; c2" := (bind c1 (fun _ : unit => c2))
  (at level 100, right associativity).

Fixpoint for_each {A} (l : list A) (f : A -> M unit) : M unit :=
  match l with
  | [] => ret tt
  | x :: l' => f x ;; for_each l' f
  end.

Definition get_world : M world := fun w => (Ok w, w).

Definition log (lv : level) (msg : string) : M unit :=
  fun w => (Ok tt, mkWorld (sensors w) (next_update_times w) (mqtt w) (trace w)
                           ((lv, msg) :: logs w) (clock w) (datetime w) (config_writable w)).

Definition emit (ev : event) : M unit :=
  fun w => (Ok tt, mkWorld (sensors w) (next_update_times w) (mqtt w)
                           (ev :: trace w) (logs w) (clock w) (datetime w) (config_writable w)).

(** [self.sensors[sid]] *)
Definition get_sensor (sid : string) : M sensor :=
  fun w => match assoc_get (sensors w) sid with
           | Some s => (Ok s, w)
           | None => (Raise KeyError, w)
           end.

(** Mutation of the sensor object [sid]. *)
Definition put_sensor (sid : string) (s : sensor) : M unit :=
  fun w => (Ok tt, mkWorld (assoc_set (sensors w) sid s) (next_update_times w)
                           (mqtt w) (trace w) (logs w) (clock w) (datetime w) (config_writable w)).

(** [self._next_update_times[sid]] *)
Definition get_next (sid : string) : M Z :=
  fun w => match assoc_get (next_update_times w) sid with
           | Some t => (Ok t, w)
           | None => (Raise KeyError, w)
           end.

Definition set_next (sid : string) (t : Z) : M unit :=
  fun w => (Ok tt, mkWorld (sensors w) (assoc_set (next_update_times w) sid t)
                           (mqtt w) (trace w) (logs w) (clock w) (datetime w) (config_writable w)).

Definition time_time : M Z := fun w => (Ok (clock w), w).
Definition get_formatted_datetime : M string := fun w => (Ok (datetime w), w).

(** [self.mqtt_manager] is not [None] *)
Definition mqtt_attached : M bool :=
  fun w => (Ok (match mqtt w with Some _ => true | None => false end), w).

(** [current_time + interval]: Python [+] on a number (a bool counts as
    an int); anything else raises [TypeError]. *)
Definition py_add_time (t : Z) (v : val) : M Z :=
  match v with
  | VInt z => ret (t + z)%Z
  | VBool b => ret (t + if b then 1 else 0)%Z
  | _ => raise TypeError
  end.

(* --------------------------------------------------------------------- *)
(** *** MQTTManager.publish *)

Definition get_mqtt : M mqtt_client :=
  fun w => match mqtt w with
           | Some m => (Ok m, w)
           | None => (Raise AttributeError, w)
           end.

(** [MQTTManager.publish(topic, message)]: the call is recorded; when
    not connected it logs a warning and returns; otherwise the client
    publishes, and a client error is logged and re-raised. *)
Definition mqtt_publish (topic : string) (message : dict) : M unit :=
  let* m := get_mqtt in
  emit (Publish topic message) ;;
  if negb (connected m) then
    log LWarning "MQTT not connected. Publish aborted."
  else
    log LDebug "MQTT publish" ;;
    try_except
      (if client_fails m topic then raise OSError else emit (Sent topic message))
      (fun e => log LError "MQTT publish error" ;; raise e).

(* --------------------------------------------------------------------- *)
(** *** BaseSensor *)

(** [self.publish_topics.get(key)], kept only when truthy. *)
Definition topic_of (s : sensor) (key : string) : option string :=
  match assoc_get (publish_topics s) key with
  | Some t => if String.eqb t "" then None else Some t
  | None => None
  end.

(** [self.enabled] in [_can_publish] is the bound method object, which is
    never called: it is always truthy. *)
Definition bound_method_truthy : bool := true.

(** [BaseSensor._can_publish(data)] *)
Definition can_publish (sid : string) (data : dict) : M bool :=
  let* s := get_sensor sid in
  if negb bound_method_truthy then
    log LWarning "Sensor is disabled. Skipping data publish." ;; ret false
  else if negb (dict_truthy data) then
    log LWarning "No data to publish." ;; ret false
  else if negb (state_eqb (s_state s) ACTIVE) then
    log LWarning "Sensor is not in ACTIVE state. Skipping data publish." ;; ret false
  else ret true.

(** The body shared by [publish_data] and [publish_error]. *)
Definition publish_on (sid key : string) (data : dict) (missing : string) : M unit :=
  let* ok := can_publish sid data in
  if negb ok then ret tt else
  let* s := get_sensor sid in
  let* att := mqtt_attached in
  match topic_of s key, att with
  | Some t, true => log LDebug "publish" ;; mqtt_publish t data
  | _, _ => log LWarning missing
  end.

(** [BaseSensor.publish_data(data)] *)
Definition publish_data (sid : string) (data : dict) : M unit :=
  publish_on sid "data" data "No data topic found.".

(** [BaseSensor.publish_error(data)] *)
Definition publish_error (sid : string) (data : dict) : M unit :=
  publish_on sid "errors" data "No error topic found.".

Definition state_payload (st : sensor_state) : dict := [("state", VStr (state_str st))].

(** [BaseSensor.publish_state()] *)
Definition publish_state (sid : string) : M unit :=
  let* s := get_sensor sid in
  let* att := mqtt_attached in
  match topic_of s "state", att with
  | Some t, true => log LDebug "publish_state" ;; mqtt_publish t (state_payload (s_state s))
  | _, _ => log LWarning "No state topic found."
  end.

(** [BaseSensor.publish_info()] during the construction of [s], whose
    [parameters.get("read_only", {})] is [read_only]. *)
Definition publish_info (s : sensor) (read_only : dict) : M unit :=
  let* att := mqtt_attached in
  match topic_of s "info", att with
  | Some t, true => log LDebug "publish_info" ;; mqtt_publish t read_only
  | _, _ => log LWarning "No info topic found."
  end.

(** The driver's [read_values()]. *)
Definition read_values (sid : string) : M dict :=
  let* s := get_sensor sid in
  emit (ReadValues sid) ;;
  match read_result s with
  | Some d => ret d
  | None => raise DriverError
  end.

(** [Config.save_config()]: the configuration document, which holds the
    sensors' [parameters] dicts by reference, is written out; when the
    file cannot be opened for writing, [OSError] is raised. *)
Definition save_config : M unit :=
  let* w := get_world in
  if config_writable w then
    emit (SaveConfig (map (fun '(sid, s) => (sid, editable s)) (sensors w)))
  else raise OSError.

(** [BaseSensor.error()] *)
Definition sensor_error (sid : string) : M unit :=
  let* s := get_sensor sid in
  put_sensor sid (with_state s ERROR) ;;
  publish_state sid.

(** [BaseSensor.enable()] *)
Definition enable (sid : string) : M unit :=
  let* s := get_sensor sid in
  if state_eqb (s_state s) DISABLED then
    log LInfo "Enabling sensor." ;;
    put_sensor sid (with_state s ACTIVE) ;;
    publish_state sid
  else ret tt.

(** [BaseSensor.disable()] *)
Definition disable (sid : string) : M unit :=
  let* s := get_sensor sid in
  if state_eqb (s_state s) ACTIVE then
    log LInfo "Disabling sensor." ;;
    put_sensor sid (with_state s DISABLED) ;;
    publish_state sid
  else ret tt.

(** [BaseSensor.do_self_test()] (base implementation) *)
Definition do_self_test (sid : string) : M bool :=
  log LInfo "Running self_test (base implementation)." ;; ret true.

(** [BaseSensor.update_parameter(key, value)].
    [editable = self.parameters.get("editable", {})]: when the key is
    absent a fresh empty dict is used, which contains no key. *)
Definition update_parameter (sid key : string) (value : val) : M unit :=
  let* s := get_sensor sid in
  match editable s with
  | Some e =>
      if dict_mem e key then
        put_sensor sid (with_editable s (Some (assoc_set e key value))) ;;
        save_config ;;
        log LInfo "Updated parameter" ;;
        log LInfo "Configuration updated successfully."
      else log LWarning "not in editable parameters."
  | None => log LWarning "not in editable parameters."
  end.

(** One pass of [for k, default_val in fac_def.items():]. *)
Definition reset_one (sid : string) (kv : string * val) : M unit :=
  let '(k, default_val) := kv in
  let* s := get_sensor sid in
  match editable s with
  | Some e =>
      if dict_mem e k then
        put_sensor sid (with_editable s (Some (assoc_set e k default_val))) ;;
        log LInfo "Reset to default" ;;
        save_config
      else log LWarning "not in editable parameters."
  | None => log LWarning "not in editable parameters."
  end.

(** [BaseSensor._do_factory_reset()] *)
Definition do_factory_reset (sid : string) : M unit :=
  let* s := get_sensor sid in
  let fac_def := match defaults s with Some d => d | None => [] end in
  if negb (dict_truthy fac_def) then
    log LWarning "No 'factory_defaults' found."
  else
    for_each fac_def (reset_one sid) ;;
    log LInfo "Factory reset completed." ;;
    let* s' := get_sensor sid in
    put_sensor sid (with_state s' ACTIVE) ;;
    publish_state sid.

Definition command_map_keys : list string :=
  ["enable"; "disable"; "self_test"; "factory_reset"].

Definition dispatch (sid cmd : string) : M unit :=
  if String.eqb cmd "enable" then enable sid
  else if String.eqb cmd "disable" then disable sid
  else if String.eqb cmd "self_test" then (let* _ := do_self_test sid in ret tt)
  else if String.eqb cmd "factory_reset" then do_factory_reset sid
  else ret tt.

(** [BaseSensor.process_command(command)]: a command runs only when it
    is both in [capabilities["control"]] and in the command map (a
    non-string command equals no entry of either). *)
Definition process_command (sid : string) (command : val) : M unit :=
  let* s := get_sensor sid in
  match command with
  | VStr c =>
      if existsb (String.eqb c) (control s) && existsb (String.eqb c) command_map_keys
      then log LInfo "Processing command" ;; dispatch sid c
      else log LWarning "Unsupported command"
  | _ => log LWarning "Unsupported command"
  end.

(* --------------------------------------------------------------------- *)
(** *** SensorManager *)

(** [SensorManager._error_handler(sid, sensor, error_msg)] *)
Definition error_handler (sid : string) (error_msg : string) : M unit :=
  log LError "Error in sensor" ;;
  try_except
    (let* ts := get_formatted_datetime in
     publish_error sid [("timestamp", VStr ts); ("error", VStr error_msg)] ;;
     sensor_error sid ;;
     log LInfo "Error data published")
    (fun _ => log LError "Error cannot be published, so disabling sensor.").

(** [interval = sensor.parameters.get("editable", {}).get("report_interval",
    DEFAULT_UPDATE_SENSOR_INTERVAL)] *)
Definition report_interval (s : sensor) : val :=
  match editable s with
  | Some e => dict_get_default e "report_interval" (VInt DEFAULT_UPDATE_SENSOR_INTERVAL)
  | None => VInt DEFAULT_UPDATE_SENSOR_INTERVAL
  end.

(** The [try] block of [update_sensors] for one sensor. *)
Definition poll (sid : string) : M unit :=
  publish_state sid ;;
  let* data := read_values sid in
  if dict_truthy data then publish_data sid data else ret tt.

(** One iteration of [for sid, sensor in self.sensors.items():]. *)
Definition update_sensor (current_time : Z) (sid : string) : M unit :=
  let* s := get_sensor sid in
  let interval := report_interval s in
  let* nt := get_next sid in
  if (nt <=? current_time)%Z then
    try_except (poll sid)
      (fun e => log LError "Error during sensor update" ;;
                error_handler sid ("Error during sensor update: " ++ exn_str e)) ;;
    let* t := py_add_time current_time interval in
    set_next sid t
  else ret tt.

(** [SensorManager.update_sensors()] *)
Definition update_sensors : M unit :=
  let* current_time := time_time in
  let* w := get_world in
  for_each (map fst (sensors w)) (update_sensor current_time).

(** [json.loads(msg.decode("utf-8"))]: [None] stands for bytes that are
    not valid UTF-8 JSON. *)
Definition json_loads (msg : option val) : M val :=
  match msg with Some v => ret v | None => raise ValueError end.

(** [parsed_msg.get(key)] *)
Definition py_get (v : val) (key : string) : M val :=
  match v with
  | VObj kv => ret (dict_get_default kv key VNone)
  | _ => raise AttributeError
  end.

(** [self.sensors.get(sid)] *)
Definition lookup_sensor (sid : string) : M (option sensor) :=
  fun w => (Ok (assoc_get (sensors w) sid), w).

(** The callback made by [SensorManager._make_cb(sensor_id)], called with
    the topic and the message. *)
Definition sensor_cb (sid topic : string) (msg : option val) : M unit :=
  let* os := lookup_sensor sid in
  match os with
  | None => log LError "Sensor not found."
  | Some _ =>
      try_except
        (let* parsed := json_loads msg in
         log LDebug "Message received" ;;
         if str_contains topic "commands" then
           let* command := py_get parsed "command" in
           if negb (truthy command) then log LError "No command found in message"
           else log LInfo "Processing command" ;; process_command sid command
         else if str_contains topic "config" then
           match parsed with
           | VObj kv =>
               log LInfo "Updating configuration" ;;
               for_each kv (fun '(k, v) => update_parameter sid k v) ;;
               match assoc_get kv "report_interval" with
               | Some ri =>
                   let* now := time_time in
                   let* t := py_add_time now ri in
                   set_next sid t ;;
                   log LInfo "Report interval updated"
               | None => ret tt
               end
           | _ => log LError "Configuration is not a dictionary"
           end
         else log LWarning "Unexpected topic")
        (fun e => match e with
                  | ValueError => log LError "Invalid JSON in message"
                  | _ => log LError "Error processing message" ;;
                         error_handler sid ("Error processing message: " ++ exn_str e)
                  end)
  end.

(* --------------------------------------------------------------------- *)
(** *** ErrorHandler *)

(** The configuration the [ErrorHandler] holds: [config["error_handling"]]
    and [config["mqtt"]["publish"]["errors"]] ([None] when absent, in
    which case the default [{}] is falsy). *)
Record error_config := mkErrorConfig {
  error_handling : dict;
  error_topic : option string
}.

Definition topic_truthy (t : option string) : option string :=
  match t with
  | Some s => if String.eqb s "" then None else Some s
  | None => None
  end.

(** [Power.reboot()] *)
Definition reboot : M unit :=
  log LInfo "Rebooting device..." ;; emit Reboot ;; halt.

(** [ErrorHandler.handle_error(error_message)] *)
Definition handle_error (cfg : error_config) (error_message : string) : M unit :=
  log LError "Handling error" ;;
  let* att := mqtt_attached in
  (if truthy (dict_get_default (error_handling cfg) "post_global_errors"
                               (VBool DEFAULT_POST_GLOBAL_ERROR)) && att then
     log LDebug "Publishing error to global errors topic." ;;
     match topic_truthy (error_topic cfg) with
     | Some t =>
         log LDebug "Publishing error to topic" ;;
         let* ts := get_formatted_datetime in
         mqtt_publish t [("error", VStr error_message); ("timestamp", VStr ts)]
     | None => log LError "No error topic configured, not publishing error."
     end
   else log LDebug "Not publishing error to global errors topic.") ;;
  if truthy (dict_get_default (error_handling cfg) "auto_restart_on_error"
                              (VBool DEFAULT_AUTO_RESTART_ON_ERROR)) then
    log LInfo "Auto-restarting system due to error." ;; reboot
  else log LInfo "Not auto-restarting system due to error.".

(** The interval [update_sensors] adds, when it is a number. *)
Definition interval_z (s : sensor) : option Z :=
  match report_interval s with
  | VInt z => Some z
  | VBool b => Some (if b then 1 else 0)%Z
  | _ => None
  end.

(* --------------------------------------------------------------------- *)
(** *** MQTTManager: subscriptions, routing and polling *)

(** [MQTTManager.callbacks]: each topic mapped to the sensor id whose
    [SensorManager._make_cb(sid)] closure is registered for it (the only
    callbacks this program registers). *)
Definition callbacks := list (string * string).

(** The code that also reaches the manager's [callbacks] runs on the
    world and that dict. *)
Definition MC (A : Type) : Type := world * callbacks -> outcome A * (world * callbacks).

Definition lift {A} (c : M A) : MC A :=
  fun st => let (o, w') := c (fst st) in (o, (w', snd st)).

Definition retc {A} (a : A) : MC A := fun st => (Ok a, st).

Definition bindc {A B} (c : MC A) (k : A -> MC B) : MC B :=
  fun st =>
    match c st with
    | (Ok a, st') => k a st'
    | (Raise e, st') => (Raise e, st')
    | (Halted, st') => (Halted, st')
    end.

Definition try_exceptc {A} (c : MC A) (h : exn -> MC A) : MC A :=
  fun st =>
    match c st with
    | (Raise e, st') => h e st'
    | r => r
    end.

Definition get_callbacks : MC callbacks := fun st => (Ok (snd st), st).
Definition put_callbacks (cbs : callbacks) : MC unit := fun st => (Ok tt, (fst st, cbs)).

Notation "'let@' x ':=' c 'in' k" := (bindc c (fun x => k))
  (at level 200, x name, c at level 100, k at level 200).
Notation "c1 ;;@ c2" := (bindc c1 (fun _ : unit => c2))
  (at level 100, right associativity).

Fixpoint for_eachc {A} (l : list A) (f : A -> MC unit) : MC unit :=
  match l with
  | [] => retc tt
  | x :: l' => f x ;;@ for_eachc l' f
  end.

(** [self.connected = b] on the attached manager. *)
Definition set_connected (b : bool) : M unit :=
  fun w => (Ok tt, mkWorld (sensors w) (next_update_times w)
                           (match mqtt w with
                            | Some m => Some (mkClient b (client_fails m) (client_sub_fails m))
                            | None => None
                            end)
                           (trace w) (logs w) (clock w) (datetime w) (config_writable w)).

(** [MQTTManager.connect()]: [broker_up] is whether [client.connect()]
    succeeds; its error is logged and re-raised. *)
Definition mqtt_connect (broker_up : bool) : M unit :=
  let* _ := get_mqtt in
  log LInfo "MQTTManager: connecting..." ;;
  try_except
    (if broker_up then set_connected true ;; log LInfo "MQTT connected."
     else raise OSError)
    (fun e => log LError "MQTT connection error" ;; raise e).

(** [MQTTManager.subscribe(topic, self._make_cb(sid))].
    [self.callbacks[topic] = callback] comes first;
    [client.set_callback] is taken not to raise; [client.subscribe]
    raises [TypeError] on a topic that is not a string (the callback is
    then stored under a key that no decoded topic can match) and raises
    [OSError] on the topics the client refuses, the callback staying
    stored. *)
Definition mqtt_subscribe (topic : val) (sid : string) : MC unit :=
  let@ m := lift get_mqtt in
  if negb (connected m) then
    lift (log LWarning "MQTT not connected. Subscribe aborted.")
  else
    lift (log LDebug "MQTT subscribe") ;;@
    try_exceptc
      (match topic with
       | VStr t =>
           let@ cbs := get_callbacks in
           put_callbacks (assoc_set cbs t sid) ;;@
           (if client_sub_fails m t then lift (raise OSError) else retc tt)
       | _ => lift (raise TypeError)
       end)
      (fun e => lift (log LError "MQTT subscribe error" ;; raise e)).

(** [MQTTManager._message_router(topic, msg)]: [None] stands for a topic
    that is not valid UTF-8 ([topic.decode] raises [UnicodeError], a
    [ValueError]). Exceptions of the callback are logged, not raised. *)
Definition message_router (topic : option string) (msg : option val) : MC unit :=
  match topic with
  | None => lift (raise ValueError)
  | Some t =>
      lift (log LDebug "MQTT message received") ;;@
      let@ cbs := get_callbacks in
      match assoc_get cbs t with
      | Some sid => lift (try_except (sensor_cb sid t msg)
                                    (fun _ => log LError "Error in callback for topic"))
      | None => lift (log LWarning "No callback registered for topic")
      end
  end.

(** What [client.check_msg()] finds: nothing, one message (handed to the
    router installed by [set_callback]), or a socket error. *)
Inductive inbox :=
| NoMsg
| Msg (topic : option string) (msg : option val)
| SockError.

(** [MQTTManager.check_messages()] *)
Definition check_messages (ib : inbox) : MC unit :=
  let@ m := lift get_mqtt in
  if negb (connected m) then retc tt
  else
    try_exceptc
      (match ib with
       | NoMsg => retc tt
       | Msg t msg => message_router t msg
       | SockError => lift (raise OSError)
       end)
      (fun e => lift (log LError "MQTT check_msg error" ;; set_connected false ;; raise e)).

(** [SensorManager._subscribe(topic, callback)] *)
Definition sm_subscribe (topic : val) (sid : string) : MC unit :=
  lift (log LDebug "SensorManager subscribing") ;;@ mqtt_subscribe topic sid.

(* --------------------------------------------------------------------- *)
(** *** SensorManager.initialize_sensors and the main loop *)

(** [v.get(key, default)] on a value that must be a dict. *)
Definition py_get_default (v : val) (key : string) (default : val) : M val :=
  match v with
  | VObj kv => ret (dict_get_default kv key default)
  | _ => raise AttributeError
  end.

(** [key in v]: membership in a dict's keys, a substring test on a
    string, membership in a list; [TypeError] on the other values. *)
Definition py_in (key : string) (v : val) : M bool :=
  match v with
  | VObj kv => ret (dict_mem kv key)
  | VStr s => ret (str_contains s key)
  | VList l => ret (existsb (fun x => match x with VStr s => String.eqb s key | _ => false end) l)
  | _ => raise TypeError
  end.

(** What the dynamic import and the class lookup of an entry of
    [sensors_config] give: the text of the exception one of them raised,
    or a class. For a class, [s] is the sensor its constructor builds,
    [read_only] its [parameters.get("read_only", {})] and [ctor_fails]
    the exception, if any, that the rest of the subclass constructor
    (after [BaseSensor.__init__], e.g. [s_config["args"]["pin"]]) or
    [sensor_instance.initialize()] raises. *)
Inductive loaded :=
| ImportFailed (err : string)
| Constructed (s : sensor) (read_only : dict) (ctor_fails : option exn).

(** [SensorClass(...)] and [sensor_instance.initialize()]: the
    [BaseSensor.__init__] part logs and calls [publish_info()]. *)
Definition construct_sensor (s : sensor) (read_only : dict) (ctor_fails : option exn) : M unit :=
  log LInfo "BaseSensor initialized." ;;
  publish_info s read_only ;;
  match ctor_fails with Some e => raise e | None => ret tt end.

(** The [try] block of [initialize_sensors] for the entry [s_cfg] with
    [s_cfg.get("id") = sid], from the log line naming the class on. *)
Definition init_loaded (sid : string) (s_cfg : dict) (s : sensor) (read_only : dict)
           (ctor_fails : option exn) : MC unit :=
  lift (log LInfo "Sensor class") ;;@
  lift (construct_sensor s read_only ctor_fails) ;;@
  lift (put_sensor sid s) ;;@
  let@ sub_cfg := lift (py_get_default (dict_get_default s_cfg "mqtt" (VObj [])) "subscribe" (VObj [])) in
  let@ has_commands := lift (py_in "commands" sub_cfg) in
  (if has_commands then
     lift (log LInfo "Sensor commands.") ;;@
     let@ t := lift (py_get sub_cfg "commands") in
     lift (log LInfo "Sensor commands: topic") ;;@
     let@ t := lift (py_get sub_cfg "commands") in
     sm_subscribe t sid
   else retc tt) ;;@
  let@ has_config := lift (py_in "config" sub_cfg) in
  (if has_config then
     lift (log LInfo "Sensor config.") ;;@
     let@ t := lift (py_get sub_cfg "config") in
     sm_subscribe t sid
   else retc tt) ;;@
  let@ now := lift time_time in
  lift (set_next sid now) ;;@
  lift (log LInfo "Sensor initialized.").

(** One iteration of [for s_cfg in self.sensors_config:]. The entry's
    ["id"] is taken to be the string [sid]. *)
Definition init_sensor (ecfg : error_config) (entry : string * dict * loaded) : MC unit :=
  let '(sid, s_cfg, ld) := entry in
  match ld with
  | ImportFailed err => lift (handle_error ecfg ("Failed to load sensors: " ++ err))
  | Constructed s ro cf =>
      try_exceptc (init_loaded sid s_cfg s ro cf)
        (fun e => lift (handle_error ecfg ("Failed to load sensors: " ++ exn_str e)))
  end.

(** [SensorManager.initialize_sensors()] *)
Definition initialize_sensors (ecfg : error_config)
           (entries : list (string * dict * loaded)) : MC unit :=
  for_eachc entries (init_sensor ecfg).

(** The clock reading [time.time()] gives from now on. *)
Definition set_clock (t : Z) : M unit :=
  fun w => (Ok tt, mkWorld (sensors w) (next_update_times w) (mqtt w) (trace w)
                           (logs w) t (datetime w) (config_writable w)).

(** The [while True:] loop of [Application.run()], one pass per entry of
    [steps]: what [check_msg()] finds in that pass and the time then
    ([watchdog.feed()] and [wifi_manager.check_connection()] are taken to
    return normally; [await asyncio.sleep(10)] is the passing of time). *)
Definition loop_pass (ib : inbox) (t : Z) : MC unit :=
  lift (set_clock t) ;;@
  check_messages ib ;;@
  lift update_sensors.

Fixpoint main_loop (steps : list (inbox * Z)) : MC unit :=
  match steps with
  | [] => retc tt
  | (ib, t) :: rest => loop_pass ib t ;;@ main_loop rest
  end.

(** The [try]/[except] around the main loop in [Application.run()]. *)
Definition run_main_loop (ecfg : error_config) (steps : list (inbox * Z)) : MC unit :=
  try_exceptc (main_loop steps)
    (fun e => lift (handle_error ecfg ("Error during main loop: " ++ exn_str e))).

End Node.

(* ===================================================================== *)
(** ** Concrete nodes used in the examples *)
(* ===================================================================== *)

Module NodeExamples.
Import Node.
Open Scope string_scope.

Definition temp_topics : list (string * string) :=
  [("data", "node/temp/data"); ("state", "node/temp/state"); ("errors", "node/temp/errors")].

(** A sensor ["temp"] in state [st], with [parameters["editable"] = ed],
    [parameters["defaults"] = df] and a driver giving [rd]. *)
Definition temp_sensor (st : sensor_state) (ed df rd : option dict) : sensor :=
  mkSensor "temp" temp_topics ed df ["enable"; "disable"; "factory_reset"] st rd.

Definition client_up : mqtt_client := mkClient true (fun _ => false) (fun _ => false).
Definition client_down : mqtt_client := mkClient false (fun _ => false) (fun _ => false).
Definition client_refusing (t : string) : mqtt_client :=
  mkClient true (fun t' => String.eqb t' t) (fun _ => false).

Definition node_world (s : sensor) (nt : Z) (m : option mqtt_client) (now : Z) : world :=
  mkWorld [("temp", s)] [("temp", nt)] m [] [] now "2024-05-01 12:00:00" true.

Definition with_clock (w : world) (t : Z) : world :=
  mkWorld (sensors w) (next_update_times w) (mqtt w) (trace w) (logs w) t (datetime w) (config_writable w).

(** Whether [MQTTManager.publish] was called on topic [t]. *)
Definition published_on (t : string) (tr : list event) : bool :=
  existsb (fun ev => match ev with Publish t' _ => String.eqb t' t | _ => false end) tr.

(** Whether the driver of [sid] was read. *)
Definition read_called (sid : string) (tr : list event) : bool :=
  existsb (fun ev => match ev with ReadValues s => String.eqb s sid | _ => false end) tr.

Definition state_of (w : world) (sid : string) : option sensor_state :=
  option_map s_state (assoc_get (sensors w) sid).

Definition editable_of (w : world) (sid : string) : option dict :=
  match assoc_get (sensors w) sid with Some s => editable s | None => None end.

Definition saves (tr : list event) : nat :=
  length (filter (fun ev => match ev with SaveConfig _ => true | _ => false end) tr).

End NodeExamples.

(* ===================================================================== *)
(** ** Lemmas on the animation *)
(* ===================================================================== *)

Module ServiceLEDFacts.
Import ServiceLED.

Section Pattern.
Variables (c : color) (pattern : list Q) (times : Z).

(** The continuation of a non-empty pass is never consulted before the
    first [await]. *)
Lemma for_body_cons_indep it d ds k1 k2 :
  for_body c it (d :: ds) k1 = for_body c it (d :: ds) k2.
Proof. reflexivity. Qed.

(** Running the rest [ds] of a pass: two sleeps per entry, on then off
    for the same duration, then the loop head of the next iteration. *)
Lemma run_for_body fuel ds it n :
  run c pattern times fuel (2 * length ds + n)
      (for_body c it ds (while_head c pattern times fuel)) =
  let '(tr, st) := run c pattern times fuel n
                     (while_head c pattern times fuel (it + 1)) in
  (one_pass c ds ++ tr, st).
Proof.
  revert n. induction ds as [|d ds IH]; intros n.
  - simpl. destruct (run _ _ _ _ _ _). reflexivity.
  - replace (2 * length (d :: ds) + n)%nat
      with (S (S (2 * length ds + n))) by (simpl; lia).
    cbn [for_body run resume].
    rewrite IH.
    destruct (run c pattern times fuel n _) as [tr st].
    reflexivity.
Qed.

Lemma run_return fuel n w : run c pattern times fuel n (Return w) = (w, Finished).
Proof. destruct n; reflexivity. Qed.

(** [times = k > 0], non-empty pattern: from [iteration = it] with [j]
    passes left the task completes them and ends with the off write. *)
Lemma run_passes_nonempty fuel d ds j it :
  pattern = d :: ds -> (1 <= fuel)%nat -> (0 < times)%Z ->
  (it + Z.of_nat j = times)%Z ->
  run c pattern times fuel (2 * length pattern * j)
      (while_head c pattern times fuel it) =
  (passes c pattern j ++ [Write off_color], Finished).
Proof.
  intros Hp Hf Ht. revert it. induction j as [|j IH]; intros it Hj.
  - destruct fuel as [|f]; [lia|]. cbn [while_head].
    unfold loop_cond.
    replace (times =? 0)%Z with false by (symmetry; apply Z.eqb_neq; lia).
    replace (it <? times)%Z with false by (symmetry; apply Z.ltb_ge; lia).
    apply run_return.
  - destruct fuel as [|f]; [lia|].
    assert (Hw : while_head c pattern times (S f) it =
                 for_body c it pattern (while_head c pattern times (S f))).
    { cbn [while_head]. unfold loop_cond.
      replace (it <? times)%Z with true by (symmetry; apply Z.ltb_lt; lia).
      rewrite orb_true_r. rewrite Hp. apply for_body_cons_indep. }
    rewrite Hw.
    replace (2 * length pattern * S j)%nat
      with (2 * length pattern + 2 * length pattern * j)%nat by lia.
    rewrite run_for_body.
    rewrite IH by lia. simpl. rewrite app_assoc. reflexivity.
Qed.

(** Empty pattern: the passes are silent and the loop exits with the off
    write, provided the fuel covers the remaining passes. *)
Lemma while_head_nil fuel j it :
  pattern = [] -> (0 < times)%Z -> (it + Z.of_nat j = times)%Z -> (j < fuel)%nat ->
  while_head c pattern times fuel it = Return [Write off_color].
Proof.
  intros Hp Ht. revert fuel it. induction j as [|j IH]; intros fuel it Hj Hf.
  - destruct fuel as [|f]; [lia|]. cbn [while_head]. unfold loop_cond.
    replace (times =? 0)%Z with false by (symmetry; apply Z.eqb_neq; lia).
    replace (it <? times)%Z with false by (symmetry; apply Z.ltb_ge; lia).
    reflexivity.
  - destruct fuel as [|f]; [lia|]. cbn [while_head]. unfold loop_cond.
    replace (it <? times)%Z with true by (symmetry; apply Z.ltb_lt; lia).
    rewrite orb_true_r.
    transitivity (for_body c it [] (while_head c pattern times f)).
    + rewrite <- Hp. reflexivity.
    + cbn [for_body]. apply IH; lia.
Qed.

Lemma passes_nil j : passes c [] j = [].
Proof. induction j; simpl; auto. Qed.

Definition not_return (r : resumption) : Prop :=
  match r with Return _ => False | _ => True end.

(** With [times = 0] the loop test never fails. *)
Lemma while_head_forever fuel it :
  times = 0%Z -> not_return (while_head c pattern times fuel it).
Proof.
  intros Ht. revert it. induction fuel as [|f IH]; intros it; [exact I|].
  cbn [while_head]. unfold loop_cond.
  replace (times =? 0)%Z with true by (symmetry; apply Z.eqb_eq; exact Ht).
  simpl. destruct pattern; [apply IH | exact I].
Qed.

Lemma resume_forever fuel p :
  times = 0%Z -> not_return (resume c pattern times fuel p).
Proof.
  intros Ht. destruct p as [it d ds | it ds]; [exact I|].
  cbn [resume]. destruct ds; [apply while_head_forever; exact Ht | exact I].
Qed.

Lemma run_not_finished fuel n r :
  (forall p, not_return (resume c pattern times fuel p)) -> not_return r ->
  snd (run c pattern times fuel n r) <> Finished.
Proof.
  intros Hres. revert r. induction n as [|n IH]; intros r Hr.
  - destruct r; simpl in *; try discriminate; contradiction.
  - destruct r as [w d p | w |]; simpl in *; try discriminate; try contradiction.
    specialize (IH (resume c pattern times fuel p) (Hres p)).
    destruct (run c pattern times fuel n _) as [tr st]. exact IH.
Qed.

Lemma run_suspended fuel n r :
  (forall p, exists w d p', resume c pattern times fuel p = Yield w d p') ->
  (exists w d p', r = Yield w d p') ->
  exists p, snd (run c pattern times fuel n r) = Suspended p.
Proof.
  intros Hres. revert r. induction n as [|n IH]; intros r [w [d [p' ->]]].
  - simpl. eauto.
  - simpl. specialize (IH (resume c pattern times fuel p') (Hres p')).
    destruct (run c pattern times fuel n _) as [tr st]. exact IH.
Qed.

Lemma while_head_yield fuel it d ds :
  times = 0%Z -> pattern = d :: ds -> (1 <= fuel)%nat ->
  exists w d' p, while_head c pattern times fuel it = Yield w d' p.
Proof.
  intros Ht Hp Hf. destruct fuel as [|f]; [lia|].
  cbn [while_head]. unfold loop_cond.
  replace (times =? 0)%Z with true by (symmetry; apply Z.eqb_eq; exact Ht).
  simpl. rewrite Hp. simpl. eauto.
Qed.

Lemma resume_yield fuel p d ds :
  times = 0%Z -> pattern = d :: ds -> (1 <= fuel)%nat ->
  exists w d' p', resume c pattern times fuel p = Yield w d' p'.
Proof.
  intros Ht Hp Hf. destruct p as [it d0 ds0 | it ds0]; [simpl; eauto|].
  cbn [resume]. destruct ds0 as [|d1 ds1]; [|simpl; eauto].
  cbn [for_body]. eapply while_head_yield; eauto.
Qed.

End Pattern.

End ServiceLEDFacts.

(* ===================================================================== *)
(** ** Lemmas on the node model *)
(* ===================================================================== *)

Module NodeFacts.
Import Node.
Open Scope string_scope.

(* --------------------------------------------------------------------- *)
(** *** Association lists *)

Lemma assoc_get_set_eq {A} (d : list (string * A)) k v :
  dict_mem d k = true -> assoc_get (assoc_set d k v) k = Some v.
Proof.
  unfold dict_mem. induction d as [|[k' v'] d IH]; simpl; [discriminate|].
  destruct (String.eqb k k') eqn:E; simpl; rewrite E; auto.
Qed.

Lemma assoc_get_set_neq {A} (d : list (string * A)) k k' v :
  k <> k' -> assoc_get (assoc_set d k v) k' = assoc_get d k'.
Proof.
  intros Hne. induction d as [|[k0 v0] d IH]; simpl.
  - destruct (String.eqb k' k) eqn:E; [apply String.eqb_eq in E; congruence|reflexivity].
  - destruct (String.eqb k k0) eqn:E; simpl.
    + apply String.eqb_eq in E. subst k0.
      destruct (String.eqb k' k) eqn:E'; [apply String.eqb_eq in E'; congruence|reflexivity].
    + destruct (String.eqb k' k0); auto.
Qed.

Lemma map_fst_assoc_set {A} (d : list (string * A)) k v :
  dict_mem d k = true -> map fst (assoc_set d k v) = map fst d.
Proof.
  unfold dict_mem. induction d as [|[k' v'] d IH]; simpl; [discriminate|].
  destruct (String.eqb k k') eqn:E; simpl; auto.
  intros H. f_equal. apply IH. exact H.
Qed.

Lemma assoc_get_in_keys {A} (d : list (string * A)) k :
  In k (map fst d) <-> exists v, assoc_get d k = Some v.
Proof.
  induction d as [|[k' v'] d IH]; simpl.
  - split; [contradiction|intros [v H]; discriminate].
  - destruct (String.eqb k k') eqn:E.
    + apply String.eqb_eq in E. subst. split; eauto.
    + apply String.eqb_neq in E. rewrite <- IH. split; [intros [H|H]; auto; congruence|auto].
Qed.

Lemma dict_mem_some {A} (d : list (string * A)) k v :
  assoc_get d k = Some v -> dict_mem d k = true.
Proof. unfold dict_mem. intros ->. reflexivity. Qed.

Lemma with_state_id s : with_state s (s_state s) = s.
Proof. destruct s; reflexivity. Qed.

Lemma with_state_twice s a b : with_state (with_state s a) b = with_state s b.
Proof. reflexivity. Qed.

(* --------------------------------------------------------------------- *)
(** *** Relations between the world before and after an operation *)

(** The sensors agree up to their [_state] field. *)
Definition same_but_state (l l' : list (string * sensor)) : Prop :=
  map fst l' = map fst l /\
  forall k, match assoc_get l k, assoc_get l' k with
            | Some s, Some s' => s' = with_state s (s_state s')
            | None, None => True
            | _, _ => False
            end.

Lemma same_but_state_refl l : same_but_state l l.
Proof.
  split; [reflexivity|]. intros k. destruct (assoc_get l k); auto.
  symmetry. apply with_state_id.
Qed.

Lemma same_but_state_trans a b c :
  same_but_state a b -> same_but_state b c -> same_but_state a c.
Proof.
  intros [Hk1 H1] [Hk2 H2]. split; [congruence|]. intros k.
  specialize (H1 k). specialize (H2 k).
  destruct (assoc_get a k), (assoc_get b k), (assoc_get c k); try contradiction; auto.
  rewrite H2, H1. reflexivity.
Qed.

Lemma same_but_state_set l sid s st :
  assoc_get l sid = Some s -> same_but_state l (assoc_set l sid (with_state s st)).
Proof.
  intros Hs. split; [apply map_fst_assoc_set; eapply dict_mem_some; eauto|].
  intros k. destruct (String.eqb sid k) eqn:E.
  - apply String.eqb_eq in E. subst k.
    rewrite Hs, assoc_get_set_eq by (eapply dict_mem_some; eauto). reflexivity.
  - apply String.eqb_neq in E. rewrite assoc_get_set_neq by exact E.
    destruct (assoc_get l k); auto. symmetry. apply with_state_id.
Qed.

(** The parts of the world no sensor operation touches; the trace and the
    log only grow. *)
Definition frame (w w' : world) : Prop :=
  mqtt w' = mqtt w /\ clock w' = clock w /\ datetime w' = datetime w /\
  exists l, trace w' = (l ++ trace w)%list.

(** An operation that changes no sensor and no timer. *)
Definition R_s (w w' : world) : Prop :=
  frame w w' /\ sensors w' = sensors w /\ next_update_times w' = next_update_times w.

(** An operation that may change the sensors' states only. *)
Definition R_st (w w' : world) : Prop :=
  frame w w' /\ same_but_state (sensors w) (sensors w') /\
  next_update_times w' = next_update_times w.

Lemma frame_refl w : frame w w.
Proof. repeat split; auto. exists []. reflexivity. Qed.

Lemma frame_trans a b c : frame a b -> frame b c -> frame a c.
Proof.
  intros (H1 & H2 & H3 & l1 & H4) (H5 & H6 & H7 & l2 & H8).
  repeat split; try congruence. exists (l2 ++ l1)%list. rewrite H8, H4, app_assoc. reflexivity.
Qed.

Lemma R_s_refl w : R_s w w.
Proof. split; [apply frame_refl|auto]. Qed.

Lemma R_s_trans a b c : R_s a b -> R_s b c -> R_s a c.
Proof. intros (F1 & S1 & N1) (F2 & S2 & N2). split; [eapply frame_trans; eauto|split; congruence]. Qed.

Lemma R_st_refl w : R_st w w.
Proof. split; [apply frame_refl|split; [apply same_but_state_refl|auto]]. Qed.

Lemma R_st_trans a b c : R_st a b -> R_st b c -> R_st a c.
Proof.
  intros (F1 & S1 & N1) (F2 & S2 & N2).
  split; [eapply frame_trans; eauto|split; [eapply same_but_state_trans; eauto|congruence]].
Qed.

Lemma R_s_st w w' : R_s w w' -> R_st w w'.
Proof.
  intros (F & S & N). split; [exact F|split; [rewrite S; apply same_but_state_refl|exact N]].
Qed.

Lemma R_s_same_trace w w' :
  mqtt w' = mqtt w -> clock w' = clock w -> datetime w' = datetime w ->
  trace w' = trace w -> sensors w' = sensors w ->
  next_update_times w' = next_update_times w -> R_s w w'.
Proof. intros H1 H2 H3 H4 H5 H6. repeat split; auto. exists []. exact H4. Qed.

(* --------------------------------------------------------------------- *)
(** *** Operations that keep a relation and never reset the device *)

Section Tame.
Variable R : world -> world -> Prop.
Hypothesis R_refl : forall w, R w w.
Hypothesis R_trans : forall a b c, R a b -> R b c -> R a c.

Definition tame {A} (c : M A) : Prop :=
  forall w, R w (snd (c w)) /\ fst (c w) <> Halted.

Lemma tame_ret {A} (a : A) : tame (ret a).
Proof using R_refl R_trans. intros w. split; [apply R_refl|discriminate]. Qed.

Lemma tame_raise {A} e : tame (@raise A e).
Proof using R_refl R_trans. intros w. split; [apply R_refl|discriminate]. Qed.

Lemma tame_bind {A B} (c : M A) (k : A -> M B) :
  tame c -> (forall a, tame (k a)) -> tame (bind c k).
Proof using R_refl R_trans.
  intros Hc Hk w. unfold bind. destruct (Hc w) as [R1 H1].
  destruct (c w) as [[a|e|] w1]; simpl in *.
  - destruct (Hk a w1) as [R2 H2]. split; [eapply R_trans; eauto|exact H2].
  - split; [exact R1|discriminate].
  - contradiction.
Qed.

Lemma tame_try {A} (c : M A) (h : exn -> M A) :
  tame c -> (forall e, tame (h e)) -> tame (try_except c h).
Proof using R_refl R_trans.
  intros Hc Hh w. unfold try_except. destruct (Hc w) as [R1 H1].
  destruct (c w) as [[a|e|] w1]; simpl in *.
  - split; [exact R1|discriminate].
  - destruct (Hh e w1) as [R2 H2]. split; [eapply R_trans; eauto|exact H2].
  - contradiction.
Qed.

Lemma tame_for_each {A} (l : list A) (f : A -> M unit) :
  (forall x, In x l -> tame (f x)) -> tame (for_each l f).
Proof using R_refl R_trans.
  induction l as [|x l IH]; intros Hf; simpl.
  - apply tame_ret.
  - apply tame_bind; [apply Hf; left; reflexivity|intros _; apply IH; intros y Hy; apply Hf; right; exact Hy].
Qed.

End Tame.

Ltac tame_auto_with R Rr Rt leaf :=
  repeat first
    [ leaf
    | apply (tame_bind R Rr Rt); [|intro]
    | apply (tame_try R Rr Rt); [|intro]
    | apply (tame_ret R Rr Rt)
    | apply (tame_raise R Rr Rt)
    | match goal with |- tame _ (if ?b then _ else _) => destruct b end
    | match goal with |- tame _ (match ?x with _ => _ end) => destruct x end ].

(** Primitives that read the world or only extend the log and the trace. *)
Lemma tame_log lv msg : tame R_s (log lv msg).
Proof. intros w. split; [|discriminate]. repeat split; auto. exists []. reflexivity. Qed.

Lemma tame_emit ev : tame R_s (emit ev).
Proof. intros w. split; [|discriminate]. repeat split; auto. exists [ev]. reflexivity. Qed.

Lemma tame_reader {A} (c : M A) :
  (forall w, snd (c w) = w /\ fst (c w) <> Halted) -> tame R_s c.
Proof. intros H w. destruct (H w) as [-> H2]. split; [apply R_s_refl|exact H2]. Qed.

Lemma tame_get_sensor sid : tame R_s (get_sensor sid).
Proof. apply tame_reader. intros w. unfold get_sensor. destruct (assoc_get _ _); split; simpl; auto; discriminate. Qed.

Lemma tame_get_next sid : tame R_s (get_next sid).
Proof. apply tame_reader. intros w. unfold get_next. destruct (assoc_get _ _); split; simpl; auto; discriminate. Qed.

Lemma tame_get_mqtt : tame R_s get_mqtt.
Proof. apply tame_reader. intros w. unfold get_mqtt. destruct (mqtt w); split; simpl; auto; discriminate. Qed.

Lemma tame_mqtt_attached : tame R_s mqtt_attached.
Proof. apply tame_reader. intros w. split; [reflexivity|discriminate]. Qed.

Lemma tame_get_world : tame R_s get_world.
Proof. apply tame_reader. intros w. split; [reflexivity|discriminate]. Qed.

Lemma tame_datetime : tame R_s get_formatted_datetime.
Proof. apply tame_reader. intros w. split; [reflexivity|discriminate]. Qed.

Lemma tame_time : tame R_s time_time.
Proof. apply tame_reader. intros w. split; [reflexivity|discriminate]. Qed.

Ltac tame_auto R Rr Rt := tame_auto_with R Rr Rt fail.

Create HintDb tame_s.
#[local] Hint Resolve tame_log tame_emit tame_get_sensor tame_get_next tame_get_mqtt
  tame_mqtt_attached tame_get_world tame_datetime tame_time : tame_s.

Ltac tame_s := tame_auto R_s R_s_refl R_s_trans; auto with tame_s.

Lemma tame_mqtt_publish t p : tame R_s (mqtt_publish t p).
Proof. unfold mqtt_publish. tame_s. Qed.
#[local] Hint Resolve tame_mqtt_publish : tame_s.

Lemma tame_can_publish sid d : tame R_s (can_publish sid d).
Proof. unfold can_publish. tame_s. Qed.
#[local] Hint Resolve tame_can_publish : tame_s.

Lemma tame_publish_on sid key d m : tame R_s (publish_on sid key d m).
Proof. unfold publish_on. tame_s. Qed.
#[local] Hint Resolve tame_publish_on : tame_s.

Lemma tame_publish_error sid d : tame R_s (publish_error sid d).
Proof. apply tame_publish_on. Qed.
Lemma tame_publish_data sid d : tame R_s (publish_data sid d).
Proof. apply tame_publish_on. Qed.
#[local] Hint Resolve tame_publish_error tame_publish_data : tame_s.

Lemma tame_publish_state sid : tame R_s (publish_state sid).
Proof. unfold publish_state. tame_s. Qed.
#[local] Hint Resolve tame_publish_state : tame_s.

Lemma tame_read_values sid : tame R_s (read_values sid).
Proof. unfold read_values. tame_s. Qed.
#[local] Hint Resolve tame_read_values : tame_s.

Lemma tame_poll sid : tame R_s (poll sid).
Proof. unfold poll, publish_data. tame_s. Qed.

Lemma tame_s_st {A} (c : M A) : tame R_s c -> tame R_st c.
Proof. intros H w. destruct (H w) as [H1 H2]. split; [apply R_s_st; exact H1|exact H2]. Qed.

Lemma tame_sensor_error sid : tame R_st (sensor_error sid).
Proof.
  intros w. unfold sensor_error, bind, get_sensor, put_sensor.
  destruct (assoc_get (sensors w) sid) as [s|] eqn:Hs; cbn [fst snd].
  - set (w1 := mkWorld _ _ _ _ _ _ _ _).
    destruct (tame_publish_state sid w1) as [H1 H2].
    destruct (publish_state sid w1) as [o w2]; cbn [fst snd] in *.
    split; [|exact H2].
    eapply R_st_trans; [|apply R_s_st; exact H1].
    split; [|split; [apply same_but_state_set; exact Hs|reflexivity]].
    repeat split. exists []. reflexivity.
  - split; [apply R_st_refl|discriminate].
Qed.

Ltac tame_st :=
  tame_auto_with R_st R_st_refl R_st_trans ltac:(apply tame_sensor_error);
  apply tame_s_st; auto with tame_s.

Lemma tame_error_handler sid msg : tame R_st (error_handler sid msg).
Proof. unfold error_handler. tame_st. Qed.

(** [SensorManager._error_handler] always returns normally. *)
Lemma error_handler_ok sid msg w : fst (error_handler sid msg w) = Ok tt.
Proof.
  unfold error_handler.
  set (body := let* ts := get_formatted_datetime in _).
  assert (Hb : tame R_st body) by (unfold body; tame_st).
  unfold bind at 1, log at 1. cbn [fst snd].
  set (w1 := mkWorld _ _ _ _ _ _ _ _).
  unfold try_except. destruct (Hb w1) as [_ H2].
  destruct (body w1) as [[[]|e|] w2]; cbn [fst snd] in *; [reflexivity|reflexivity|contradiction].
Qed.

Lemma interval_z_with_state s st : interval_z (with_state s st) = interval_z s.
Proof. reflexivity. Qed.

Lemma py_add_time_interval t s z :
  interval_z s = Some z -> py_add_time t (report_interval s) = ret (t + z)%Z.
Proof.
  unfold interval_z. destruct (report_interval s); intros H; try discriminate;
    inversion H; reflexivity.
Qed.

(** The [try]/[except] of one sensor's update always completes normally. *)
Lemma guarded_poll_ok sid (w : world) :
  let c := try_except (poll sid)
             (fun e => log LError "Error during sensor update" ;;
                       error_handler sid ("Error during sensor update: " ++ exn_str e)) in
  fst (c w) = Ok tt /\ R_st w (snd (c w)).
Proof.
  cbn zeta. unfold try_except.
  destruct (tame_poll sid w) as [H1 H2].
  destruct (poll sid w) as [[[]|e|] w1] eqn:Hp; cbn [fst snd] in *.
  - split; [reflexivity|apply R_s_st; exact H1].
  - assert (Ht : tame R_st (log LError "Error during sensor update" ;;
             error_handler sid ("Error during sensor update: " ++ exn_str e))).
    { apply (tame_bind R_st R_st_refl R_st_trans);
        [apply tame_s_st, tame_log|intros _; apply tame_error_handler]. }
    split.
    + unfold bind at 1, log at 1. cbn -[error_handler]. apply error_handler_ok.
    + eapply R_st_trans; [apply R_s_st; exact H1|exact (proj1 (Ht w1))].
  - contradiction.
Qed.

(** One iteration of the scheduler loop: it completes normally, and the
    timer of the sensor is set to [now + interval] when it was due. *)
Lemma update_sensor_run now sid w s nt z :
  assoc_get (sensors w) sid = Some s ->
  assoc_get (next_update_times w) sid = Some nt ->
  interval_z s = Some z ->
  fst (update_sensor now sid w) = Ok tt /\
  frame w (snd (update_sensor now sid w)) /\
  same_but_state (sensors w) (sensors (snd (update_sensor now sid w))) /\
  next_update_times (snd (update_sensor now sid w)) =
    (if (nt <=? now)%Z then assoc_set (next_update_times w) sid (now + z)%Z
     else next_update_times w).
Proof.
  intros Hs Hn Hz.
  enough (H : exists w', update_sensor now sid w = (Ok tt, w') /\ frame w w' /\
            same_but_state (sensors w) (sensors w') /\
            next_update_times w' = (if (nt <=? now)%Z
                                    then assoc_set (next_update_times w) sid (now + z)%Z
                                    else next_update_times w)).
  { destruct H as (w' & E & H). rewrite E. exact (conj eq_refl H). }
  unfold update_sensor.
  unfold bind at 1, get_sensor at 1. rewrite Hs.
  unfold bind at 1, get_next at 1. rewrite Hn.
  destruct (nt <=? now)%Z.
  - rewrite (py_add_time_interval now s z Hz).
    destruct (guarded_poll_ok sid w) as [Hok Hr].
    unfold bind at 1.
    destruct (try_except (poll sid) _ w) as [o w1]; cbn [fst snd] in *. subst o.
    destruct Hr as ((F1 & F2 & F3 & l & F4) & S & N).
    eexists. split; [reflexivity|]. cbn.
    split; [split; [|split; [|split; [|exists l]]]; auto|].
    split; [exact S|]. rewrite N. reflexivity.
  - eexists. split; [reflexivity|]. split; [apply frame_refl|].
    split; [apply same_but_state_refl|reflexivity].
Qed.



(* --------------------------------------------------------------------- *)
(** *** Running operations on a given world *)

Lemma bind_ok {A B} (c : M A) (k : A -> M B) w a w1 :
  c w = (Ok a, w1) -> bind c k w = k a w1.
Proof. intros E. unfold bind. rewrite E. reflexivity. Qed.

Lemma bind_raise {A B} (c : M A) (k : A -> M B) w e w1 :
  c w = (Raise e, w1) -> bind c k w = (Raise e, w1).
Proof. intros E. unfold bind. rewrite E. reflexivity. Qed.

Lemma try_ok {A} (c : M A) h w a w1 :
  c w = (Ok a, w1) -> try_except c h w = (Ok a, w1).
Proof. intros E. unfold try_except. rewrite E. reflexivity. Qed.

Lemma try_raise {A} (c : M A) h w e w1 :
  c w = (Raise e, w1) -> try_except c h w = h e w1.
Proof. intros E. unfold try_except. rewrite E. reflexivity. Qed.

(** An event that carries nothing but a state payload, if any payload. *)
Definition state_event (ev : event) : Prop :=
  match ev with
  | Publish _ p | Sent _ p => exists st, p = state_payload st
  | _ => True
  end.

(** An operation that changes no sensor and no timer and only adds
    events of [state_event]. *)
Definition R_so (w w' : world) : Prop :=
  R_s w w' /\ exists l, trace w' = (l ++ trace w)%list /\ Forall state_event l.

Lemma R_so_refl w : R_so w w.
Proof. split; [apply R_s_refl|exists []; split; [reflexivity|constructor]]. Qed.

Lemma R_so_trans a b c : R_so a b -> R_so b c -> R_so a c.
Proof.
  intros [H1 (l1 & E1 & F1)] [H2 (l2 & E2 & F2)]. split; [eapply R_s_trans; eauto|].
  exists (l2 ++ l1)%list. split; [rewrite E2, E1, app_assoc; reflexivity|apply Forall_app; auto].
Qed.

Lemma so_reader {A} (c : M A) :
  (forall w, snd (c w) = w /\ fst (c w) <> Halted) -> tame R_so c.
Proof. intros H w. destruct (H w) as [-> H2]. split; [apply R_so_refl|exact H2]. Qed.

Lemma so_log lv msg : tame R_so (log lv msg).
Proof.
  intros w. split; [|discriminate]. split; [apply tame_log|].
  exists []. split; [reflexivity|constructor].
Qed.

Lemma so_emit ev : state_event ev -> tame R_so (emit ev).
Proof.
  intros Hev w. split; [|discriminate]. split; [apply tame_emit|].
  exists [ev]. split; [reflexivity|repeat constructor; exact Hev].
Qed.

Lemma so_get_sensor sid : tame R_so (get_sensor sid).
Proof. apply so_reader. intros w. unfold get_sensor. destruct (assoc_get _ _); split; simpl; auto; discriminate. Qed.

Lemma so_get_mqtt : tame R_so get_mqtt.
Proof. apply so_reader. intros w. unfold get_mqtt. destruct (mqtt w); split; simpl; auto; discriminate. Qed.

Lemma so_mqtt_attached : tame R_so mqtt_attached.
Proof. apply so_reader. intros w. split; [reflexivity|discriminate]. Qed.

Lemma so_emit_read sid : tame R_so (emit (ReadValues sid)).
Proof. apply so_emit. exact I. Qed.

Lemma so_emit_publish t st : tame R_so (emit (Publish t (state_payload st))).
Proof. apply so_emit. exists st. reflexivity. Qed.

Lemma so_emit_sent t st : tame R_so (emit (Sent t (state_payload st))).
Proof. apply so_emit. exists st. reflexivity. Qed.

Create HintDb tame_so.
#[local] Hint Resolve so_log so_get_sensor so_get_mqtt so_mqtt_attached so_emit_read
  so_emit_publish so_emit_sent : tame_so.

Ltac tame_so := tame_auto R_so R_so_refl R_so_trans; auto with tame_so.

Lemma so_mqtt_publish_state t st : tame R_so (mqtt_publish t (state_payload st)).
Proof. unfold mqtt_publish. tame_so. Qed.
#[local] Hint Resolve so_mqtt_publish_state : tame_so.

(** [publish_state] and [read_values] publish nothing but a state. *)
Lemma so_publish_state sid : tame R_so (publish_state sid).
Proof. unfold publish_state. tame_so. Qed.

Lemma so_read_values sid : tame R_so (read_values sid).
Proof. unfold read_values. tame_so. Qed.

Ltac splits := repeat match goal with |- _ /\ _ => split end.

Ltac find_prefix :=
  first [ exists []; reflexivity
        | eexists (_ :: []); reflexivity
        | eexists (_ :: _ :: []); reflexivity
        | eexists (_ :: _ :: _ :: []); reflexivity ].

(** [MQTTManager.publish] with a manager attached: the call is recorded,
    the client is reached only when connected, and it raises only when
    the client does. *)
Lemma mqtt_publish_run t p w m :
  mqtt w = Some m ->
  R_s w (snd (mqtt_publish t p w)) /\
  (exists l, trace (snd (mqtt_publish t p w)) = (l ++ trace w)%list /\
     In (Publish t p) l /\ Forall (fun ev => ev = Publish t p \/ ev = Sent t p) l) /\
  fst (mqtt_publish t p w) =
    (if connected m && client_fails m t then Raise OSError else Ok tt).
Proof.
  intros Hm. unfold mqtt_publish, bind, get_mqtt, emit, log, try_except, raise. rewrite Hm.
  destruct (connected m), (client_fails m t); cbn;
    (split; [repeat split; try reflexivity; find_prefix|]);
    (split; [|reflexivity]);
    first [ eexists (_ :: []); split; [reflexivity|]
          | eexists (_ :: _ :: []); split; [reflexivity|] ];
    (split; [cbn; tauto|repeat constructor; tauto]).
Qed.

Lemma can_publish_run sid s data w :
  assoc_get (sensors w) sid = Some s ->
  exists w', can_publish sid data w = (Ok (dict_truthy data && state_eqb (s_state s) ACTIVE), w') /\
             R_s w w' /\ trace w' = trace w.
Proof.
  intros Hs. unfold can_publish, bind, get_sensor. rewrite Hs. cbn.
  destruct (dict_truthy data), (state_eqb (s_state s) ACTIVE); cbn;
    (eexists; split; [reflexivity|split; [repeat split; try reflexivity; exists []; reflexivity|reflexivity]]).
Qed.

(** [publish_data] and [publish_error] when the sensor exists: the payload
    goes to [MQTTManager.publish] exactly when there is something to
    publish, the sensor is [ACTIVE], the topic is configured and a manager
    is attached; otherwise nothing but a log line. *)
Lemma publish_on_run sid s key data missing w :
  assoc_get (sensors w) sid = Some s ->
  R_s w (snd (publish_on sid key data missing w)) /\
  match dict_truthy data && state_eqb (s_state s) ACTIVE, topic_of s key, mqtt w with
  | true, Some t, Some m =>
      (exists l, trace (snd (publish_on sid key data missing w)) = (l ++ trace w)%list /\
         In (Publish t data) l /\ Forall (fun ev => ev = Publish t data \/ ev = Sent t data) l) /\
      fst (publish_on sid key data missing w) =
        (if connected m && client_fails m t then Raise OSError else Ok tt)
  | _, _, _ => trace (snd (publish_on sid key data missing w)) = trace w /\
               fst (publish_on sid key data missing w) = Ok tt
  end.
Proof.
  intros Hs. destruct (can_publish_run sid s data w Hs) as (w1 & E1 & R1 & T1).
  destruct (publish_on sid key data missing w) as [o w'] eqn:E. cbn [fst snd].
  unfold publish_on in E. rewrite (bind_ok _ _ _ _ _ E1) in E.
  destruct (dict_truthy data && state_eqb (s_state s) ACTIVE) eqn:Hb; cbn [negb] in E.
  - destruct R1 as ((M1 & C1 & D1 & _) & S1 & N1).
    assert (Hs1 : get_sensor sid w1 = (Ok s, w1)) by (unfold get_sensor; rewrite S1, Hs; reflexivity).
    rewrite (bind_ok _ _ _ _ _ Hs1) in E.
    unfold bind at 1, mqtt_attached at 1 in E. rewrite M1 in E.
    destruct (topic_of s key) as [t|], (mqtt w) as [m|] eqn:Hm.
    + unfold bind at 1, log at 1 in E.
      set (w2 := mkWorld _ _ _ _ _ _ _ _) in E.
      assert (Hm2 : mqtt w2 = Some m) by (cbn; congruence).
      destruct (mqtt_publish_run t data w2 m Hm2) as (R2 & (l & T2 & I2 & F2) & O2).
      rewrite E in R2, T2, O2. cbn [fst snd] in R2, T2, O2.
      split.
      * eapply R_s_trans; [|exact R2].
        split; [|split; [exact S1|exact N1]].
        repeat split; cbn; try congruence. exists []. cbn. congruence.
      * split; [|exact O2]. exists l. rewrite T2. cbn. rewrite T1. auto.
    + cbn in E. inversion E; subst. cbn.
      split; [apply R_s_same_trace; cbn; congruence|auto].
    + cbn in E. inversion E; subst. cbn.
      split; [apply R_s_same_trace; cbn; congruence|auto].
    + cbn in E. inversion E; subst. cbn.
      split; [apply R_s_same_trace; cbn; congruence|auto].
  - cbn in E. inversion E; subst. destruct (topic_of s key), (mqtt w); (split; [exact R1|auto]).
Qed.

Lemma try_same {A} (c c' : M A) h w w' :
  c w = c' w' -> try_except c h w = try_except c' h w'.
Proof. intros E. unfold try_except. rewrite E. reflexivity. Qed.

(** [BaseSensor.error()]: the state becomes [ERROR] and it is published. *)
Lemma sensor_error_run sid s w :
  assoc_get (sensors w) sid = Some s ->
  fst (sensor_error sid w) <> Halted /\ frame w (snd (sensor_error sid w)) /\
  next_update_times (snd (sensor_error sid w)) = next_update_times w /\
  sensors (snd (sensor_error sid w)) = assoc_set (sensors w) sid (with_state s ERROR) /\
  exists l, trace (snd (sensor_error sid w)) = (l ++ trace w)%list /\ Forall state_event l.
Proof.
  intros Hs. destruct (sensor_error sid w) as [o w'] eqn:E. cbn [fst snd].
  unfold sensor_error in E.
  assert (Hg : get_sensor sid w = (Ok s, w)) by (unfold get_sensor; rewrite Hs; reflexivity).
  rewrite (bind_ok _ _ _ _ _ Hg) in E.
  unfold bind at 1, put_sensor at 1 in E.
  set (w1 := mkWorld _ _ _ _ _ _ _ _) in E.
  destruct (so_publish_state sid w1) as [[(F1 & S1 & N1) (l & T1 & P1)] H1].
  rewrite E in F1, S1, N1, T1, H1. cbn [fst snd] in *.
  split; [exact H1|]. split; [|split; [exact N1|split; [exact S1|exists l; split; [exact T1|exact P1]]]].
  destruct F1 as (M1 & C1 & D1 & l' & T'). repeat split; auto. exists l'. exact T'.
Qed.

(** The end of the [try] block of [_error_handler], from [sensor.error()]. *)
Lemma error_tail_run sid s w :
  assoc_get (sensors w) sid = Some s ->
  let r := try_except (sensor_error sid ;; log LInfo "Error data published")
             (fun _ => log LError "Error cannot be published, so disabling sensor.") w in
  fst r = Ok tt /\ frame w (snd r) /\ next_update_times (snd r) = next_update_times w /\
  sensors (snd r) = assoc_set (sensors w) sid (with_state s ERROR) /\
  exists l, trace (snd r) = (l ++ trace w)%list /\ Forall state_event l.
Proof.
  intros Hs. cbn zeta.
  destruct (sensor_error_run sid s w Hs) as (H1 & (M1 & C1 & D1 & _) & N1 & S1 & l & T1 & P1).
  destruct (sensor_error sid w) as [[[]|e|] w1] eqn:E; cbn [fst snd] in *; [|clear H1|contradiction].
  - rewrite (try_same _ (log LInfo "Error data published") _ w w1) by (exact (bind_ok _ _ _ _ _ E)).
    unfold frame. cbn. splits; auto; exists l; splits; auto.
  - rewrite (try_raise _ _ w e w1) by (exact (bind_raise _ _ _ _ _ E)).
    unfold frame. cbn. splits; auto; exists l; splits; auto.
Qed.

(** The payload [_error_handler] publishes. *)
Definition err_payload (ts msg : string) : dict :=
  [("timestamp", VStr ts); ("error", VStr msg)].

(** [SensorManager._error_handler(sid, sensor, msg)]: it returns
    normally; the payload goes to [MQTTManager.publish] on the errors
    topic exactly when the sensor was [ACTIVE], the topic is configured
    and a manager is attached, and the sensor ends in [ERROR] unless the
    client raised on that publish; otherwise only states are published. *)
Lemma error_handler_run sid s msg w :
  assoc_get (sensors w) sid = Some s ->
  fst (error_handler sid msg w) = Ok tt /\
  frame w (snd (error_handler sid msg w)) /\
  next_update_times (snd (error_handler sid msg w)) = next_update_times w /\
  match state_eqb (s_state s) ACTIVE, topic_of s "errors", mqtt w with
  | true, Some t, Some m =>
      (exists l, trace (snd (error_handler sid msg w)) = (l ++ trace w)%list /\
         In (Publish t (err_payload (datetime w) msg)) l) /\
      sensors (snd (error_handler sid msg w)) =
        (if connected m && client_fails m t then sensors w
         else assoc_set (sensors w) sid (with_state s ERROR))
  | _, _, _ =>
      (exists l, trace (snd (error_handler sid msg w)) = (l ++ trace w)%list /\
         Forall state_event l) /\
      sensors (snd (error_handler sid msg w)) = assoc_set (sensors w) sid (with_state s ERROR)
  end.
Proof.
  intros Hs. destruct (error_handler sid msg w) as [o w'] eqn:E. cbn [fst snd].
  unfold error_handler in E. unfold bind at 1, log at 1 in E. cbv beta iota in E.
  set (w1 := mkWorld _ _ _ _ _ _ _ _) in E.
  assert (Hs1 : assoc_get (sensors w1) sid = Some s) by exact Hs.
  assert (Hd : get_formatted_datetime w1 = (Ok (datetime w), w1)) by reflexivity.
  assert (W1 : mqtt w1 = mqtt w /\ clock w1 = clock w /\ datetime w1 = datetime w /\
               trace w1 = trace w /\ sensors w1 = sensors w /\
               next_update_times w1 = next_update_times w) by (splits; reflexivity).
  clearbody w1. destruct W1 as (WM & WC & WD & WT & WS & WN).
  destruct (publish_on sid "errors" (err_payload (datetime w) msg) "No error topic found." w1)
    as [o1 w2] eqn:E1.
  pose proof (publish_on_run sid s "errors" (err_payload (datetime w) msg)
                "No error topic found." w1 Hs1) as HP.
  rewrite E1 in HP. cbn [fst snd] in HP. destruct HP as [((M2 & C2 & D2 & l2 & T2) & S2 & N2) HP].
  unfold try_except in E. rewrite (bind_ok _ _ _ _ _ Hd) in E. cbv beta in E.
  unfold publish_error in E.
  assert (Hs2 : assoc_get (sensors w2) sid = Some s) by (rewrite S2; exact Hs1).
  rewrite WM in HP. cbn [dict_truthy err_payload andb] in HP.
  destruct (state_eqb (s_state s) ACTIVE) eqn:Ha, (topic_of s "errors") as [t|] eqn:Ht,
    (mqtt w) as [m|] eqn:Hm;
    try (destruct HP as [T2' ->];
         rewrite (bind_ok _ _ _ _ _ E1) in E;
         change (try_except (sensor_error sid ;; log LInfo "Error data published")
                   (fun _ => log LError "Error cannot be published, so disabling sensor.") w2
                 = (o, w')) in E;
         destruct (error_tail_run sid s w2 Hs2) as (O3 & (M3 & C3 & D3 & l3 & T3) & N3 & S3 & l & T4 & P4);
         rewrite E in O3, M3, C3, D3, T3, N3, S3, T4; cbn [fst snd] in *;
         (split; [exact O3|]); (split; [unfold frame; cbn; splits; try congruence; exists l;
                                      rewrite T4, T2', WT; reflexivity|]);
         (split; [congruence|]);
         (split; [exists l; split; [rewrite T4, T2', WT; reflexivity|exact P4]|rewrite S3, S2, WS; reflexivity])).
  destruct HP as [(l & T5 & I5 & _) O5]. subst o1.
  destruct (connected m && client_fails m t).
  - rewrite (bind_raise _ _ _ _ _ E1) in E. cbn in E. inversion E; subst; clear E. cbn.
    split; [reflexivity|]. split; [unfold frame; cbn; splits; try congruence; exists l; rewrite T5, WT; reflexivity|].
    split; [congruence|]. split; [exists l; split; [rewrite T5, WT; reflexivity|exact I5]|rewrite S2; exact WS].
  - rewrite (bind_ok _ _ _ _ _ E1) in E.
    change (try_except (sensor_error sid ;; log LInfo "Error data published")
              (fun _ => log LError "Error cannot be published, so disabling sensor.") w2
            = (o, w')) in E.
    destruct (error_tail_run sid s w2 Hs2) as (O3 & (M3 & C3 & D3 & l3 & T3) & N3 & S3 & l' & T4 & P4).
    rewrite E in O3, M3, C3, D3, T3, N3, S3, T4; cbn [fst snd] in *.
    split; [exact O3|]. split; [unfold frame; cbn; splits; try congruence; exists (l' ++ l)%list;
                                rewrite T4, T5, WT, app_assoc; reflexivity|].
    split; [congruence|]. split; [exists (l' ++ l)%list; split;
      [rewrite T4, T5, WT, app_assoc; reflexivity|apply in_or_app; right; exact I5]|rewrite S3, S2, WS; reflexivity].
Qed.

Lemma R_so_same_trace w w' : R_s w w' -> trace w' = trace w -> R_so w w'.
Proof. intros H T. split; [exact H|]. exists []. split; [exact T|constructor]. Qed.

(** The [try] block of [update_sensors] on a sensor that is not [ACTIVE]:
    it publishes nothing but states. *)
Lemma poll_inactive sid s w :
  assoc_get (sensors w) sid = Some s -> state_eqb (s_state s) ACTIVE = false ->
  R_so w (snd (poll sid w)) /\ fst (poll sid w) <> Halted.
Proof.
  intros Hs Ha. destruct (poll sid w) as [o w'] eqn:E. cbn [fst snd]. unfold poll in E.
  pose proof (so_publish_state sid w) as [R1 H1].
  destruct (publish_state sid w) as [[[]|e|] w1] eqn:E1; cbn [fst snd] in R1, H1.
  - rewrite (bind_ok _ _ _ _ _ E1) in E.
    assert (Hs1 : assoc_get (sensors w1) sid = Some s) by (destruct R1 as [(_ & S1 & _) _]; rewrite S1; exact Hs).
    pose proof (so_read_values sid w1) as [R2 H2].
    destruct (read_values sid w1) as [[d|e|] w2] eqn:E2; cbn [fst snd] in R2, H2.
    + rewrite (bind_ok _ _ _ _ _ E2) in E.
      assert (Hs2 : assoc_get (sensors w2) sid = Some s) by (destruct R2 as [(_ & S2 & _) _]; rewrite S2; exact Hs1).
      destruct (dict_truthy d) eqn:Hd.
      * unfold publish_data in E.
        pose proof (publish_on_run sid s "data" d "No data topic found." w2 Hs2) as [R3 H3].
        rewrite E in R3, H3. cbn [fst snd] in R3, H3. rewrite Hd, Ha in H3. cbn [andb] in H3.
        assert (H3' : trace w' = trace w2 /\ o = Ok tt)
          by (destruct (topic_of s "data"), (mqtt w2); exact H3).
        destruct H3' as [T3 ->].
        split; [|discriminate]. eapply R_so_trans; [exact R1|]. eapply R_so_trans; [exact R2|].
        apply R_so_same_trace; assumption.
      * cbn in E. inversion E; subst. split; [eapply R_so_trans; eauto|discriminate].
    + rewrite (bind_raise _ _ _ _ _ E2) in E. inversion E; subst.
      split; [eapply R_so_trans; eauto|discriminate].
    + contradiction.
  - rewrite (bind_raise _ _ _ _ _ E1) in E. inversion E; subst. split; [exact R1|discriminate].
  - contradiction.
Qed.

(** The [try] block of [update_sensors] when the driver's [read_values]
    raises: it raises, having published nothing but states. *)
Lemma poll_read_fails sid s w :
  assoc_get (sensors w) sid = Some s -> read_result s = None ->
  R_so w (snd (poll sid w)) /\ exists e, fst (poll sid w) = Raise e.
Proof.
  intros Hs Hr. destruct (poll sid w) as [o w'] eqn:E. cbn [fst snd]. unfold poll in E.
  pose proof (so_publish_state sid w) as [R1 H1].
  destruct (publish_state sid w) as [[[]|e|] w1] eqn:E1; cbn [fst snd] in R1, H1.
  - rewrite (bind_ok _ _ _ _ _ E1) in E.
    assert (Hs1 : assoc_get (sensors w1) sid = Some s) by (destruct R1 as [(_ & S1 & _) _]; rewrite S1; exact Hs).
    assert (E2 : read_values sid w1 = (Raise DriverError,
               mkWorld (sensors w1) (next_update_times w1) (mqtt w1) (ReadValues sid :: trace w1)
                       (logs w1) (clock w1) (datetime w1) (config_writable w1))).
    { unfold read_values, bind at 1, get_sensor. rewrite Hs1. cbn. rewrite Hr. reflexivity. }
    rewrite (bind_raise _ _ _ _ _ E2) in E. inversion E; subst.
    split; [|exists DriverError; reflexivity].
    eapply R_so_trans; [exact R1|]. pose proof (so_emit_read sid w1) as [R2 _]. exact R2.
  - rewrite (bind_raise _ _ _ _ _ E1) in E. inversion E; subst.
    split; [exact R1|exists e; reflexivity].
  - contradiction.
Qed.

(** The [try]/[except] around one sensor's update in [update_sensors]. *)
Definition guarded_poll (sid : string) : M unit :=
  try_except (poll sid)
    (fun e => log LError "Error during sensor update" ;;
              error_handler sid ("Error during sensor update: " ++ exn_str e)).

Lemma update_sensor_due now sid s nt z w :
  assoc_get (sensors w) sid = Some s ->
  assoc_get (next_update_times w) sid = Some nt ->
  (nt <=? now)%Z = true -> interval_z s = Some z ->
  update_sensor now sid w = set_next sid (now + z)%Z (snd (guarded_poll sid w)).
Proof.
  intros Hs Hn Hd Hz. unfold update_sensor.
  assert (Hg : get_sensor sid w = (Ok s, w)) by (unfold get_sensor; rewrite Hs; reflexivity).
  assert (Hg' : get_next sid w = (Ok nt, w)) by (unfold get_next; rewrite Hn; reflexivity).
  rewrite (bind_ok _ _ _ _ _ Hg), (bind_ok _ _ _ _ _ Hg'), Hd.
  rewrite (py_add_time_interval now s z Hz).
  destruct (guarded_poll_ok sid w) as [Hok _]. fold (guarded_poll sid) in Hok.
  destruct (guarded_poll sid w) as [o w1] eqn:E. cbn [fst snd] in *. subst o.
  fold (guarded_poll sid). rewrite (bind_ok _ _ _ _ _ E). reflexivity.
Qed.

(** The guarded update of [sid] changes no other sensor. *)
Lemma guarded_poll_sensors sid s w :
  assoc_get (sensors w) sid = Some s ->
  sensors (snd (guarded_poll sid w)) = sensors w \/
  exists s', sensors (snd (guarded_poll sid w)) = assoc_set (sensors w) sid s'.
Proof.
  intros Hs. destruct (guarded_poll sid w) as [o w'] eqn:E. cbn [snd]. unfold guarded_poll in E.
  pose proof (tame_poll sid w) as [((_ & _ & _ & _) & S1 & _) _].
  destruct (poll sid w) as [[[]|e|] w1] eqn:E1; cbn [fst snd] in S1.
  - rewrite (try_ok _ _ _ _ _ E1) in E. inversion E; subst. left. exact S1.
  - rewrite (try_raise _ _ _ _ _ E1) in E. unfold bind at 1, log at 1 in E. cbv beta iota in E.
    set (w2 := mkWorld _ _ _ _ _ _ _ _) in E.
    assert (Hs2 : assoc_get (sensors w2) sid = Some s) by (cbn; rewrite S1; exact Hs).
    destruct (error_handler_run sid s ("Error during sensor update: " ++ exn_str e) w2 Hs2)
      as (_ & _ & _ & H).
    rewrite E in H. cbn [snd] in H. change (sensors w2) with (sensors w1) in H. rewrite S1 in H.
    destruct (state_eqb (s_state s) ACTIVE), (topic_of s "errors"), (mqtt w2);
      try (destruct H as [_ ->]; right; eexists; reflexivity).
    destruct H as [_ ->]. destruct (_ && _); [left; reflexivity|right; eexists; reflexivity].
  - pose proof (tame_poll sid w) as [_ H]. rewrite E1 in H. contradiction.
Qed.

(** The guarded update of a sensor that is not [ACTIVE] publishes
    nothing but states. *)
Lemma guarded_poll_inactive sid s w :
  assoc_get (sensors w) sid = Some s -> state_eqb (s_state s) ACTIVE = false ->
  frame w (snd (guarded_poll sid w)) /\
  next_update_times (snd (guarded_poll sid w)) = next_update_times w /\
  exists l, trace (snd (guarded_poll sid w)) = (l ++ trace w)%list /\ Forall state_event l.
Proof.
  intros Hs Ha. destruct (guarded_poll sid w) as [o w'] eqn:E. cbn [snd]. unfold guarded_poll in E.
  pose proof (poll_inactive sid s w Hs Ha) as [[((M1 & C1 & D1 & _) & S1 & N1) (l1 & T1 & P1)] H1].
  destruct (poll sid w) as [[[]|e|] w1] eqn:E1; cbn [fst snd] in *.
  - rewrite (try_ok _ _ _ _ _ E1) in E. inversion E; subst.
    unfold frame. splits; auto; exists l1; splits; auto.
  - rewrite (try_raise _ _ _ _ _ E1) in E. unfold bind at 1, log at 1 in E. cbv beta iota in E.
    set (w2 := mkWorld _ _ _ _ _ _ _ _) in E.
    assert (Hs2 : assoc_get (sensors w2) sid = Some s) by (cbn; rewrite S1; exact Hs).
    destruct (error_handler_run sid s ("Error during sensor update: " ++ exn_str e) w2 Hs2)
      as (_ & (M3 & C3 & D3 & _) & N3 & H).
    rewrite E in M3, C3, D3, N3, H. cbn [snd] in *. rewrite Ha in H.
    assert (H' : exists l, trace w' = (l ++ trace w2)%list /\ Forall state_event l)
      by (destruct (topic_of s "errors"), (mqtt w2); apply H).
    destruct H' as (l & T3 & P3). cbn in M3, C3, D3, N3, T3.
    unfold frame. splits; try congruence.
    + exists (l ++ l1)%list. rewrite T3, T1, app_assoc. reflexivity.
    + exists (l ++ l1)%list. rewrite T3, T1, app_assoc. split; [reflexivity|apply Forall_app; auto].
  - contradiction.
Qed.

(** The guarded update of a sensor whose driver read fails: the error
    path of [_error_handler], seen from the world before the update. *)
Lemma guarded_poll_read_fails sid s w :
  assoc_get (sensors w) sid = Some s -> read_result s = None ->
  frame w (snd (guarded_poll sid w)) /\
  next_update_times (snd (guarded_poll sid w)) = next_update_times w /\
  exists e,
  match state_eqb (s_state s) ACTIVE, topic_of s "errors", mqtt w with
  | true, Some t, Some m =>
      (exists l, trace (snd (guarded_poll sid w)) = (l ++ trace w)%list /\
         In (Publish t (err_payload (datetime w) ("Error during sensor update: " ++ exn_str e))) l) /\
      sensors (snd (guarded_poll sid w)) =
        (if connected m && client_fails m t then sensors w
         else assoc_set (sensors w) sid (with_state s ERROR))
  | _, _, _ =>
      (exists l, trace (snd (guarded_poll sid w)) = (l ++ trace w)%list /\
         Forall state_event l) /\
      sensors (snd (guarded_poll sid w)) = assoc_set (sensors w) sid (with_state s ERROR)
  end.
Proof.
  intros Hs Hr. destruct (guarded_poll sid w) as [o w'] eqn:E. cbn [snd]. unfold guarded_poll in E.
  pose proof (poll_read_fails sid s w Hs Hr) as [[((M1 & C1 & D1 & _) & S1 & N1) (l1 & T1 & P1)] [e He]].
  destruct (poll sid w) as [o1 w1] eqn:E1; cbn [fst snd] in *. subst o1.
  rewrite (try_raise _ _ _ _ _ E1) in E. unfold bind at 1, log at 1 in E. cbv beta iota in E.
  set (w2 := mkWorld _ _ _ _ _ _ _ _) in E.
  assert (Hs2 : assoc_get (sensors w2) sid = Some s) by (cbn; rewrite S1; exact Hs).
  destruct (error_handler_run sid s ("Error during sensor update: " ++ exn_str e) w2 Hs2)
    as (_ & (M3 & C3 & D3 & l3 & T3) & N3 & H).
  rewrite E in M3, C3, D3, T3, N3, H. cbn [snd] in *.
  assert (W2 : mqtt w2 = mqtt w /\ clock w2 = clock w /\ datetime w2 = datetime w /\
               sensors w2 = sensors w /\ trace w2 = trace w1 /\
               next_update_times w2 = next_update_times w) by (cbn; splits; congruence).
  clearbody w2. destruct W2 as (WM & WC & WD & WS & WT & WN).
  rewrite WM, WD, WS, WT in H. rewrite WT in T3.
  split; [unfold frame; splits; try congruence; exists (l3 ++ l1)%list;
          rewrite T3, T1, app_assoc; reflexivity|].
  split; [congruence|]. exists e.
  destruct (state_eqb (s_state s) ACTIVE), (topic_of s "errors"), (mqtt w);
    destruct H as [(l & T4 & P4) S4]; (split; [|exact S4]); exists (l ++ l1)%list;
    rewrite T4, T1, app_assoc; (split; [reflexivity|]);
    first [apply in_or_app; left; exact P4 | apply Forall_app; split; assumption].
Qed.

(** One iteration of the loop changes no other sensor. *)
Lemma update_sensor_keeps_others now k s nt z w :
  assoc_get (sensors w) k = Some s ->
  assoc_get (next_update_times w) k = Some nt -> interval_z s = Some z ->
  forall sid, k <> sid ->
  assoc_get (sensors (snd (update_sensor now k w))) sid = assoc_get (sensors w) sid.
Proof.
  intros Hs Hn Hz sid Hne. destruct (nt <=? now)%Z eqn:Hd.
  - rewrite (update_sensor_due now k s nt z w Hs Hn Hd Hz). unfold set_next. cbn [snd sensors].
    destruct (guarded_poll_sensors k s w Hs) as [-> | [s' ->]]; [reflexivity|].
    apply assoc_get_set_neq. exact Hne.
  - unfold update_sensor.
    assert (Hg : get_sensor k w = (Ok s, w)) by (unfold get_sensor; rewrite Hs; reflexivity).
    assert (Hg' : get_next k w = (Ok nt, w)) by (unfold get_next; rewrite Hn; reflexivity).
    rewrite (bind_ok _ _ _ _ _ Hg), (bind_ok _ _ _ _ _ Hg'), Hd. reflexivity.
Qed.

(** Where each timer stands after a tick at [now]. *)
Definition sched_after (now : Z) (w : world) (k : string) : option Z :=
  match assoc_get (sensors w) k, assoc_get (next_update_times w) k with
  | Some s, Some nt =>
      if (nt <=? now)%Z
      then match interval_z s with Some z => Some (now + z)%Z | None => Some nt end
      else Some nt
  | _, o => o
  end.

(** The scheduler's well-formedness: distinct ids, every sensor has a
    timer, every [report_interval] is a number. *)
Definition wf (w : world) : Prop :=
  NoDup (map fst (sensors w)) /\
  forall k s, assoc_get (sensors w) k = Some s ->
    (exists nt, assoc_get (next_update_times w) k = Some nt) /\
    (exists z, interval_z s = Some z).

Lemma for_each_update now ids w :
  NoDup ids ->
  (forall k, In k ids -> exists s nt z, assoc_get (sensors w) k = Some s /\
       assoc_get (next_update_times w) k = Some nt /\ interval_z s = Some z) ->
  let w' := snd (for_each ids (update_sensor now) w) in
  fst (for_each ids (update_sensor now) w) = Ok tt /\
  frame w w' /\ same_but_state (sensors w) (sensors w') /\
  forall k, (In k ids -> assoc_get (next_update_times w') k = sched_after now w k) /\
            (~ In k ids -> assoc_get (next_update_times w') k = assoc_get (next_update_times w) k) /\
            (~ In k ids -> assoc_get (sensors w') k = assoc_get (sensors w) k).
Proof.
  revert w. induction ids as [|sid ids IH]; intros w Hnd Hpre; cbn zeta.
  - cbn. split; [reflexivity|]. split; [apply frame_refl|].
    split; [apply same_but_state_refl|]. intros k. split; [contradiction|auto].
  - inversion Hnd as [|? ? Hnin Hnd']; subst.
    destruct (Hpre sid (or_introl eq_refl)) as (s & nt & z & Hs & Hn & Hz).
    destruct (update_sensor_run now sid w s nt z Hs Hn Hz) as (Hok & Hf & Hsb & Hnx).
    remember (update_sensor now sid w) as r eqn:Hu. destruct r as [o w1].
    cbn [fst snd] in Hok, Hf, Hsb, Hnx. subst o.
    assert (Hko : forall k, k <> sid -> assoc_get (sensors w1) k = assoc_get (sensors w) k).
    { intros k Hk. replace w1 with (snd (update_sensor now sid w)) by (rewrite <- Hu; reflexivity).
      apply (update_sensor_keeps_others now sid s nt z w Hs Hn Hz). congruence. }
    assert (E : for_each (sid :: ids) (update_sensor now) w = for_each ids (update_sensor now) w1).
    { cbn [for_each]. unfold bind at 1. rewrite <- Hu. reflexivity. }
    rewrite E.
    assert (Hnext_other : forall k, k <> sid ->
              assoc_get (next_update_times w1) k = assoc_get (next_update_times w) k).
    { intros k Hk. rewrite Hnx. destruct (nt <=? now)%Z; auto.
      apply assoc_get_set_neq. auto. }
    assert (Hsens : forall k s1, assoc_get (sensors w) k = Some s1 ->
              exists s2, assoc_get (sensors w1) k = Some s2 /\ interval_z s2 = interval_z s1).
    { intros k s1 H1. destruct Hsb as [_ Hsb]. specialize (Hsb k). rewrite H1 in Hsb.
      destruct (assoc_get (sensors w1) k) as [s2|]; [|contradiction].
      exists s2. split; [reflexivity|]. rewrite Hsb. reflexivity. }
    assert (Hpre1 : forall k, In k ids -> exists s nt z, assoc_get (sensors w1) k = Some s /\
              assoc_get (next_update_times w1) k = Some nt /\ interval_z s = Some z).
    { intros k Hk. destruct (Hpre k (or_intror Hk)) as (s1 & nt1 & z1 & H1 & H2 & H3).
      destruct (Hsens k s1 H1) as (s2 & H4 & H5).
      exists s2, nt1, z1. split; [exact H4|]. split; [|congruence].
      rewrite Hnext_other; [exact H2|]. intros ->. contradiction. }
    destruct (IH w1 Hnd' Hpre1) as (Hok' & Hf' & Hsb' & Hnx').
    split; [exact Hok'|].
    split; [eapply frame_trans; eauto|].
    split; [eapply same_but_state_trans; eauto|].
    intros k. split.
    + intros [<-|Hk].
      * destruct (Hnx' sid) as [_ [H _]]. rewrite (H Hnin).
        unfold sched_after. rewrite Hs, Hn, Hnx, Hz.
        destruct (nt <=? now)%Z; [apply assoc_get_set_eq; eapply dict_mem_some; eauto|exact Hn].
      * destruct (Hnx' k) as [H _]. rewrite (H Hk).
        assert (Hne : k <> sid) by (intros ->; contradiction).
        unfold sched_after. rewrite (Hnext_other k Hne).
        destruct (assoc_get (sensors w) k) as [s1|] eqn:E1.
        -- destruct (Hsens k s1 E1) as (s2 & H4 & H5). rewrite H4, H5. reflexivity.
        -- destruct Hsb as [_ Hsb]. specialize (Hsb k). rewrite E1 in Hsb.
           destruct (assoc_get (sensors w1) k); [contradiction|reflexivity].
    + split.
      * intros Hk. destruct (Hnx' k) as [_ [H _]]. rewrite H by (intros Hk'; apply Hk; right; exact Hk').
        apply Hnext_other. intros ->. apply Hk. left. reflexivity.
      * intros Hk. destruct (Hnx' k) as [_ [_ H]]. rewrite H by (intros Hk'; apply Hk; right; exact Hk').
        apply Hko. intros ->. apply Hk. left. reflexivity.
Qed.

(** The whole tick at [now = time.time()]: it completes normally, and
    every sensor whose timer was due is rescheduled to
    [now + report_interval]. *)
Lemma update_sensors_reschedules w :
  wf w ->
  fst (update_sensors w) = Ok tt /\
  same_but_state (sensors w) (sensors (snd (update_sensors w))) /\
  forall sid s nt z, assoc_get (sensors w) sid = Some s ->
    assoc_get (next_update_times w) sid = Some nt -> interval_z s = Some z ->
    assoc_get (next_update_times (snd (update_sensors w))) sid =
      Some (if (nt <=? clock w)%Z then clock w + z else nt)%Z.
Proof.
  intros [Hnd Hpre]. unfold update_sensors, bind, time_time, get_world. cbn [fst snd].
  edestruct (for_each_update (clock w) (map fst (sensors w)) w Hnd) as (Hok & _ & Hsb & Hnx).
  { intros k Hk. apply assoc_get_in_keys in Hk. destruct Hk as [s Hs].
    destruct (Hpre k s Hs) as [[nt Hn] [z Hz]]. eauto 6. }
  split; [exact Hok|]. split; [exact Hsb|].
  intros sid s nt z Hs Hn Hz. destruct (Hnx sid) as [H _].
  rewrite H by (apply assoc_get_in_keys; eauto).
  unfold sched_after. rewrite Hs, Hn, Hz. destruct (nt <=? clock w)%Z; reflexivity.
Qed.
Lemma for_each_app {A} (l1 l2 : list A) (f : A -> M unit) w :
  for_each (l1 ++ l2) f w = bind (for_each l1 f) (fun _ => for_each l2 f) w.
Proof.
  revert w. induction l1 as [|x l1 IH]; intros w; cbn [app for_each].
  - reflexivity.
  - unfold bind at 1 2 3. destruct (f x w) as [[[]|e|] w1]; [|reflexivity|reflexivity].
    apply IH.
Qed.

Lemma NoDup_app_disj {A} (l1 l2 : list A) x : NoDup (l1 ++ l2) -> In x l1 -> In x l2 -> False.
Proof.
  induction l1 as [|y l1 IH]; intros Hnd H1 H2; [contradiction|].
  inversion Hnd as [|? ? Hy Hnd']; subst. destruct H1 as [<-|H1].
  - apply Hy. apply in_or_app. right. exact H2.
  - exact (IH Hnd' H1 H2).
Qed.

Lemma wf_ready w ids :
  wf w -> (forall k, In k ids -> In k (map fst (sensors w))) ->
  forall k, In k ids -> exists s nt z, assoc_get (sensors w) k = Some s /\
    assoc_get (next_update_times w) k = Some nt /\ interval_z s = Some z.
Proof.
  intros [_ Hpre] Hin k Hk. apply Hin, assoc_get_in_keys in Hk. destruct Hk as [s Hs].
  destruct (Hpre k s Hs) as [[nt Hn] [z Hz]]. eauto 6.
Qed.

(** A tick in which the driver of the due sensor [sid] fails: the payload
    is handed to [MQTTManager.publish] on its errors topic when it was
    [ACTIVE] with an errors topic and a manager attached, and the sensor
    ends in [ERROR] unless the client raised on that publish; a sensor
    that was not [ACTIVE] or has no errors topic ends in [ERROR] as well. *)
Lemma update_sensors_failing w sid s nt z :
  wf w -> assoc_get (sensors w) sid = Some s ->
  assoc_get (next_update_times w) sid = Some nt -> interval_z s = Some z ->
  (nt <=? clock w)%Z = true -> read_result s = None ->
  exists e,
  match state_eqb (s_state s) ACTIVE, topic_of s "errors", mqtt w with
  | true, Some t, Some m =>
      (exists l, trace (snd (update_sensors w)) = (l ++ trace w)%list /\
         In (Publish t (err_payload (datetime w) ("Error during sensor update: " ++ exn_str e))) l) /\
      assoc_get (sensors (snd (update_sensors w))) sid =
        Some (if connected m && client_fails m t then s else with_state s ERROR)
  | _, _, _ => assoc_get (sensors (snd (update_sensors w))) sid = Some (with_state s ERROR)
  end.
Proof.
  intros Hwf Hs Hn Hz Hd Hr. pose proof Hwf as [Hnd _].
  assert (Hin : In sid (map fst (sensors w))) by (apply assoc_get_in_keys; eauto).
  destruct (in_split _ _ Hin) as (pre & post & Hids).
  rewrite Hids in Hnd.
  assert (Hpre_nd : NoDup pre) by (eapply NoDup_app_remove_r; exact Hnd).
  assert (Hpost_nd : NoDup post)
    by (apply NoDup_app_remove_l in Hnd; inversion Hnd; assumption).
  assert (Hsid_pre : ~ In sid pre)
    by (intros H; apply (NoDup_app_disj _ _ sid Hnd H); left; reflexivity).
  assert (Hsid_post : ~ In sid post)
    by (intros H; apply (NoDup_remove_2 _ _ _ Hnd); apply in_or_app; right; exact H).
  assert (Hpost_pre : forall k, In k post -> ~ In k pre)
    by (intros k H1 H2; apply (NoDup_app_disj _ _ k Hnd H2); right; exact H1).
  unfold update_sensors.
  rewrite (bind_ok _ _ _ _ _ (eq_refl : time_time w = (Ok (clock w), w))).
  rewrite (bind_ok _ _ _ _ _ (eq_refl : get_world w = (Ok w, w))).
  rewrite Hids, for_each_app.
  destruct (for_each_update (clock w) pre w Hpre_nd) as (Ok1 & F1 & _ & Nx1).
  { apply (wf_ready w pre Hwf). intros k Hk. rewrite Hids. apply in_or_app. left. exact Hk. }
  destruct (for_each pre (update_sensor (clock w)) w) as [o1 wa] eqn:Ea.
  cbn [fst snd] in Ok1, F1, Nx1. subst o1.
  rewrite (bind_ok _ _ _ _ _ Ea). cbn [for_each].
  assert (Hsa : assoc_get (sensors wa) sid = Some s)
    by (destruct (Nx1 sid) as [_ [_ H]]; rewrite H; assumption).
  assert (Hna : assoc_get (next_update_times wa) sid = Some nt)
    by (destruct (Nx1 sid) as [_ [H _]]; rewrite H; assumption).
  destruct (guarded_poll_read_fails sid s wa Hsa Hr) as (Fg & Ng & e & Hg).
  pose proof (guarded_poll_sensors sid s wa Hsa) as Sg.
  set (wg := snd (guarded_poll sid wa)) in Fg, Ng, Hg, Sg.
  assert (Eu : update_sensor (clock w) sid wa = (Ok tt, snd (set_next sid (clock w + z)%Z wg)))
    by (rewrite (update_sensor_due (clock w) sid s nt z wa Hsa Hna Hd Hz); reflexivity).
  rewrite (bind_ok _ _ _ _ _ Eu).
  set (wb := snd (set_next sid (clock w + z)%Z wg)).
  assert (WB : sensors wb = sensors wg /\ trace wb = trace wg /\
               forall k, k <> sid -> assoc_get (next_update_times wb) k = assoc_get (next_update_times wg) k).
  { splits; try reflexivity. intros k Hk. apply assoc_get_set_neq. congruence. }
  destruct WB as (WBS & WBT & WBN).
  assert (Hpre_b : forall k, In k post -> exists s nt z, assoc_get (sensors wb) k = Some s /\
            assoc_get (next_update_times wb) k = Some nt /\ interval_z s = Some z).
  { intros k Hk. assert (Hne : k <> sid) by (intros ->; contradiction).
    assert (Hkw : In k (map fst (sensors w))) by (rewrite Hids; apply in_or_app; right; right; exact Hk).
    destruct (wf_ready w (map fst (sensors w)) Hwf (fun k' H => H) k Hkw)
      as (sk & ntk & zk & H1 & H2 & H3).
    exists sk, ntk, zk. splits; [| |exact H3].
    - rewrite WBS. transitivity (assoc_get (sensors wa) k).
      + destruct Sg as [-> | [s' ->]]; [reflexivity|]. apply assoc_get_set_neq. congruence.
      + destruct (Nx1 k) as [_ [_ H]]. rewrite H by (apply Hpost_pre; exact Hk). exact H1.
    - rewrite (WBN k Hne), Ng. destruct (Nx1 k) as [_ [H _]].
      rewrite H by (apply Hpost_pre; exact Hk). exact H2. }
  destruct (for_each_update (clock w) post wb Hpost_nd Hpre_b) as (_ & F3 & _ & Nx3).
  destruct (for_each post (update_sensor (clock w)) wb) as [o3 wc] eqn:Ec. cbn [fst snd] in F3, Nx3 |- *.
  assert (Hsc : assoc_get (sensors wc) sid = assoc_get (sensors wg) sid)
    by (destruct (Nx3 sid) as [_ [_ H]]; rewrite H by exact Hsid_post; rewrite WBS; reflexivity).
  destruct F1 as (FM & FC & FD & l1 & FT). destruct F3 as (_ & _ & _ & l3 & T3).
  rewrite FM, FD, FT in Hg.
  assert (Hmem : dict_mem (sensors wa) sid = true) by (eapply dict_mem_some; exact Hsa).
  exists e.
  destruct (state_eqb (s_state s) ACTIVE), (topic_of s "errors"), (mqtt w);
    try (destruct Hg as [_ Sg']; rewrite Hsc, Sg'; apply assoc_get_set_eq; exact Hmem).
  destruct Hg as [(l & T4 & I4) Sg']. split.
  - exists (l3 ++ l ++ l1)%list. rewrite T3, WBT, T4, !app_assoc. split; [reflexivity|].
    rewrite !in_app_iff. tauto.
  - rewrite Hsc, Sg'. destruct (_ && _); [exact Hsa|apply assoc_get_set_eq; exact Hmem].
Qed.

Lemma err_payload_not_state t ts msg : ~ state_event (Publish t (err_payload ts msg)).
Proof. intros [st E]. discriminate E. Qed.

Lemma not_published_if_states w w' t p l :
  trace w' = (l ++ trace w)%list -> Forall state_event l -> ~ state_event (Publish t p) ->
  ~ exists l', trace w' = (l' ++ trace w)%list /\ In (Publish t p) l'.
Proof.
  intros T F Hn (l' & T' & I). rewrite T in T'. apply app_inv_tail in T'. subst l'.
  rewrite Forall_forall in F. exact (Hn (F _ I)).
Qed.

(** One iteration of the loop on a sensor that is not [ACTIVE]: it
    completes normally, adds only events without a non-state payload, and
    the timer advances when it was due. *)
Lemma update_sensor_inactive now sid s nt z w :
  assoc_get (sensors w) sid = Some s ->
  assoc_get (next_update_times w) sid = Some nt -> interval_z s = Some z ->
  state_eqb (s_state s) ACTIVE = false ->
  fst (update_sensor now sid w) = Ok tt /\
  (exists l, trace (snd (update_sensor now sid w)) = (l ++ trace w)%list /\
     Forall state_event l) /\
  assoc_get (next_update_times (snd (update_sensor now sid w))) sid =
    Some (if (nt <=? now)%Z then now + z else nt)%Z.
Proof.
  intros Hs Hn Hz Ha.
  destruct (update_sensor_run now sid w s nt z Hs Hn Hz) as (Hok & _ & _ & Hnx).
  split; [exact Hok|]. split.
  - destruct (nt <=? now)%Z eqn:Hd.
    + rewrite (update_sensor_due now sid s nt z w Hs Hn Hd Hz). unfold set_next. cbn [snd trace].
      destruct (guarded_poll_inactive sid s w Hs Ha) as (_ & _ & H). exact H.
    + unfold update_sensor.
      assert (Hg : get_sensor sid w = (Ok s, w)) by (unfold get_sensor; rewrite Hs; reflexivity).
      assert (Hg' : get_next sid w = (Ok nt, w)) by (unfold get_next; rewrite Hn; reflexivity).
      rewrite (bind_ok _ _ _ _ _ Hg), (bind_ok _ _ _ _ _ Hg'), Hd.
      exists []. split; [reflexivity|constructor].
  - rewrite Hnx. destruct (nt <=? now)%Z; [|exact Hn].
    apply assoc_get_set_eq. eapply dict_mem_some. exact Hn.
Qed.

Lemma assoc_get_in {A} (d : list (string * A)) k v : assoc_get d k = Some v -> In (k, v) d.
Proof.
  induction d as [|[k' v'] d IH]; cbn; [discriminate|].
  destruct (String.eqb k k') eqn:E.
  - intros H. inversion H; subst. apply String.eqb_eq in E. subst. left. reflexivity.
  - intros H. right. exact (IH H).
Qed.

(** [wf] checked entry by entry. *)
Lemma wf_check w :
  NoDup (map fst (sensors w)) ->
  forallb (fun '(k, s) => match assoc_get (next_update_times w) k, interval_z s with
                          | Some _, Some _ => true | _, _ => false end) (sensors w) = true ->
  wf w.
Proof.
  intros Hnd Hb. split; [exact Hnd|]. intros k s Hs.
  rewrite forallb_forall in Hb. specialize (Hb _ (assoc_get_in _ _ _ Hs)). cbv beta iota in Hb.
  destruct (assoc_get (next_update_times w) k) as [nt|], (interval_z s) as [z|];
    try discriminate. split; eexists; reflexivity.
Qed.

(* --------------------------------------------------------------------- *)
(** *** Configuration messages *)

Lemma assoc_get_set_same {A} (d : list (string * A)) k v : assoc_get (assoc_set d k v) k = Some v.
Proof.
  induction d as [|[k' v'] d IH]; cbn; [rewrite String.eqb_refl; reflexivity|].
  destruct (String.eqb k k') eqn:E; cbn; rewrite E; [reflexivity|exact IH].
Qed.

(** The sensor after [update_parameter(k, v)]. *)
Definition param_set (s : sensor) (k : string) (v : val) : sensor :=
  match editable s with
  | Some e => if dict_mem e k then with_editable s (Some (assoc_set e k v)) else s
  | None => s
  end.

(** The sensor after [for key, value in parsed_msg.items():
    sensor.update_parameter(key, value)]. *)
Definition params_set (s : sensor) (kv : dict) : sensor :=
  fold_left (fun s p => param_set s (fst p) (snd p)) kv s.

Lemma update_parameter_run sid k v s w :
  assoc_get (sensors w) sid = Some s -> config_writable w = true ->
  exists w', update_parameter sid k v w = (Ok tt, w') /\
    next_update_times w' = next_update_times w /\ clock w' = clock w /\
    config_writable w' = true /\
    assoc_get (sensors w') sid = Some (param_set s k v).
Proof.
  intros Hs Hw. unfold update_parameter.
  assert (Hg : get_sensor sid w = (Ok s, w)) by (unfold get_sensor; rewrite Hs; reflexivity).
  rewrite (bind_ok _ _ _ _ _ Hg). unfold param_set.
  destruct (editable s) as [e|]; [destruct (dict_mem e k)|].
  - unfold bind, put_sensor, save_config, get_world. cbn [config_writable]. rewrite Hw.
    eexists. split; [reflexivity|]. cbn. splits; [reflexivity..|].
    apply assoc_get_set_same.
  - eexists. split; [reflexivity|]. cbn. auto.
  - eexists. split; [reflexivity|]. cbn. auto.
Qed.

Lemma config_loop_run sid kv s w :
  assoc_get (sensors w) sid = Some s -> config_writable w = true ->
  exists w', for_each kv (fun '(k, v) => update_parameter sid k v) w = (Ok tt, w') /\
    next_update_times w' = next_update_times w /\ clock w' = clock w /\
    config_writable w' = true /\
    assoc_get (sensors w') sid = Some (params_set s kv).
Proof.
  revert s w. induction kv as [|[k v] kv IH]; intros s w Hs Hw.
  - exists w. auto.
  - cbn [for_each]. destruct (update_parameter_run sid k v s w Hs Hw) as (w1 & E1 & N1 & C1 & W1 & S1).
    rewrite (bind_ok _ _ _ _ _ E1).
    destruct (IH _ _ S1 W1) as (w2 & E2 & N2 & C2 & W2 & S2).
    exists w2. split; [exact E2|]. splits; [congruence|congruence|exact W2|exact S2].
Qed.

(** A message on a config topic carrying [report_interval = n]: the
    callback completes normally and the timer is set to [time.time() + n]. *)
Lemma sensor_cb_config_run sid topic kv n s w :
  assoc_get (sensors w) sid = Some s ->
  str_contains topic "commands" = false -> str_contains topic "config" = true ->
  assoc_get kv "report_interval" = Some (VInt n) -> config_writable w = true ->
  exists w', sensor_cb sid topic (Some (VObj kv)) w = (Ok tt, w') /\
    assoc_get (next_update_times w') sid = Some (clock w + n)%Z /\
    assoc_get (sensors w') sid = Some (params_set s kv).
Proof.
  intros Hs Hc1 Hc2 Hri Hw. unfold sensor_cb.
  rewrite (bind_ok _ _ _ _ _ (eq_refl : lookup_sensor sid w = (Ok (assoc_get (sensors w) sid), w))).
  rewrite Hs. cbv beta iota. unfold try_except.
  rewrite (bind_ok _ _ _ _ _ (eq_refl : json_loads (Some (VObj kv)) w = (Ok (VObj kv), w))).
  cbv beta. unfold bind at 1, log at 1. cbv beta iota. rewrite Hc1, Hc2.
  unfold bind at 1, log at 1. cbv beta iota.
  set (w1 := mkWorld _ _ _ _ _ _ _ _).
  assert (Hs1 : assoc_get (sensors w1) sid = Some s) by exact Hs.
  assert (Hk1 : clock w1 = clock w) by reflexivity.
  assert (Hw1 : config_writable w1 = true) by exact Hw.
  clearbody w1.
  destruct (config_loop_run sid kv s w1 Hs1 Hw1) as (w2 & E2 & N2 & C2 & _ & S2).
  rewrite (bind_ok _ _ _ _ _ E2), Hri.
  rewrite (bind_ok _ _ _ _ _ (eq_refl : time_time w2 = (Ok (clock w2), w2))).
  rewrite (bind_ok _ _ _ _ _ (eq_refl : py_add_time (clock w2) (VInt n) w2 = (Ok (clock w2 + n)%Z, w2))).
  eexists. split; [reflexivity|]. cbn [next_update_times sensors].
  split; [rewrite assoc_get_set_same; congruence|exact S2].
Qed.

Lemma param_set_editable s e k v r :
  editable s = Some e ->
  exists e', editable (param_set s k v) = Some e' /\
    (k <> r -> assoc_get e' r = assoc_get e r) /\
    (k = r -> dict_mem e r = true -> assoc_get e' r = Some v).
Proof.
  intros He. unfold param_set. rewrite He. destruct (dict_mem e k) eqn:Em.
  - exists (assoc_set e k v). split; [reflexivity|]. split.
    + intros Hne. apply assoc_get_set_neq. exact Hne.
    + intros <- _. apply assoc_get_set_same.
  - exists e. split; [exact He|]. split; [reflexivity|intros <- Hm; congruence].
Qed.

Lemma params_set_cons s p kv : params_set s (p :: kv) = params_set (param_set s (fst p) (snd p)) kv.
Proof. reflexivity. Qed.

Lemma params_set_keep kv s e r :
  editable s = Some e -> ~ In r (map fst kv) ->
  exists e', editable (params_set s kv) = Some e' /\ assoc_get e' r = assoc_get e r.
Proof.
  revert s e. induction kv as [|[k v] kv IH]; intros s e He Hn.
  - exists e. split; [exact He|reflexivity].
  - rewrite params_set_cons. cbn [fst snd].
    destruct (param_set_editable s e k v r He) as (e1 & He1 & Hne & _).
    destruct (IH _ _ He1) as (e2 & He2 & Hg2); [intros H; apply Hn; right; exact H|].
    exists e2. split; [exact He2|]. rewrite Hg2. apply Hne. intros ->. apply Hn. left. reflexivity.
Qed.

(** After a config message whose keys are distinct, an editable key [r]
    holds the value the message gave it. *)
Lemma params_set_written kv s e r x :
  editable s = Some e -> dict_mem e r = true -> NoDup (map fst kv) ->
  assoc_get kv r = Some x ->
  exists e', editable (params_set s kv) = Some e' /\ assoc_get e' r = Some x.
Proof.
  revert s e. induction kv as [|[k v] kv IH]; intros s e He Hm Hnd Hx; [discriminate|].
  inversion Hnd as [|? ? Hk Hnd']; subst. rewrite params_set_cons. cbn [fst snd].
  destruct (param_set_editable s e k v r He) as (e1 & He1 & Hne & Heq).
  cbn in Hx. destruct (String.eqb r k) eqn:Er.
  - apply String.eqb_eq in Er. subst k. inversion Hx; subst x.
    destruct (params_set_keep kv _ e1 r He1 Hk) as (e2 & He2 & Hg2).
    exists e2. split; [exact He2|]. rewrite Hg2. apply Heq; [reflexivity|exact Hm].
  - apply String.eqb_neq in Er.
    assert (Hg1 : assoc_get e1 r = assoc_get e r) by (apply Hne; congruence).
    apply (IH _ e1 He1); [unfold dict_mem in *; rewrite Hg1; exact Hm|exact Hnd'|exact Hx].
Qed.

Lemma params_set_interval kv s e n :
  editable s = Some e -> dict_mem e "report_interval" = true -> NoDup (map fst kv) ->
  assoc_get kv "report_interval" = Some (VInt n) ->
  interval_z (params_set s kv) = Some n.
Proof.
  intros He Hm Hnd Hx. destruct (params_set_written kv s e _ _ He Hm Hnd Hx) as (e' & He' & Hg).
  unfold interval_z, report_interval, dict_get_default. rewrite He', Hg. reflexivity.
Qed.

(* --------------------------------------------------------------------- *)
(** *** Factory reset *)

(** [self.parameters.get("editable", {})] *)
Definition ed_of (s : sensor) : dict :=
  match editable s with Some e => e | None => [] end.

(** What [Config.save_config()] writes for the given sensors. *)
Definition snapshot (l : list (string * sensor)) : list (string * option dict) :=
  map (fun '(sid, s) => (sid, editable s)) l.

Definition is_save (ev : event) : Prop :=
  match ev with SaveConfig _ => True | _ => False end.

(** How many entries of [d] name a key of the editable dict [e]. *)
Definition accepted (e : dict) (d : dict) : nat :=
  length (filter (fun p => dict_mem e (fst p)) d).

Lemma param_set_keys s k v r : dict_mem (ed_of (param_set s k v)) r = dict_mem (ed_of s) r.
Proof.
  unfold param_set, ed_of. destruct (editable s) as [e|] eqn:He; [|rewrite He; reflexivity].
  destruct (dict_mem e k) eqn:Em; [|rewrite He; reflexivity]. cbn. unfold dict_mem.
  destruct (String.eqb k r) eqn:E.
  - apply String.eqb_eq in E. subst r. rewrite assoc_get_set_same.
    unfold dict_mem in Em. destruct (assoc_get e k); [reflexivity|discriminate].
  - apply String.eqb_neq in E. rewrite assoc_get_set_neq by exact E. reflexivity.
Qed.

Lemma accepted_ext e1 e2 d :
  (forall r, dict_mem e1 r = dict_mem e2 r) -> accepted e1 d = accepted e2 d.
Proof.
  intros H. unfold accepted. induction d as [|p d IH]; [reflexivity|].
  cbn. rewrite H. destruct (dict_mem e2 (fst p)); cbn; congruence.
Qed.

Lemma reset_one_run sid k v s w :
  assoc_get (sensors w) sid = Some s -> config_writable w = true ->
  exists w1, reset_one sid (k, v) w = (Ok tt, w1) /\
    next_update_times w1 = next_update_times w /\ mqtt w1 = mqtt w /\
    config_writable w1 = true /\
    assoc_get (sensors w1) sid = Some (param_set s k v) /\
    (dict_mem (ed_of s) k = false -> sensors w1 = sensors w) /\
    trace w1 = ((if dict_mem (ed_of s) k then [SaveConfig (snapshot (sensors w1))] else []) ++
                trace w)%list.
Proof.
  intros Hs Hw. unfold reset_one.
  assert (Hg : get_sensor sid w = (Ok s, w)) by (unfold get_sensor; rewrite Hs; reflexivity).
  rewrite (bind_ok _ _ _ _ _ Hg). unfold param_set, ed_of.
  destruct (editable s) as [e|]; [destruct (dict_mem e k) eqn:Em|].
  - unfold bind, put_sensor, log, save_config, get_world. cbn [config_writable]. rewrite Hw.
    eexists. split; [reflexivity|]. cbn [next_update_times mqtt sensors trace].
    splits; first [reflexivity | apply assoc_get_set_same | discriminate].
  - eexists. split; [reflexivity|]. cbn. splits; auto.
  - eexists. split; [reflexivity|]. cbn. splits; auto.
Qed.

Lemma reset_loop_run sid d s w :
  assoc_get (sensors w) sid = Some s -> config_writable w = true ->
  exists w' l, for_each d (reset_one sid) w = (Ok tt, w') /\
    next_update_times w' = next_update_times w /\ mqtt w' = mqtt w /\
    config_writable w' = true /\
    assoc_get (sensors w') sid = Some (params_set s d) /\
    (accepted (ed_of s) d = 0%nat -> sensors w' = sensors w) /\
    trace w' = (l ++ trace w)%list /\ Forall is_save l /\
    length l = accepted (ed_of s) d /\
    (accepted (ed_of s) d <> 0%nat -> exists rest, l = SaveConfig (snapshot (sensors w')) :: rest).
Proof.
  revert s w. induction d as [|[k v] d IH]; intros s w Hs Hw.
  - exists w, []. splits; auto; try reflexivity; try constructor.
    intros H. exfalso. apply H. reflexivity.
  - cbn [for_each].
    destruct (reset_one_run sid k v s w Hs Hw) as (w1 & E1 & N1 & M1 & W1 & S1 & Z1 & T1).
    rewrite (bind_ok _ _ _ _ _ E1).
    destruct (IH _ _ S1 W1) as (w' & l' & E' & N' & M' & W' & S' & Z' & T' & F' & L' & H').
    assert (Hk : forall r, dict_mem (ed_of (param_set s k v)) r = dict_mem (ed_of s) r)
      by (intros r; apply param_set_keys).
    rewrite (accepted_ext _ _ d Hk) in Z', L', H'.
    assert (Ha : accepted (ed_of s) ((k, v) :: d) =
                 ((if dict_mem (ed_of s) k then 1 else 0) + accepted (ed_of s) d)%nat)
      by (unfold accepted; cbn; destruct (dict_mem (ed_of s) k); reflexivity).
    rewrite Ha.
    exists w', (l' ++ (if dict_mem (ed_of s) k then [SaveConfig (snapshot (sensors w1))] else []))%list.
    splits.
    + exact E'.
    + congruence.
    + congruence.
    + exact W'.
    + rewrite params_set_cons. exact S'.
    + intros H0. destruct (dict_mem (ed_of s) k) eqn:Em; [discriminate|].
      rewrite Z' by exact H0. apply Z1. reflexivity.
    + rewrite T', T1, app_assoc. reflexivity.
    + apply Forall_app. split; [exact F'|]. destruct (dict_mem (ed_of s) k); repeat constructor.
    + rewrite length_app, L'. destruct (dict_mem (ed_of s) k); cbn; lia.
    + intros Hne. destruct (Nat.eq_dec (accepted (ed_of s) d) 0) as [H0|H0].
      * rewrite H0 in L'. apply length_zero_iff_nil in L'. subst l'.
        destruct (dict_mem (ed_of s) k); [|contradiction Hne; rewrite H0; reflexivity].
        rewrite (Z' H0). exists []. reflexivity.
      * destruct (H' H0) as [rest ->]. exists (rest ++ (if dict_mem (ed_of s) k then [SaveConfig (snapshot (sensors w1))] else []))%list.
        reflexivity.
Qed.

Lemma snapshot_set_state l sid x st :
  assoc_get l sid = Some x -> snapshot (assoc_set l sid (with_state x st)) = snapshot l.
Proof.
  induction l as [|[k y] l IH]; cbn; [discriminate|].
  destruct (String.eqb sid k) eqn:E.
  - intros H. inversion H; subst. reflexivity.
  - intros H. cbn. f_equal. exact (IH H).
Qed.

(** [process_command("factory_reset")] on a sensor that lists
    ["factory_reset"] in its controls and has non-empty defaults: the
    reset loop runs, the sensor is made [ACTIVE], and everything ends with
    [publish_state()] on the resulting world. *)
Lemma factory_reset_run sid s d w :
  assoc_get (sensors w) sid = Some s -> config_writable w = true ->
  existsb (String.eqb "factory_reset") (control s) = true ->
  defaults s = Some d -> d <> [] ->
  exists w1 l, process_command sid (VStr "factory_reset") w = publish_state sid w1 /\
    assoc_get (sensors w1) sid = Some (with_state (params_set s d) ACTIVE) /\
    next_update_times w1 = next_update_times w /\ mqtt w1 = mqtt w /\
    trace w1 = (l ++ trace w)%list /\ Forall is_save l /\
    length l = accepted (ed_of s) d /\
    (accepted (ed_of s) d <> 0%nat -> exists rest, l = SaveConfig (snapshot (sensors w1)) :: rest).
Proof.
  intros Hs Hw Hc Hd Hne. unfold process_command.
  assert (Hg : get_sensor sid w = (Ok s, w)) by (unfold get_sensor; rewrite Hs; reflexivity).
  rewrite (bind_ok _ _ _ _ _ Hg). cbv beta iota. rewrite Hc.
  change (existsb (String.eqb "factory_reset") command_map_keys) with true. cbn [andb].
  unfold bind at 1, log at 1. cbv beta iota.
  replace (dispatch sid "factory_reset") with (do_factory_reset sid) by reflexivity.
  set (w0 := mkWorld _ _ _ _ _ _ _ _).
  assert (W0 : sensors w0 = sensors w /\ next_update_times w0 = next_update_times w /\
               mqtt w0 = mqtt w /\ trace w0 = trace w /\ config_writable w0 = true)
    by (splits; [reflexivity..|exact Hw]).
  clearbody w0. destruct W0 as (S0 & N0 & M0 & T0 & Hw0).
  unfold do_factory_reset.
  assert (Hg0 : get_sensor sid w0 = (Ok s, w0)) by (unfold get_sensor; rewrite S0, Hs; reflexivity).
  rewrite (bind_ok _ _ _ _ _ Hg0), Hd.
  destruct d as [|p d']; [contradiction Hne; reflexivity|]. cbv beta iota. cbn [dict_truthy negb].
  destruct (reset_loop_run sid (p :: d') s w0 (eq_trans (f_equal (fun l => assoc_get l sid) S0) Hs) Hw0)
    as (w2 & l & E2 & N2 & M2 & _ & S2 & _ & T2 & F2 & L2 & H2).
  rewrite (bind_ok _ _ _ _ _ E2).
  unfold bind at 1, log at 1. cbv beta iota.
  set (w3 := mkWorld _ _ _ _ _ _ _ _).
  assert (Hg3 : get_sensor sid w3 = (Ok (params_set s (p :: d')), w3))
    by (unfold get_sensor; cbn; rewrite S2; reflexivity).
  rewrite (bind_ok _ _ _ _ _ Hg3). unfold bind at 1, put_sensor at 1. cbv beta iota.
  eexists. exists l. split; [reflexivity|]. cbn [sensors next_update_times mqtt trace].
  splits.
  - apply assoc_get_set_same.
  - cbn. congruence.
  - cbn. congruence.
  - cbn. rewrite T2, T0. reflexivity.
  - exact F2.
  - exact L2.
  - intros Ha. destruct (H2 Ha) as [rest ->]. exists rest. cbn.
    rewrite (snapshot_set_state _ _ _ _ S2). reflexivity.
Qed.

Lemma param_set_state s k v : s_state (param_set s k v) = s_state s.
Proof.
  unfold param_set. destruct (editable s) as [e|]; [destruct (dict_mem e k)|]; reflexivity.
Qed.

Lemma reset_one_unwritable sid k v s w :
  assoc_get (sensors w) sid = Some s -> config_writable w = false ->
  exists w1, reset_one sid (k, v) w =
      ((if dict_mem (ed_of s) k then Raise OSError else Ok tt), w1) /\
    next_update_times w1 = next_update_times w /\ mqtt w1 = mqtt w /\
    trace w1 = trace w /\ config_writable w1 = false /\
    assoc_get (sensors w1) sid = Some (param_set s k v).
Proof.
  intros Hs Hw. unfold reset_one.
  assert (Hg : get_sensor sid w = (Ok s, w)) by (unfold get_sensor; rewrite Hs; reflexivity).
  rewrite (bind_ok _ _ _ _ _ Hg). unfold param_set, ed_of.
  destruct (editable s) as [e|]; [destruct (dict_mem e k) eqn:Em|].
  - unfold bind, put_sensor, log, save_config, get_world, raise. cbn [config_writable]. rewrite Hw.
    eexists. split; [reflexivity|]. cbn [next_update_times mqtt sensors trace config_writable].
    splits; first [reflexivity | exact Hw | apply assoc_get_set_same].
  - eexists. split; [reflexivity|]. cbn. splits; auto.
  - eexists. split; [reflexivity|]. cbn. splits; auto.
Qed.

(** With the configuration file not writable, the reset loop stops with
    [OSError] at the first default naming an editable key: that key is
    already written, nothing is saved and the state is untouched. *)
Lemma reset_loop_unwritable sid d s w :
  assoc_get (sensors w) sid = Some s -> config_writable w = false ->
  accepted (ed_of s) d <> 0%nat ->
  exists w' s', for_each d (reset_one sid) w = (Raise OSError, w') /\
    next_update_times w' = next_update_times w /\ mqtt w' = mqtt w /\
    trace w' = trace w /\
    assoc_get (sensors w') sid = Some s' /\ s_state s' = s_state s.
Proof.
  revert s w. induction d as [|[k v] d IH]; intros s w Hs Hw Ha.
  - contradiction Ha. reflexivity.
  - cbn [for_each].
    destruct (reset_one_unwritable sid k v s w Hs Hw) as (w1 & E1 & N1 & M1 & T1 & W1 & S1).
    destruct (dict_mem (ed_of s) k) eqn:Em.
    + rewrite (bind_raise _ _ _ _ _ E1). exists w1, (param_set s k v).
      splits; auto using param_set_state.
    + rewrite (bind_ok _ _ _ _ _ E1).
      assert (Hk : forall r, dict_mem (ed_of (param_set s k v)) r = dict_mem (ed_of s) r)
        by (intros r; apply param_set_keys).
      assert (Ha' : accepted (ed_of (param_set s k v)) d <> 0%nat).
      { rewrite (accepted_ext _ _ d Hk). unfold accepted in *. cbn in Ha. rewrite Em in Ha. exact Ha. }
      destruct (IH _ _ S1 W1 Ha') as (w' & s' & E' & N' & M' & T' & S' & St').
      exists w', s'. splits; try congruence.
      rewrite St'. apply param_set_state.
Qed.

(** [process_command("factory_reset")] when [defaults] name an editable
    key but the configuration file cannot be opened for writing: the
    command raises [OSError] out of the first save, before the sensor is
    made [ACTIVE] and before any state is published. *)
Lemma factory_reset_unwritable sid s d w :
  assoc_get (sensors w) sid = Some s -> config_writable w = false ->
  existsb (String.eqb "factory_reset") (control s) = true ->
  defaults s = Some d -> accepted (ed_of s) d <> 0%nat ->
  exists w' s', process_command sid (VStr "factory_reset") w = (Raise OSError, w') /\
    next_update_times w' = next_update_times w /\ trace w' = trace w /\
    assoc_get (sensors w') sid = Some s' /\ s_state s' = s_state s.
Proof.
  intros Hs Hw Hc Hd Ha. unfold process_command.
  assert (Hg : get_sensor sid w = (Ok s, w)) by (unfold get_sensor; rewrite Hs; reflexivity).
  rewrite (bind_ok _ _ _ _ _ Hg). cbv beta iota. rewrite Hc.
  change (existsb (String.eqb "factory_reset") command_map_keys) with true. cbn [andb].
  unfold bind at 1, log at 1. cbv beta iota.
  replace (dispatch sid "factory_reset") with (do_factory_reset sid) by reflexivity.
  set (w0 := mkWorld _ _ _ _ _ _ _ _).
  assert (W0 : sensors w0 = sensors w /\ next_update_times w0 = next_update_times w /\
               trace w0 = trace w /\ config_writable w0 = false)
    by (splits; [reflexivity..|exact Hw]).
  clearbody w0. destruct W0 as (S0 & N0 & T0 & Hw0).
  unfold do_factory_reset.
  assert (Hg0 : get_sensor sid w0 = (Ok s, w0)) by (unfold get_sensor; rewrite S0, Hs; reflexivity).
  rewrite (bind_ok _ _ _ _ _ Hg0), Hd.
  destruct d as [|p d']; [contradiction Ha; reflexivity|]. cbv beta iota. cbn [dict_truthy negb].
  destruct (reset_loop_unwritable sid (p :: d') s w0 (eq_trans (f_equal (fun l => assoc_get l sid) S0) Hs) Hw0 Ha)
    as (w2 & s2 & E2 & N2 & _ & T2 & S2 & St2).
  rewrite (bind_raise _ _ _ _ _ E2). exists w2, s2. splits; congruence.
Qed.

(** [process_command("factory_reset")] when [defaults] is empty or absent:
    only the warning is logged. *)
Lemma factory_reset_no_defaults sid s w :
  assoc_get (sensors w) sid = Some s ->
  match defaults s with Some (_ :: _) => False | _ => True end ->
  fst (process_command sid (VStr "factory_reset") w) = Ok tt /\
  sensors (snd (process_command sid (VStr "factory_reset") w)) = sensors w /\
  next_update_times (snd (process_command sid (VStr "factory_reset") w)) = next_update_times w /\
  trace (snd (process_command sid (VStr "factory_reset") w)) = trace w.
Proof.
  intros Hs Hd.
  enough (E : exists w2, process_command sid (VStr "factory_reset") w = (Ok tt, w2) /\
                sensors w2 = sensors w /\ next_update_times w2 = next_update_times w /\
                trace w2 = trace w)
    by (destruct E as (w2 & E & S & N & T); rewrite E; cbn; splits; first [reflexivity|assumption]).
  unfold process_command.
  assert (Hg : get_sensor sid w = (Ok s, w)) by (unfold get_sensor; rewrite Hs; reflexivity).
  rewrite (bind_ok _ _ _ _ _ Hg). cbv beta iota.
  destruct (existsb (String.eqb "factory_reset") (control s) &&
            existsb (String.eqb "factory_reset") command_map_keys).
  2:{ eexists. split; [reflexivity|]. splits; reflexivity. }
  unfold bind at 1, log at 1. cbv beta iota.
  replace (dispatch sid "factory_reset") with (do_factory_reset sid) by reflexivity.
  set (w0 := mkWorld _ _ _ _ _ _ _ _).
  assert (W0 : sensors w0 = sensors w /\ next_update_times w0 = next_update_times w /\
               trace w0 = trace w) by (splits; reflexivity).
  clearbody w0. destruct W0 as (S0 & N0 & T0).
  unfold do_factory_reset.
  assert (Hg0 : get_sensor sid w0 = (Ok s, w0)) by (unfold get_sensor; rewrite S0, Hs; reflexivity).
  rewrite (bind_ok _ _ _ _ _ Hg0).
  destruct (defaults s) as [[|p d]|]; [|contradiction Hd|]; cbn [dict_truthy negb];
    (eexists; split; [reflexivity|]); cbn; splits; assumption.
Qed.

(* --------------------------------------------------------------------- *)
(** *** Commands *)

Lemma publish_state_sensors sid w : sensors (snd (publish_state sid w)) = sensors w.
Proof. destruct (tame_publish_state sid w) as [(_ & S & _) _]. exact S. Qed.

Lemma enable_sensor sid s w :
  assoc_get (sensors w) sid = Some s ->
  assoc_get (sensors (snd (enable sid w))) sid =
    Some (if state_eqb (s_state s) DISABLED then with_state s ACTIVE else s).
Proof.
  intros Hs. unfold enable.
  assert (Hg : get_sensor sid w = (Ok s, w)) by (unfold get_sensor; rewrite Hs; reflexivity).
  rewrite (bind_ok _ _ _ _ _ Hg). destruct (state_eqb (s_state s) DISABLED).
  - unfold bind at 1, log at 1. cbv beta iota. unfold bind at 1, put_sensor at 1. cbv beta iota.
    rewrite publish_state_sensors. apply assoc_get_set_same.
  - exact Hs.
Qed.

Lemma disable_sensor sid s w :
  assoc_get (sensors w) sid = Some s ->
  assoc_get (sensors (snd (disable sid w))) sid =
    Some (if state_eqb (s_state s) ACTIVE then with_state s DISABLED else s).
Proof.
  intros Hs. unfold disable.
  assert (Hg : get_sensor sid w = (Ok s, w)) by (unfold get_sensor; rewrite Hs; reflexivity).
  rewrite (bind_ok _ _ _ _ _ Hg). destruct (state_eqb (s_state s) ACTIVE).
  - unfold bind at 1, log at 1. cbv beta iota. unfold bind at 1, put_sensor at 1. cbv beta iota.
    rewrite publish_state_sensors. apply assoc_get_set_same.
  - exact Hs.
Qed.

(** [process_command] on every path but a factory reset that has
    defaults to apply. *)
Lemma process_command_sensor_simple sid s c w :
  assoc_get (sensors w) sid = Some s ->
  (String.eqb c "factory_reset" = false \/
   match defaults s with Some (_ :: _) => False | _ => True end) ->
  assoc_get (sensors (snd (process_command sid (VStr c) w))) sid =
    Some (if existsb (String.eqb c) (control s) && existsb (String.eqb c) command_map_keys
          then if String.eqb c "enable" then
                 (if state_eqb (s_state s) DISABLED then with_state s ACTIVE else s)
               else if String.eqb c "disable" then
                 (if state_eqb (s_state s) ACTIVE then with_state s DISABLED else s)
               else s
          else s).
Proof.
  intros Hs Hfr. unfold process_command.
  assert (Hg : get_sensor sid w = (Ok s, w)) by (unfold get_sensor; rewrite Hs; reflexivity).
  rewrite (bind_ok _ _ _ _ _ Hg). cbv beta iota.
  destruct (existsb (String.eqb c) (control s) && existsb (String.eqb c) command_map_keys);
    [|exact Hs].
  unfold bind at 1, log at 1. cbv beta iota.
  set (w1 := mkWorld _ _ _ _ _ _ _ _).
  assert (Hs1 : assoc_get (sensors w1) sid = Some s) by exact Hs.
  clearbody w1. unfold dispatch.
  destruct (String.eqb c "enable"); [apply enable_sensor; exact Hs1|].
  destruct (String.eqb c "disable"); [apply disable_sensor; exact Hs1|].
  destruct (String.eqb c "self_test"); [exact Hs1|].
  destruct (String.eqb c "factory_reset") eqn:Ef; [|exact Hs1].
  destruct Hfr as [Hfr|Hfr]; [discriminate|].
  unfold do_factory_reset.
  assert (Hg1 : get_sensor sid w1 = (Ok s, w1)) by (unfold get_sensor; rewrite Hs1; reflexivity).
  rewrite (bind_ok _ _ _ _ _ Hg1).
  destruct (defaults s) as [[|p d]|]; [exact Hs1|contradiction|exact Hs1].
Qed.

(* --------------------------------------------------------------------- *)
(** *** Operations that never halt *)

Definition R_any (w w' : world) : Prop := True.
Lemma R_any_refl w : R_any w w.
Proof. exact I. Qed.
Lemma R_any_trans a b c : R_any a b -> R_any b c -> R_any a c.
Proof. intros _ _. exact I. Qed.

Lemma any_of_s {A} (c : M A) : tame R_s c -> tame R_any c.
Proof. intros H w. split; [exact I|exact (proj2 (H w))]. Qed.
Lemma any_of_st {A} (c : M A) : tame R_st c -> tame R_any c.
Proof. intros H w. split; [exact I|exact (proj2 (H w))]. Qed.
Lemma any_put sid s : tame R_any (put_sensor sid s).
Proof. intros w. split; [exact I|discriminate]. Qed.
Lemma any_set_next sid t : tame R_any (set_next sid t).
Proof. intros w. split; [exact I|discriminate]. Qed.
Lemma any_json msg : tame R_any (json_loads msg).
Proof. intros w. split; [exact I|destruct msg; discriminate]. Qed.
Lemma any_py_get v k : tame R_any (py_get v k).
Proof. intros w. split; [exact I|destruct v; discriminate]. Qed.
Lemma any_lookup sid : tame R_any (lookup_sensor sid).
Proof. intros w. split; [exact I|discriminate]. Qed.
Lemma any_py_add t v : tame R_any (py_add_time t v).
Proof. intros w. split; [exact I|destruct v; discriminate]. Qed.

Create HintDb tame_any.
#[local] Hint Resolve any_put any_set_next any_json any_py_get any_lookup any_py_add : tame_any.
#[local] Hint Extern 2 (tame R_any _) => apply any_of_s; solve [auto with tame_s] : tame_any.
#[local] Hint Extern 3 (tame R_any _) => apply any_of_st; solve [tame_st] : tame_any.

Ltac any_leaf :=
  first [ match goal with |- tame _ (let _ := _ in _) => cbv zeta end
        | apply (tame_for_each R_any R_any_refl R_any_trans); intros [? ?] _; cbv beta iota ].
Ltac tame_any := tame_auto_with R_any R_any_refl R_any_trans any_leaf; auto with tame_any.

Lemma any_update_parameter sid k v : tame R_any (update_parameter sid k v).
Proof. unfold update_parameter, save_config. tame_any. Qed.
Lemma any_reset_one sid kv : tame R_any (reset_one sid kv).
Proof. destruct kv. unfold reset_one, save_config. tame_any. Qed.
#[local] Hint Resolve any_update_parameter any_reset_one : tame_any.

Lemma any_dispatch sid c : tame R_any (dispatch sid c).
Proof.
  unfold dispatch, enable, disable, do_self_test, do_factory_reset. tame_any.
Qed.
#[local] Hint Resolve any_dispatch : tame_any.

Lemma any_process_command sid c : tame R_any (process_command sid c).
Proof. unfold process_command. tame_any. Qed.
#[local] Hint Resolve any_process_command : tame_any.

(** The callback made by [_make_cb] always returns normally: every
    exception of the message handling is caught. *)
Lemma sensor_cb_ok sid topic msg w : fst (sensor_cb sid topic msg w) = Ok tt.
Proof.
  unfold sensor_cb.
  rewrite (bind_ok _ _ _ _ _ (eq_refl : lookup_sensor sid w = (Ok (assoc_get (sensors w) sid), w))).
  destruct (assoc_get (sensors w) sid) as [s|]; [|reflexivity].
  set (body := let* parsed := json_loads msg in _).
  assert (Hb : tame R_any body) by (unfold body; tame_any).
  unfold try_except. destruct (Hb w) as [_ H2].
  destruct (body w) as [[[]|e|] w2]; cbn [fst snd] in *; [reflexivity| |contradiction].
  destruct e; try reflexivity; unfold bind at 1, log at 1; apply error_handler_ok.
Qed.


(* --------------------------------------------------------------------- *)
(** *** Config messages and ticks, continued *)

Lemma params_set_frame kv s :
  s_state (params_set s kv) = s_state s /\ publish_topics (params_set s kv) = publish_topics s.
Proof.
  revert s. induction kv as [|[k v] kv IH]; intros s; [split; reflexivity|].
  rewrite params_set_cons. cbn [fst snd].
  destruct (IH (param_set s k v)) as [A B]. rewrite A, B.
  unfold param_set. destruct (editable s) as [e|]; [destruct (dict_mem e k)|]; split; reflexivity.
Qed.

Definition R_m (w w' : world) : Prop := mqtt w' = mqtt w.
Lemma R_m_refl w : R_m w w.
Proof. reflexivity. Qed.
Lemma R_m_trans a b c : R_m a b -> R_m b c -> R_m a c.
Proof. unfold R_m. congruence. Qed.
Lemma m_of_s {A} (c : M A) : tame R_s c -> tame R_m c.
Proof. intros H w. destruct (H w) as [((M1 & _) & _) H2]. split; [exact M1|exact H2]. Qed.
Lemma m_put sid s : tame R_m (put_sensor sid s).
Proof. intros w. split; [reflexivity|discriminate]. Qed.

Lemma m_update_parameter sid k v : tame R_m (update_parameter sid k v).
Proof.
  unfold update_parameter, save_config.
  tame_auto_with R_m R_m_refl R_m_trans fail;
    first [apply m_put | apply m_of_s; first [apply tame_log|apply tame_emit|apply tame_get_sensor|apply tame_get_world]].
Qed.

Lemma config_loop_mqtt sid kv w :
  mqtt (snd (for_each kv (fun '(k, v) => update_parameter sid k v) w)) = mqtt w.
Proof.
  apply (tame_for_each R_m R_m_refl R_m_trans). intros [k v] _. apply m_update_parameter.
Qed.

Lemma assoc_get_app_skip {A} (pre rest : list (string * A)) k v :
  ~ In k (map fst pre) -> assoc_get (pre ++ (k, v) :: rest) k = Some v.
Proof.
  induction pre as [|[k' v'] pre IH]; intros Hn; cbn.
  - rewrite String.eqb_refl. reflexivity.
  - destruct (String.eqb k k') eqn:E.
    + apply String.eqb_eq in E. subst. exfalso. apply Hn. left. reflexivity.
    + apply IH. intros H. apply Hn. right. exact H.
Qed.

Lemma update_sensors_unfold w :
  update_sensors w = for_each (map fst (sensors w)) (update_sensor (clock w)) w.
Proof. reflexivity. Qed.

(** Sensors whose timer is in the future are skipped without any effect. *)
Lemma for_each_not_due now ids w :
  (forall k, In k ids -> (exists s, assoc_get (sensors w) k = Some s) /\
                         exists t, assoc_get (next_update_times w) k = Some t /\ (now < t)%Z) ->
  for_each ids (update_sensor now) w = (Ok tt, w).
Proof.
  induction ids as [|k ids IH]; intros H; [reflexivity|].
  cbn [for_each]. destruct (H k (or_introl eq_refl)) as [[s Hs] [t [Ht Hlt]]].
  assert (E : update_sensor now k w = (Ok tt, w)).
  { unfold update_sensor.
    assert (Hg : get_sensor k w = (Ok s, w)) by (unfold get_sensor; rewrite Hs; reflexivity).
    assert (Hg' : get_next k w = (Ok t, w)) by (unfold get_next; rewrite Ht; reflexivity).
    rewrite (bind_ok _ _ _ _ _ Hg), (bind_ok _ _ _ _ _ Hg').
    replace (t <=? now)%Z with false by (symmetry; apply Z.leb_gt; exact Hlt). reflexivity. }
  rewrite (bind_ok _ _ _ _ _ E). apply IH. intros k' Hk'. apply H. right. exact Hk'.
Qed.

Lemma handle_error_cases cfg msg w :
  let post := truthy (dict_get_default (error_handling cfg) "post_global_errors"
                                       (VBool DEFAULT_POST_GLOBAL_ERROR)) in
  let restart := truthy (dict_get_default (error_handling cfg) "auto_restart_on_error"
                                          (VBool DEFAULT_AUTO_RESTART_ON_ERROR)) in
  let p := [("error", VStr msg); ("timestamp", VStr (datetime w))] in
  let r := handle_error cfg msg w in
  sensors (snd r) = sensors w /\ next_update_times (snd r) = next_update_times w /\
  match post, topic_truthy (error_topic cfg), mqtt w with
  | true, Some t, Some m =>
      if connected m && client_fails m t then
        fst r = Raise OSError /\ trace (snd r) = Publish t p :: trace w
      else
        fst r = (if restart then Halted else Ok tt) /\
        trace (snd r) = ((if restart then [Reboot] else []) ++
                         (if connected m then [Sent t p] else []) ++ Publish t p :: trace w)%list
  | _, _, _ =>
      fst r = (if restart then Halted else Ok tt) /\
      trace (snd r) = ((if restart then [Reboot] else []) ++ trace w)%list
  end.
Proof.
  cbv zeta. destruct w as [ss nx mq tr lg ck dt cw].
  unfold handle_error, mqtt_publish, reboot, bind, log, mqtt_attached, get_formatted_datetime, get_mqtt,
    emit, try_except, raise, halt, ret.
  cbn [sensors next_update_times mqtt trace logs clock datetime].
  destruct (truthy (dict_get_default (error_handling cfg) "post_global_errors"
                                     (VBool DEFAULT_POST_GLOBAL_ERROR)));
  destruct (truthy (dict_get_default (error_handling cfg) "auto_restart_on_error"
                                     (VBool DEFAULT_AUTO_RESTART_ON_ERROR)));
  destruct (topic_truthy (error_topic cfg)) as [t|];
  destruct mq as [m|]; cbn;
  try (destruct (connected m); destruct (client_fails m t)); cbn; splits; reflexivity.
Qed.



(* --------------------------------------------------------------------- *)
(** *** The manager's callbacks, initialisation and the main loop *)

Lemma bindc_ok {A B} (c : MC A) (k : A -> MC B) st a st1 :
  c st = (Ok a, st1) -> bindc c k st = k a st1.
Proof. intros E. unfold bindc. rewrite E. reflexivity. Qed.
Lemma bindc_raise {A B} (c : MC A) (k : A -> MC B) st e st1 :
  c st = (Raise e, st1) -> bindc c k st = (Raise e, st1).
Proof. intros E. unfold bindc. rewrite E. reflexivity. Qed.
Lemma bindc_halt {A B} (c : MC A) (k : A -> MC B) st st1 :
  c st = (Halted, st1) -> bindc c k st = (Halted, st1).
Proof. intros E. unfold bindc. rewrite E. reflexivity. Qed.
Lemma lift_run {A} (c : M A) w cbs : lift c (w, cbs) = (fst (c w), (snd (c w), cbs)).
Proof. unfold lift. cbn [fst snd]. destruct (c w); reflexivity. Qed.

(** Two worlds that differ at most in their log lines. *)
Definition same_but_logs (w w' : world) : Prop :=
  sensors w' = sensors w /\ next_update_times w' = next_update_times w /\
  mqtt w' = mqtt w /\ trace w' = trace w /\ clock w' = clock w /\ datetime w' = datetime w.

Lemma check_messages_fails ib w cbs m :
  mqtt w = Some m -> connected m = true ->
  (ib = SockError \/ exists msg, ib = Msg None msg) ->
  exists w', check_messages ib (w, cbs) = (Raise (match ib with SockError => OSError | _ => ValueError end), (w', cbs)) /\
    mqtt w' = Some (mkClient false (client_fails m) (client_sub_fails m)) /\
    sensors w' = sensors w /\ next_update_times w' = next_update_times w /\ trace w' = trace w.
Proof.
  intros Hm Hc Hib. unfold check_messages.
  rewrite (bindc_ok _ _ _ m (w, cbs)) by (rewrite lift_run; unfold get_mqtt; rewrite Hm; reflexivity).
  rewrite Hc. cbv beta iota. unfold try_exceptc.
  destruct Hib as [->|[msg ->]]; cbn; rewrite Hm; eexists; (split; [reflexivity|]); splits; reflexivity.
Qed.

Lemma main_loop_app pre post st st1 :
  main_loop pre st = (Ok tt, st1) -> main_loop (pre ++ post) st = main_loop post st1.
Proof.
  revert st. induction pre as [|[ib t] pre IH]; intros st H; cbn [main_loop app] in *.
  - inversion H. reflexivity.
  - unfold bindc in *. destruct (loop_pass ib t st) as [[[]|e|] s1]; try discriminate.
    apply IH. exact H.
Qed.

Lemma for_eachc_app {A} (l1 l2 : list A) (f : A -> MC unit) st st1 :
  for_eachc l1 f st = (Ok tt, st1) -> for_eachc (l1 ++ l2) f st = for_eachc l2 f st1.
Proof.
  revert st. induction l1 as [|x l1 IH]; intros st H; cbn [for_eachc app] in *.
  - inversion H. reflexivity.
  - unfold bindc in *. destruct (f x st) as [[[]|e|] s1]; try discriminate. apply IH. exact H.
Qed.

(** The entry [k] of a [subscribe] dict holds a topic string, or is absent. *)
Definition str_or_absent (d : dict) (k : string) : Prop :=
  match assoc_get d k with None | Some (VStr _) => True | Some _ => False end.

(** The callbacks after subscribing [sid] to the topic under [k], if any. *)
Definition sub_topic (d : dict) (k sid : string) (cbs : callbacks) : callbacks :=
  match assoc_get d k with Some (VStr t) => assoc_set cbs t sid | _ => cbs end.

(** What [publish_info()] adds to the trace when [client.publish] does
    not raise. *)
Definition info_events (mq : option mqtt_client) (s : sensor) (ro : dict) : list event :=
  match topic_of s "info", mq with
  | Some t, Some m => if connected m then [Sent t ro; Publish t ro] else [Publish t ro]
  | _, _ => []
  end.

(** The events [publish_info()] can leave, whether or not it raises. *)
Definition info_prefix (s : sensor) (ro : dict) (l : list event) : Prop :=
  l = [] \/ exists t, topic_of s "info" = Some t /\
                      (l = [Publish t ro] \/ l = [Sent t ro; Publish t ro]).

Lemma construct_sensor_ok s ro w :
  (forall m t, mqtt w = Some m -> topic_of s "info" = Some t ->
               connected m && client_fails m t = false) ->
  exists w1, construct_sensor s ro None w = (Ok tt, w1) /\
    sensors w1 = sensors w /\ next_update_times w1 = next_update_times w /\
    mqtt w1 = mqtt w /\ clock w1 = clock w /\
    trace w1 = (info_events (mqtt w) s ro ++ trace w)%list.
Proof.
  intros H. destruct w as [ss nx mq tr lg ck dt cw]. cbn [mqtt] in H.
  unfold construct_sensor, publish_info, info_events, mqtt_attached, mqtt_publish, get_mqtt,
    bind, log, emit, try_except, raise, ret. cbn [mqtt].
  destruct (topic_of s "info") as [t|] eqn:Et; destruct mq as [[cn fl sf]|]; cbn.
  - specialize (H _ t eq_refl eq_refl). cbn in H.
    destruct cn; cbn in H |- *; [rewrite H|]; eexists; split; try reflexivity; splits; reflexivity.
  - eexists; split; [reflexivity|]; splits; reflexivity.
  - eexists; split; [reflexivity|]; splits; reflexivity.
  - eexists; split; [reflexivity|]; splits; reflexivity.
Qed.

Lemma construct_sensor_fails s ro e w :
  exists e' w1 l, construct_sensor s ro (Some e) w = (Raise e', w1) /\
    sensors w1 = sensors w /\ next_update_times w1 = next_update_times w /\
    trace w1 = (l ++ trace w)%list /\ info_prefix s ro l.
Proof.
  destruct w as [ss nx mq tr lg ck dt cw]. unfold info_prefix.
  unfold construct_sensor, publish_info, mqtt_attached, mqtt_publish, get_mqtt,
    bind, log, emit, try_except, raise, ret. cbn [mqtt].
  destruct (topic_of s "info") as [t|] eqn:Et; destruct mq as [[cn fl sf]|]; cbn.
  - destruct cn; cbn; [destruct (fl t)|]; cbn; do 3 eexists; split; try reflexivity.
    + splits; [reflexivity|reflexivity|..]; [|right; exists t; split; [reflexivity|left; reflexivity]].
      reflexivity.
    + splits; [reflexivity|reflexivity|..]; [|right; exists t; split; [reflexivity|right; reflexivity]].
      reflexivity.
    + splits; [reflexivity|reflexivity|..]; [|right; exists t; split; [reflexivity|left; reflexivity]].
      reflexivity.
  - do 3 eexists; split; [reflexivity|]; splits; [reflexivity|reflexivity|..]; [|left; reflexivity].
    reflexivity.
  - do 3 eexists; split; [reflexivity|]; splits; [reflexivity|reflexivity|..]; [|left; reflexivity].
    reflexivity.
  - do 3 eexists; split; [reflexivity|]; splits; [reflexivity|reflexivity|..]; [|left; reflexivity].
    reflexivity.
Qed.

Lemma router_delivers t sid msg w cbs :
  assoc_get cbs t = Some sid ->
  message_router (Some t) msg (w, cbs) =
    (Ok tt, (snd (sensor_cb sid t msg (snd (log LDebug "MQTT message received" w))), cbs)).
Proof.
  intros Hc. unfold message_router.
  rewrite (bindc_ok _ _ (w, cbs) tt (snd (log LDebug "MQTT message received" w), cbs))
    by (rewrite lift_run; reflexivity).
  unfold bindc at 1, get_callbacks at 1. cbn [fst snd]. rewrite Hc.
  rewrite lift_run. unfold try_except.
  pose proof (sensor_cb_ok sid t msg (snd (log LDebug "MQTT message received" w))) as H.
  destruct (sensor_cb sid t msg _) as [o w1]. cbn [fst] in H. subst o. reflexivity.
Qed.


Lemma run_main_loop_raise ecfg pre ib t post st st1 e st2 :
  main_loop pre st = (Ok tt, st1) ->
  loop_pass ib t st1 = (Raise e, st2) ->
  run_main_loop ecfg (pre ++ (ib, t) :: post) st =
    lift (handle_error ecfg ("Error during main loop: " ++ exn_str e)) st2.
Proof.
  intros H1 H2. unfold run_main_loop, try_exceptc. rewrite (main_loop_app _ _ _ _ H1).
  cbn [main_loop]. rewrite (bindc_raise _ _ _ _ _ H2). reflexivity.
Qed.

(** A tick reaching a due sensor whose [report_interval] is not a number
    raises [TypeError] out of [current_time + interval]. *)
Lemma update_sensors_abort w pre sid s rest nt :
  sensors w = (pre ++ (sid, s) :: rest)%list ->
  ~ In sid (map fst pre) ->
  (forall k, In k (map fst pre) ->
     exists t, assoc_get (next_update_times w) k = Some t /\ (clock w < t)%Z) ->
  assoc_get (next_update_times w) sid = Some nt -> (nt <= clock w)%Z ->
  interval_z s = None ->
  fst (update_sensors w) = Raise TypeError /\
  next_update_times (snd (update_sensors w)) = next_update_times w /\
  same_but_state (sensors w) (sensors (snd (update_sensors w))).
Proof.
  intros Hw Hn Hpre Hnt Hle Hz.
  assert (Hs : assoc_get (sensors w) sid = Some s) by (rewrite Hw; apply assoc_get_app_skip; exact Hn).
  assert (E : exists w1, update_sensor (clock w) sid w = (Raise TypeError, w1) /\ R_st w w1).
  { unfold update_sensor.
    assert (Hg : get_sensor sid w = (Ok s, w)) by (unfold get_sensor; rewrite Hs; reflexivity).
    assert (Hg' : get_next sid w = (Ok nt, w)) by (unfold get_next; rewrite Hnt; reflexivity).
    rewrite (bind_ok _ _ _ _ _ Hg), (bind_ok _ _ _ _ _ Hg').
    replace (nt <=? clock w)%Z with true by (symmetry; apply Z.leb_le; exact Hle).
    destruct (guarded_poll_ok sid w) as [Hok Hr]. fold (guarded_poll sid) in Hok, Hr.
    destruct (guarded_poll sid w) as [o w1] eqn:E. cbn [fst snd] in *. subst o.
    fold (guarded_poll sid). rewrite (bind_ok _ _ _ _ _ E).
    exists w1. split; [|exact Hr].
    unfold interval_z in Hz. destruct (report_interval s); first [discriminate | reflexivity]. }
  destruct E as (w1 & E & (_ & Hsb & Hnx)).
  assert (U : update_sensors w = (Raise TypeError, w1)).
  { rewrite update_sensors_unfold. rewrite Hw at 1. rewrite map_app, for_each_app.
    rewrite (bind_ok _ _ _ _ _ (for_each_not_due (clock w) (map fst pre) w ltac:(
      intros k Hk; split; [apply assoc_get_in_keys; rewrite Hw, map_app; apply in_or_app; left; exact Hk
                          |exact (Hpre k Hk)]))).
    cbn [map for_each]. rewrite (bind_raise _ _ _ _ _ E). reflexivity. }
  rewrite U. cbn [fst snd]. splits; [reflexivity|exact Hnx|exact Hsb].
Qed.

End NodeFacts.

(* ===================================================================== *)
(** ** Claims *)
(* ===================================================================== *)

Module LEDClaims.
Import ServiceLED ServiceLEDFacts.

(** C4: [_animate_led color blink_pattern times].
    For [times = k > 0] the task writes exactly [k] passes of the
    pattern, each entry [d] giving "on" for [d] then "off" for [d], and
    finishes with the off color ([fuel] only bounds passes without an
    [await], i.e. the empty pattern). For the pattern [[0.5, 1.0]] and
    [times = 2]: 4 on-writes, sleep durations
    [[0.5,0.5,1.0,1.0,0.5,0.5,1.0,1.0]], then off. For [times = 0] the
    task never finishes on its own; with a non-empty pattern it is always
    suspended on a sleep, so a cancellation can be delivered, and after
    it the last write is the off color. *)
Theorem animate_led_blinks (c : color) (pattern : list Q) :
  (forall (k : Z) (fuel : nat), (0 < k)%Z -> (Z.to_nat k < fuel)%nat ->
     exists n, run c pattern k fuel n (start c pattern k fuel) =
               (passes c pattern (Z.to_nat k) ++ [Write off_color], Finished))
  /\ (color_eqb c off_color = false -> forall fuel, (1 <= fuel)%nat ->
        exists n tr, run c [1#2; 1] 2 fuel n (start c [1#2; 1] 2 fuel) = (tr, Finished)
        /\ durations tr = [1#2; 1#2; 1; 1; 1#2; 1#2; 1; 1]
        /\ writes_of c tr = 4%nat
        /\ last tr (Sleep 0) = Write off_color)
  /\ (forall fuel n, snd (run c pattern 0 fuel n (start c pattern 0 fuel)) <> Finished)
  /\ (pattern <> [] -> forall fuel n, (1 <= fuel)%nat ->
        (exists p, snd (run c pattern 0 fuel n (start c pattern 0 fuel)) = Suspended p)
        /\ last (cancelled_trace c pattern 0 fuel n) (Sleep 0) = Write off_color).
Proof.
  split; [|split; [|split]].
  - intros k fuel Hk Hf. destruct pattern as [|d ds] eqn:Hp.
    + exists O. unfold start.
      rewrite (while_head_nil c [] k fuel (Z.to_nat k) 0 eq_refl Hk) by lia.
      rewrite passes_nil. reflexivity.
    + exists (2 * length (d :: ds) * Z.to_nat k)%nat. unfold start.
      apply (run_passes_nonempty c (d :: ds) k fuel d ds); auto; lia.
  - intros Hc fuel Hf. exists (2 * length [1#2; 1%Q] * 2)%nat.
    eexists. split.
    + unfold start.
      rewrite (run_passes_nonempty c [1#2; 1%Q] 2 fuel (1#2) [1%Q] 2 0) by (auto; lia).
      reflexivity.
    + assert (Hcc : color_eqb c c = true).
      { destruct c as [[r g] b]. simpl. rewrite !Z.eqb_refl. reflexivity. }
      assert (Hoc : color_eqb off_color c = false).
      { destruct c as [[r g] b]. unfold color_eqb, off_color in *.
        rewrite (Z.eqb_sym 0 r), (Z.eqb_sym 0 g), (Z.eqb_sym 0 b). exact Hc. }
      unfold passes, one_pass, blink, writes_of. cbn -[color_eqb].
      rewrite Hcc, Hoc. cbn.
      repeat split; reflexivity.
  - intros fuel n. apply run_not_finished.
    + intros p. apply resume_forever. reflexivity.
    + apply while_head_forever. reflexivity.
  - intros Hne fuel n Hf. destruct pattern as [|d ds] eqn:Hp; [congruence|].
    assert (Hsus : exists p, snd (run c (d :: ds) 0 fuel n (start c (d :: ds) 0 fuel))
                             = Suspended p).
    { apply run_suspended.
      - intros p. eapply resume_yield; eauto.
      - eapply while_head_yield; eauto. }
    split; [exact Hsus|].
    destruct Hsus as [p Hp'].
    unfold cancelled_trace.
    destruct (run c (d :: ds) 0 fuel n (start c (d :: ds) 0 fuel)) as [tr st].
    simpl in Hp'. subst st. apply last_last.
Qed.

Lemma animate_led_blinks_witness :
  exists n, run (255, 0, 0)%Z [1#2; 1] 2 3 n (start (255, 0, 0)%Z [1#2; 1] 2 3) =
            (passes (255, 0, 0)%Z [1#2; 1] 2 ++ [Write off_color], Finished).
Proof.
  apply (proj1 (animate_led_blinks (255, 0, 0)%Z [1#2; 1]) 2%Z 3%nat);
    [reflexivity | simpl; lia].
Defined.

End LEDClaims.

Module NodeClaims.
Import Node NodeFacts NodeExamples.
Open Scope string_scope.

(** C9: for a key that is not in the sensor's editable parameters (or
    when the sensor has no editable parameters, the default [{}]),
    [update_parameter(key, value)] returns normally and leaves the
    sensors, the timers and the trace (no [save_config]) unchanged; it
    only logs the warning. *)
Theorem update_parameter_unknown_key sid s key value w :
  assoc_get (sensors w) sid = Some s ->
  match editable s with Some e => dict_mem e key = false | None => True end ->
  update_parameter sid key value w =
    (Ok tt, mkWorld (sensors w) (next_update_times w) (mqtt w) (trace w)
                    ((LWarning, "not in editable parameters.") :: logs w) (clock w) (datetime w) (config_writable w)).
Proof.
  intros Hs He. unfold update_parameter.
  assert (Hg : get_sensor sid w = (Ok s, w)) by (unfold get_sensor; rewrite Hs; reflexivity).
  rewrite (bind_ok _ _ _ _ _ Hg).
  destruct (editable s) as [e|]; [rewrite He|]; reflexivity.
Qed.

Lemma update_parameter_unknown_key_witness :
  let s := temp_sensor ACTIVE (Some [("report_interval", VInt 60)]) None None in
  let w := node_world s 0 (Some client_up) 0 in
  update_parameter "temp" "colour" (VInt 5) w =
    (Ok tt, mkWorld (sensors w) (next_update_times w) (mqtt w) (trace w)
                    ((LWarning, "not in editable parameters.") :: logs w) (clock w) (datetime w) (config_writable w)).
Proof.
  intros s w. apply (update_parameter_unknown_key "temp" s); reflexivity.
Defined.

(** C8 (counterexample): with a disconnected client,
    [MQTTManager.publish] returns normally; the message never reaches the
    client. *)
Lemma mqtt_publish_disconnected_no_error :
  let w := node_world (temp_sensor ACTIVE None None None) 0 (Some client_down) 0 in
  fst (mqtt_publish "node/temp/data" [("t", VInt 21)] w) = Ok tt /\
  trace (snd (mqtt_publish "node/temp/data" [("t", VInt 21)] w)) =
    [Publish "node/temp/data" [("t", VInt 21)]].
Proof. split; reflexivity. Qed.

(** C8 (amended): for every topic and payload, when the connected flag is
    false [MQTTManager.publish] does not fail: it logs the warning "MQTT
    not connected. Publish aborted." and returns normally without handing
    the message to the client. *)
Theorem mqtt_publish_disconnected topic message w m :
  mqtt w = Some m -> connected m = false ->
  mqtt_publish topic message w =
    (Ok tt, mkWorld (sensors w) (next_update_times w) (mqtt w)
                    (Publish topic message :: trace w)
                    ((LWarning, "MQTT not connected. Publish aborted.") :: logs w)
                    (clock w) (datetime w) (config_writable w)).
Proof.
  intros Hm Hc. destruct w. cbn in Hm. subst. cbn. rewrite Hc. reflexivity.
Qed.

Lemma mqtt_publish_disconnected_witness :
  let w := node_world (temp_sensor ACTIVE None None None) 0 (Some client_down) 0 in
  mqtt_publish "node/temp/data" [("t", VInt 21)] w =
    (Ok tt, mkWorld (sensors w) (next_update_times w) (mqtt w)
                    (Publish "node/temp/data" [("t", VInt 21)] :: trace w)
                    ((LWarning, "MQTT not connected. Publish aborted.") :: logs w)
                    (clock w) (datetime w) (config_writable w)).
Proof. intros w. apply (mqtt_publish_disconnected _ _ w client_down); reflexivity. Defined.

(** C10: [publish_error] (like [publish_data]) publishes only while the
    sensor is [ACTIVE] and the payload is non-empty: otherwise it returns
    normally, changing neither the trace nor the sensors. Within
    [_error_handler], the error payload reaches [MQTTManager.publish] on
    the sensor's errors topic if and only if the sensor was [ACTIVE] (and
    a manager is attached), since [publish_error] runs before [error()]
    demotes the sensor; when that publish does not raise, the sensor then
    ends in [ERROR]. *)
Theorem publish_error_only_while_active sid s w t :
  assoc_get (sensors w) sid = Some s -> topic_of s "errors" = Some t ->
  (forall data, (s_state s <> ACTIVE \/ data = []) ->
     fst (publish_error sid data w) = Ok tt /\
     trace (snd (publish_error sid data w)) = trace w /\
     sensors (snd (publish_error sid data w)) = sensors w) /\
  (forall msg,
     (exists l, trace (snd (error_handler sid msg w)) = (l ++ trace w)%list /\
        In (Publish t (err_payload (datetime w) msg)) l) <->
     (s_state s = ACTIVE /\ mqtt w <> None)) /\
  (forall msg m, s_state s = ACTIVE -> mqtt w = Some m ->
     connected m && client_fails m t = false ->
     assoc_get (sensors (snd (error_handler sid msg w))) sid = Some (with_state s ERROR)).
Proof.
  intros Hs Ht. split; [|split].
  - intros data Hc. unfold publish_error.
    destruct (publish_on_run sid s "errors" data "No error topic found." w Hs) as [(_ & S & _) H].
    assert (Hb : dict_truthy data && state_eqb (s_state s) ACTIVE = false).
    { destruct Hc as [Hc | ->]; [|reflexivity].
      destruct (s_state s); [contradiction|apply andb_false_r|apply andb_false_r]. }
    rewrite Hb in H.
    assert (H' : trace (snd (publish_on sid "errors" data "No error topic found." w)) = trace w /\
                 fst (publish_on sid "errors" data "No error topic found." w) = Ok tt)
      by (destruct (topic_of s "errors"), (mqtt w); exact H).
    destruct H' as [H1 H2]. split; [exact H2|split; [exact H1|exact S]].
  - intros msg. destruct (error_handler_run sid s msg w Hs) as (_ & _ & _ & H). rewrite Ht in H.
    split.
    + intros Hp. destruct (s_state s) eqn:Ha; cbn [state_eqb] in H.
      * split; [reflexivity|]. intros Hm. rewrite Hm in H. destruct H as [(l & T & F) _].
        exact (not_published_if_states _ _ _ _ _ T F (err_payload_not_state _ _ _) Hp).
      * destruct H as [(l & T & F) _].
        destruct (not_published_if_states _ _ _ _ _ T F (err_payload_not_state _ _ _) Hp).
      * destruct H as [(l & T & F) _].
        destruct (not_published_if_states _ _ _ _ _ T F (err_payload_not_state _ _ _) Hp).
    + intros [Ha Hm]. rewrite Ha in H. cbn [state_eqb] in H.
      destruct (mqtt w) as [m|]; [|contradiction]. destruct H as [Hp _]. exact Hp.
  - intros msg m Ha Hm Hc. destruct (error_handler_run sid s msg w Hs) as (_ & _ & _ & H).
    rewrite Ht, Ha, Hm in H. cbn [state_eqb] in H. rewrite Hc in H. destruct H as [_ ->].
    apply assoc_get_set_eq. eapply dict_mem_some. exact Hs.
Qed.

Lemma publish_error_only_while_active_witness :
  let s := temp_sensor ACTIVE None None None in
  let w := node_world s 0 (Some client_up) 0 in
  (exists l, trace (snd (error_handler "temp" "boom" w)) = (l ++ trace w)%list /\
     In (Publish "node/temp/errors" (err_payload (datetime w) "boom")) l) <->
  (s_state s = ACTIVE /\ mqtt w <> None).
Proof.
  intros s w.
  exact (proj1 (proj2 (publish_error_only_while_active "temp" s w "node/temp/errors"
                         eq_refl eq_refl)) "boom").
Defined.

(** C7 (counterexample): a [DISABLED] sensor that is due is still read
    by the tick ([read_values] runs before the state is looked at); only
    its data publish is skipped, and its timer advances. *)
Lemma disabled_sensor_still_read :
  let s := temp_sensor DISABLED None None (Some [("t", VInt 21)]) in
  let w := node_world s 0 (Some client_up) 0 in
  read_called "temp" (trace (snd (update_sensors w))) = true /\
  published_on "node/temp/data" (trace (snd (update_sensors w))) = false /\
  assoc_get (next_update_times (snd (update_sensors w))) "temp" = Some 60%Z.
Proof. vm_compute. split; [reflexivity|split; reflexivity]. Qed.

(** C7 (amended): in the scheduler loop, the iteration for a sensor with
    a numeric [report_interval] whose state is [DISABLED] or [ERROR]
    completes normally and hands nothing
    but state payloads to [MQTTManager.publish] (no data and no error
    payload), although the driver's [read_values] may still be called;
    its timer is rescheduled to [now + interval] when due and is left
    alone otherwise. *)
Theorem inactive_sensor_not_published now sid s nt z w :
  assoc_get (sensors w) sid = Some s ->
  assoc_get (next_update_times w) sid = Some nt -> interval_z s = Some z ->
  (s_state s = DISABLED \/ s_state s = ERROR) ->
  fst (update_sensor now sid w) = Ok tt /\
  (exists l, trace (snd (update_sensor now sid w)) = (l ++ trace w)%list /\
     Forall state_event l) /\
  assoc_get (next_update_times (snd (update_sensor now sid w))) sid =
    Some (if (nt <=? now)%Z then now + z else nt)%Z.
Proof.
  intros Hs Hn Hz Hst. apply (update_sensor_inactive now sid s nt z w Hs Hn Hz).
  destruct Hst as [-> | ->]; reflexivity.
Qed.

Lemma inactive_sensor_not_published_witness :
  let s := temp_sensor ERROR (Some [("report_interval", VInt 30)]) None (Some [("t", VInt 21)]) in
  let w := node_world s 100 (Some client_up) 120 in
  fst (update_sensor 120 "temp" w) = Ok tt /\
  (exists l, trace (snd (update_sensor 120 "temp" w)) = (l ++ trace w)%list /\
     Forall state_event l) /\
  assoc_get (next_update_times (snd (update_sensor 120 "temp" w))) "temp" =
    Some (if (100 <=? 120)%Z then 120 + 30 else 100)%Z.
Proof.
  intros s w. apply (inactive_sensor_not_published 120 "temp" s 100 30 w);
    [reflexivity|reflexivity|reflexivity|right; reflexivity].
Defined.

(** C1 (failing inputs): two ways a due sensor whose driver read raises
    leaves the error path short of the claim. A sensor already in
    [ERROR] gets no error payload on its errors topic ([publish_error]
    skips non-[ACTIVE] sensors); an [ACTIVE] sensor whose error publish is
    refused by the client stays [ACTIVE] ([_error_handler] catches the
    client's exception before [error()] runs). *)
Lemma tick_error_path_incomplete :
  let w1 := node_world (temp_sensor ERROR None None None) 0 (Some client_up) 0 in
  let w2 := node_world (temp_sensor ACTIVE None None None) 0
                       (Some (client_refusing "node/temp/errors")) 0 in
  published_on "node/temp/errors" (trace (snd (update_sensors w1))) = false /\
  state_of (snd (update_sensors w2)) "temp" = Some ACTIVE.
Proof. vm_compute. split; reflexivity. Qed.

(** C1: what a tick does over well-formed sensors (a timer and a numeric
    [report_interval] each): it never aborts, and every sensor that was
    due is rescheduled to [now + interval], whatever happened to the
    others. When the driver of a due sensor raises, the payload
    [{timestamp, error}] is handed to [MQTTManager.publish] on its errors
    topic if the sensor was [ACTIVE], has an errors topic and a manager is
    attached; it then ends in [ERROR] unless the client raised on that
    publish, in which case [_error_handler] only logs "so disabling
    sensor" and the sensor keeps its state, [ACTIVE]: the fault is not
    isolated into [ERROR]. A sensor not [ACTIVE] or without an errors
    topic ends in [ERROR] without an error payload. *)
Theorem update_sensors_isolates_faults w :
  wf w ->
  fst (update_sensors w) = Ok tt /\
  (forall sid s nt z, assoc_get (sensors w) sid = Some s ->
     assoc_get (next_update_times w) sid = Some nt -> interval_z s = Some z ->
     assoc_get (next_update_times (snd (update_sensors w))) sid =
       Some (if (nt <=? clock w)%Z then clock w + z else nt)%Z) /\
  (forall sid s nt z, assoc_get (sensors w) sid = Some s ->
     assoc_get (next_update_times w) sid = Some nt -> interval_z s = Some z ->
     (nt <=? clock w)%Z = true -> read_result s = None ->
     exists e,
     match state_eqb (s_state s) ACTIVE, topic_of s "errors", mqtt w with
     | true, Some t, Some m =>
         (exists l, trace (snd (update_sensors w)) = (l ++ trace w)%list /\
            In (Publish t (err_payload (datetime w) ("Error during sensor update: " ++ exn_str e))) l) /\
         assoc_get (sensors (snd (update_sensors w))) sid =
           Some (if connected m && client_fails m t then s else with_state s ERROR)
     | _, _, _ => assoc_get (sensors (snd (update_sensors w))) sid = Some (with_state s ERROR)
     end).
Proof.
  intros Hwf. destruct (update_sensors_reschedules w Hwf) as (Hok & _ & Hn).
  split; [exact Hok|]. split; [exact Hn|].
  intros sid s nt z Hs Hnx Hz Hd Hr. exact (update_sensors_failing w sid s nt z Hwf Hs Hnx Hz Hd Hr).
Qed.

Lemma update_sensors_isolates_faults_witness :
  let w := node_world (temp_sensor ACTIVE None None None) 0 (Some (client_refusing "node/temp/errors")) 0 in
  wf w /\ state_of (snd (update_sensors w)) "temp" = Some ACTIVE.
Proof.
  intros w.
  assert (Hwf : wf w).
  { apply wf_check; [|reflexivity]. cbn. constructor; [intros []|constructor]. }
  split; [exact Hwf|].
  destruct (proj2 (proj2 (update_sensors_isolates_faults w Hwf)) "temp" (temp_sensor ACTIVE None None None)
              0%Z 60%Z eq_refl eq_refl eq_refl eq_refl eq_refl) as [e [_ H]].
  unfold state_of. rewrite H. reflexivity.
Defined.




(** C6 (counterexample): a sensor whose [defaults] are empty (or absent,
    giving [{}]) is left as it was by [factory_reset]: an [ERROR] sensor
    stays in [ERROR], no state is published and nothing is saved. *)
Lemma factory_reset_empty_defaults :
  let s := temp_sensor ERROR (Some [("report_interval", VInt 5)]) (Some []) None in
  let w := node_world s 0 (Some client_up) 0 in
  state_of (snd (process_command "temp" (VStr "factory_reset") w)) "temp" = Some ERROR /\
  published_on "node/temp/state" (trace (snd (process_command "temp" (VStr "factory_reset") w))) = false /\
  saves (trace (snd (process_command "temp" (VStr "factory_reset") w))) = 0%nat.
Proof. vm_compute. splits; reflexivity. Qed.

(** C6 (amended): for a sensor that lists ["factory_reset"] among its
    controls, [process_command("factory_reset")] behaves in three ways.
    When [defaults] is non-empty and the configuration file can be
    written, the reset loop overwrites each key of [defaults] that is a
    key of the editable parameters and saves the configuration once per
    such key, the last save holding the final configuration; the sensor is
    then made [ACTIVE] and the command ends with [publish_state()]; with
    distinct keys in [defaults], every editable key they name holds its
    default. When [defaults] is empty or absent, only a warning is logged:
    the sensors, the timers and the event trace are unchanged (nothing is
    saved, the state is not forced, nothing is published). When some
    default names an editable key but the configuration file cannot be
    opened for writing, the command raises [OSError] out of the first
    save: nothing is saved or published and the sensor keeps its state. *)
Theorem factory_reset_command sid s w :
  assoc_get (sensors w) sid = Some s ->
  existsb (String.eqb "factory_reset") (control s) = true ->
  (forall d, defaults s = Some d -> d <> [] -> config_writable w = true ->
    (exists w1 l, process_command sid (VStr "factory_reset") w = publish_state sid w1 /\
       assoc_get (sensors w1) sid = Some (with_state (params_set s d) ACTIVE) /\
       trace w1 = (l ++ trace w)%list /\ Forall is_save l /\
       length l = accepted (ed_of s) d /\
       (accepted (ed_of s) d <> 0%nat -> exists rest, l = SaveConfig (snapshot (sensors w1)) :: rest)) /\
    assoc_get (sensors (snd (process_command sid (VStr "factory_reset") w))) sid =
      Some (with_state (params_set s d) ACTIVE) /\
    (forall e r x, editable s = Some e -> dict_mem e r = true -> NoDup (map fst d) ->
       assoc_get d r = Some x ->
       exists e', editable (params_set s d) = Some e' /\ assoc_get e' r = Some x)) /\
  (match defaults s with Some (_ :: _) => False | _ => True end ->
    fst (process_command sid (VStr "factory_reset") w) = Ok tt /\
    sensors (snd (process_command sid (VStr "factory_reset") w)) = sensors w /\
    next_update_times (snd (process_command sid (VStr "factory_reset") w)) = next_update_times w /\
    trace (snd (process_command sid (VStr "factory_reset") w)) = trace w) /\
  (forall d, defaults s = Some d -> config_writable w = false -> accepted (ed_of s) d <> 0%nat ->
    exists w' s', process_command sid (VStr "factory_reset") w = (Raise OSError, w') /\
      trace w' = trace w /\
      assoc_get (sensors w') sid = Some s' /\ s_state s' = s_state s).
Proof.
  intros Hs Hc. splits.
  - intros d Hd Hne Hw.
    destruct (factory_reset_run sid s d w Hs Hw Hc Hd Hne) as (w1 & l & E & S1 & _ & _ & T1 & F1 & L1 & H1).
    split; [exists w1, l; splits; assumption|split].
    + rewrite E. destruct (tame_publish_state sid w1) as [(_ & S2 & _) _]. rewrite S2. exact S1.
    + intros e r x He Hm Hnd Hx. exact (params_set_written d s e r x He Hm Hnd Hx).
  - intros Hd. exact (factory_reset_no_defaults sid s w Hs Hd).
  - intros d Hd Hw Ha.
    destruct (factory_reset_unwritable sid s d w Hs Hw Hc Hd Ha) as (w' & s' & E & _ & T & S & St).
    exists w', s'. splits; assumption.
Qed.

Lemma factory_reset_command_witness :
  let s := temp_sensor ERROR (Some [("report_interval", VInt 5)]) (Some [("report_interval", VInt 30)]) None in
  let w := node_world s 0 (Some client_up) 0 in
  assoc_get (sensors (snd (process_command "temp" (VStr "factory_reset") w))) "temp" =
    Some (with_state (params_set s [("report_interval", VInt 30)]) ACTIVE) /\
  editable_of (snd (process_command "temp" (VStr "factory_reset") w)) "temp" =
    Some [("report_interval", VInt 30)] /\
  saves (trace (snd (process_command "temp" (VStr "factory_reset") w))) = 1%nat /\
  published_on "node/temp/state" (trace (snd (process_command "temp" (VStr "factory_reset") w))) = true.
Proof.
  intros s w.
  assert (Hne : [("report_interval", VInt 30)] <> []) by discriminate.
  destruct (factory_reset_command "temp" s w eq_refl eq_refl) as (H1 & _ & _).
  destruct (H1 [("report_interval", VInt 30)] eq_refl Hne eq_refl) as (_ & H2 & _).
  split; [exact H2|]. vm_compute. splits; reflexivity.
Defined.

(** C5: when the global error policy is on, a manager is attached and an
    error topic is configured, but the client raises on that publish,
    [handle_error] propagates [OSError] from [MQTTManager.publish]: the
    reboot (when [auto_restart_on_error] is on) is never reached, and when
    it is off control does not return normally to the caller either. *)
Theorem handle_error_publish_failure cfg msg w m t :
  truthy (dict_get_default (error_handling cfg) "post_global_errors"
                           (VBool DEFAULT_POST_GLOBAL_ERROR)) = true ->
  mqtt w = Some m -> topic_truthy (error_topic cfg) = Some t ->
  connected m && client_fails m t = true ->
  fst (handle_error cfg msg w) = Raise OSError /\
  trace (snd (handle_error cfg msg w)) =
    Publish t [("error", VStr msg); ("timestamp", VStr (datetime w))] :: trace w.
Proof.
  intros Hp Hm Ht Hf. destruct w as [ss nx mq tr lg ck dt cw]. cbn in Hm. subst mq.
  unfold handle_error. unfold bind at 1, log at 1. cbv beta iota.
  unfold bind at 1, mqtt_attached at 1. cbv beta iota. cbn [sensors next_update_times mqtt trace logs clock datetime].
  rewrite Hp. cbn [andb].
  unfold bind at 1. unfold bind at 1, log at 1. cbv beta iota. rewrite Ht.
  unfold bind at 1, log at 1. cbv beta iota.
  unfold bind at 1, get_formatted_datetime at 1. cbv beta iota.
  unfold mqtt_publish, bind, get_mqtt, emit, log, try_except, raise. cbn.
  destruct (connected m), (client_fails m t); try discriminate. cbn. split; reflexivity.
Qed.

Lemma handle_error_publish_failure_witness :
  let cfg := mkErrorConfig [("post_global_errors", VBool true); ("auto_restart_on_error", VBool true)]
                           (Some "errors") in
  let w := node_world (temp_sensor ACTIVE None None None) 0 (Some (client_refusing "errors")) 0 in
  fst (handle_error cfg "boom" w) = Raise OSError /\
  trace (snd (handle_error cfg "boom" w)) =
    Publish "errors" [("error", VStr "boom"); ("timestamp", VStr (datetime w))] :: trace w.
Proof.
  intros cfg w. apply (handle_error_publish_failure cfg "boom" w (client_refusing "errors") "errors");
    reflexivity.
Defined.

End NodeClaims.

(* ===================================================================== *)
(** ** Further properties of the node code *)

Module NodeExtras.
Import Node NodeFacts NodeExamples.
Open Scope string_scope.

(** X1: the effect of [process_command] on the sensor: a command that is
    both in the sensor's [control] list and in the command map is run;
    [enable] turns DISABLED into ACTIVE, [disable] turns ACTIVE into
    DISABLED, [factory_reset] with non-empty defaults writes them into
    the editable parameters and sets ACTIVE (when the configuration file
    can be written: every write is followed by a save); any other
    command, or an unsupported one, leaves the sensor as it was. *)
Theorem process_command_effect sid s c w :
  assoc_get (sensors w) sid = Some s ->
  String.eqb c "factory_reset" = false \/ config_writable w = true ->
  assoc_get (sensors (snd (process_command sid (VStr c) w))) sid =
    Some (if existsb (String.eqb c) (control s) && existsb (String.eqb c) command_map_keys
          then if String.eqb c "enable" then
                 (if state_eqb (s_state s) DISABLED then with_state s ACTIVE else s)
               else if String.eqb c "disable" then
                 (if state_eqb (s_state s) ACTIVE then with_state s DISABLED else s)
               else if String.eqb c "factory_reset" then
                 match defaults s with
                 | Some ((_ :: _) as d) => with_state (params_set s d) ACTIVE
                 | _ => s
                 end
               else s
          else s).
Proof.
  intros Hs Hcw. destruct (String.eqb c "factory_reset") eqn:Ef.
  2:{ rewrite (process_command_sensor_simple sid s c w Hs (or_introl Ef)).
      destruct (existsb (String.eqb c) (control s) && existsb (String.eqb c) command_map_keys);
        [|reflexivity].
      destruct (String.eqb c "enable"); [reflexivity|].
      destruct (String.eqb c "disable"); reflexivity. }
  destruct Hcw as [Hcw|Hw]; [discriminate|].
  apply String.eqb_eq in Ef. subst c.
  change (String.eqb "factory_reset" "enable") with false.
  change (String.eqb "factory_reset" "disable") with false.
  change (String.eqb "factory_reset" "factory_reset") with true.
  change (existsb (String.eqb "factory_reset") command_map_keys) with true.
  rewrite andb_true_r. cbv beta iota.
  destruct (existsb (String.eqb "factory_reset") (control s)) eqn:Ec.
  - destruct (defaults s) as [[|p d]|] eqn:Ed.
    2:{ destruct (factory_reset_run sid s (p :: d) w Hs Hw Ec Ed ltac:(discriminate))
          as (w1 & l & Hp & Hs1 & _).
        rewrite Hp, publish_state_sensors, Hs1. reflexivity. }
    all: assert (Hfr : String.eqb "factory_reset" "factory_reset" = false \/
                       match defaults s with Some (_ :: _) => False | _ => True end)
           by (right; rewrite Ed; exact I).
    all: rewrite (process_command_sensor_simple sid s "factory_reset" w Hs Hfr), Ec; reflexivity.
  - unfold process_command.
    assert (Hg : get_sensor sid w = (Ok s, w)) by (unfold get_sensor; rewrite Hs; reflexivity).
    rewrite (bind_ok _ _ _ _ _ Hg). cbv beta iota. rewrite Ec. exact Hs.
Qed.

Lemma process_command_effect_witness :
  assoc_get (sensors (node_world (temp_sensor DISABLED None None None) 0 None 0)) "temp"
    = Some (temp_sensor DISABLED None None None) /\
  assoc_get (sensors (snd (process_command "temp" (VStr "enable")
               (node_world (temp_sensor DISABLED None None None) 0 None 0)))) "temp"
    = Some (temp_sensor ACTIVE None None None).
Proof.
  split; [reflexivity|].
  rewrite (process_command_effect "temp" (temp_sensor DISABLED None None None) "enable"
             (node_world (temp_sensor DISABLED None None None) 0 None 0) eq_refl
             (or_introl eq_refl)).
  reflexivity.
Defined.

(** X2: the callback [_make_cb] registers for a sensor always returns
    normally, whatever the topic and the message: an unknown sensor is
    only logged, and every exception raised while handling the message
    (invalid JSON, a missing attribute, a failing command or
    configuration update) is caught; it never reboots the device. *)
Theorem sensor_cb_returns sid topic msg w :
  fst (sensor_cb sid topic msg w) = Ok tt.
Proof. apply sensor_cb_ok. Qed.

(** X3: the callback changes no sensor, no timer and publishes or saves
    nothing (it only logs) when the sensor id is unknown, when the
    message is not valid JSON, when the topic names neither commands nor
    config, when a config message is not a JSON object, or when a command
    message has no truthy ["command"] entry. *)
Theorem sensor_cb_log_only sid topic msg w :
  assoc_get (sensors w) sid = None \/ msg = None \/
  (str_contains topic "commands" = false /\ str_contains topic "config" = false) \/
  (str_contains topic "commands" = false /\ str_contains topic "config" = true /\
   forall kv, msg <> Some (VObj kv)) \/
  (str_contains topic "commands" = true /\
   exists kv, msg = Some (VObj kv) /\ truthy (dict_get_default kv "command" VNone) = false) ->
  sensors (snd (sensor_cb sid topic msg w)) = sensors w /\
  next_update_times (snd (sensor_cb sid topic msg w)) = next_update_times w /\
  trace (snd (sensor_cb sid topic msg w)) = trace w.
Proof.
  intros H. unfold sensor_cb.
  rewrite (bind_ok _ _ _ _ _ (eq_refl : lookup_sensor sid w = (Ok (assoc_get (sensors w) sid), w))).
  unfold try_except.
  destruct (assoc_get (sensors w) sid) as [s|] eqn:Hs; [|splits; reflexivity].
  destruct H as [H|[H|[[H1 H2]|[[H1 [H2 H3]]|[H1 [kv [-> H2]]]]]]]; [discriminate| subst msg; splits; reflexivity| | |].
  - destruct msg as [v|]; [|splits; reflexivity].
    unfold bind, json_loads, log, ret. cbv beta iota. rewrite H1, H2. splits; reflexivity.
  - destruct msg as [v|]; [|splits; reflexivity].
    unfold bind, json_loads, log, ret. cbv beta iota. rewrite H1, H2.
    destruct v; try (splits; reflexivity). exfalso. eapply H3. reflexivity.
  - unfold bind, json_loads, log, py_get, ret. cbv beta iota. rewrite H1, H2. splits; reflexivity.
Qed.

Lemma sensor_cb_log_only_witness :
  let w := node_world (temp_sensor ACTIVE None None None) 0 (Some client_up) 0 in
  trace (snd (sensor_cb "temp" "node/temp/commands" (Some (VObj [("cmd", VStr "enable")])) w))
    = trace w.
Proof.
  intros w.
  refine (proj2 (proj2 (sensor_cb_log_only "temp" "node/temp/commands"
            (Some (VObj [("cmd", VStr "enable")])) w _))).
  right; right; right; right. split; [reflexivity|].
  exists [("cmd", VStr "enable")]. split; reflexivity.
Defined.

(** X4: a message on a commands topic whose JSON is not an object (a
    number, a string, a list, ...) makes [parsed_msg.get] raise; the
    error is caught and handed to [_error_handler], which leaves the
    timers alone and puts the sensor in ERROR, unless it was ACTIVE with
    an errors topic and an attached client that raised on the publish of
    the error. *)
Theorem sensor_cb_bad_command sid topic v s w :
  assoc_get (sensors w) sid = Some s ->
  str_contains topic "commands" = true ->
  (forall kv, v <> VObj kv) ->
  let w' := snd (sensor_cb sid topic (Some v) w) in
  next_update_times w' = next_update_times w /\
  (exists l, trace w' = (l ++ trace w)%list) /\
  sensors w' =
    match state_eqb (s_state s) ACTIVE, topic_of s "errors", mqtt w with
    | true, Some t, Some m =>
        if connected m && client_fails m t then sensors w
        else assoc_set (sensors w) sid (with_state s ERROR)
    | _, _, _ => assoc_set (sensors w) sid (with_state s ERROR)
    end.
Proof.
  intros Hs Hc Hv. cbv zeta. unfold sensor_cb.
  rewrite (bind_ok _ _ _ _ _ (eq_refl : lookup_sensor sid w = (Ok (assoc_get (sensors w) sid), w))).
  rewrite Hs. unfold try_except, bind, json_loads, log, py_get, ret, raise. cbv beta iota. rewrite Hc.
  destruct v as [z|s0|b| |l0|kv]; try (exfalso; eapply Hv; reflexivity).
  all: match goal with |- context [error_handler _ ?m ?w0] =>
         set (w1 := w0); set (msg := m) end.
  all: assert (Hs1 : assoc_get (sensors w1) sid = Some s) by exact Hs.
  all: assert (W1 : mqtt w1 = mqtt w /\ trace w1 = trace w /\ sensors w1 = sensors w /\
               next_update_times w1 = next_update_times w) by (splits; reflexivity).
  all: clearbody w1; destruct W1 as (WM & WT & WS & WN).
  all: destruct (error_handler_run sid s msg w1 Hs1) as (_ & (_ & _ & _ & l & T) & N & HP).
  all: rewrite WM, WS in HP; rewrite WT in T.
  all: split; [congruence|split; [exists l; exact T|]].
  all: destruct (state_eqb (s_state s) ACTIVE), (topic_of s "errors"), (mqtt w); apply HP.
Qed.

Lemma sensor_cb_bad_command_witness :
  let w := node_world (temp_sensor ACTIVE None None None) 0 (Some client_up) 0 in
  assoc_get (sensors (snd (sensor_cb "temp" "node/temp/commands" (Some (VInt 5)) w))) "temp"
    = Some (temp_sensor ERROR None None None).
Proof.
  intros w.
  destruct (sensor_cb_bad_command "temp" "node/temp/commands" (VInt 5)
              (temp_sensor ACTIVE None None None) w eq_refl eq_refl
              ltac:(intros kv; discriminate)) as (_ & _ & H).
  rewrite H. reflexivity.
Defined.



(** X6: a tick aborts with TypeError at the first due sensor whose
    [report_interval] is not a number: the sensors listed before it that
    are not due are skipped without effect, it is polled (its [try]
    completes), then [current_time + interval] raises outside the [try];
    the exception leaves [update_sensors], no timer is advanced (that
    sensor stays due) and the sensors after it are not processed; only
    sensor states may have changed. *)
Theorem update_sensors_bad_interval w pre sid s rest nt :
  sensors w = (pre ++ (sid, s) :: rest)%list ->
  ~ In sid (map fst pre) ->
  (forall k, In k (map fst pre) ->
     exists t, assoc_get (next_update_times w) k = Some t /\ (clock w < t)%Z) ->
  assoc_get (next_update_times w) sid = Some nt -> (nt <= clock w)%Z ->
  interval_z s = None ->
  fst (update_sensors w) = Raise TypeError /\
  next_update_times (snd (update_sensors w)) = next_update_times w /\
  same_but_state (sensors w) (sensors (snd (update_sensors w))).
Proof. exact (update_sensors_abort w pre sid s rest nt). Qed.

Lemma update_sensors_bad_interval_witness :
  let s := temp_sensor ACTIVE (Some [("report_interval", VStr "fast")]) None (Some [("t", VInt 21)]) in
  let w := mkWorld [("hum", mkSensor "hum" [] None None [] ACTIVE None); ("temp", s)]
                   [("hum", 500%Z); ("temp", 0%Z)] (Some client_up) [] [] 10 "2024-05-01 12:00:00" true in
  fst (update_sensors w) = Raise TypeError /\
  next_update_times (snd (update_sensors w)) = next_update_times w.
Proof.
  intros s w.
  destruct (update_sensors_bad_interval w [("hum", mkSensor "hum" [] None None [] ACTIVE None)] "temp" s []
              0%Z eq_refl ltac:(simpl; intros [H|[]]; discriminate)
              ltac:(simpl; intros k [<-|[]]; exists 500%Z; split; [reflexivity|lia])
              eq_refl ltac:(simpl; lia) eq_refl) as (H1 & H2 & _).
  split; [exact H1|exact H2].
Defined.

(** X7: the outcome of [ErrorHandler.handle_error] in every case; it
    never changes a sensor or a timer. When [post_global_errors] is
    truthy, a manager is attached and the error topic is truthy, the
    payload [{error, timestamp}] goes to [MQTTManager.publish] (and is
    sent when the client is connected); a client error on that publish
    propagates as OSError. Otherwise, or after a successful or skipped
    sending, the device reboots (the run halts after a Reboot event)
    exactly when [auto_restart_on_error] is truthy, and the call returns
    normally when it is not. *)
Theorem handle_error_outcome cfg msg w :
  let post := truthy (dict_get_default (error_handling cfg) "post_global_errors"
                                       (VBool DEFAULT_POST_GLOBAL_ERROR)) in
  let restart := truthy (dict_get_default (error_handling cfg) "auto_restart_on_error"
                                          (VBool DEFAULT_AUTO_RESTART_ON_ERROR)) in
  let p := [("error", VStr msg); ("timestamp", VStr (datetime w))] in
  let r := handle_error cfg msg w in
  sensors (snd r) = sensors w /\ next_update_times (snd r) = next_update_times w /\
  match post, topic_truthy (error_topic cfg), mqtt w with
  | true, Some t, Some m =>
      if connected m && client_fails m t then
        fst r = Raise OSError /\ trace (snd r) = Publish t p :: trace w
      else
        fst r = (if restart then Halted else Ok tt) /\
        trace (snd r) = ((if restart then [Reboot] else []) ++
                         (if connected m then [Sent t p] else []) ++ Publish t p :: trace w)%list
  | _, _, _ =>
      fst r = (if restart then Halted else Ok tt) /\
      trace (snd r) = ((if restart then [Reboot] else []) ++ trace w)%list
  end.
Proof. apply handle_error_cases. Qed.


(** X8: with the defaults ([error_handling] empty: [post_global_errors]
    False, [auto_restart_on_error] True), every [handle_error] call
    publishes nothing and reboots the device. *)
Theorem handle_error_default_reboots cfg msg w :
  error_handling cfg = [] ->
  fst (handle_error cfg msg w) = Halted /\
  trace (snd (handle_error cfg msg w)) = Reboot :: trace w.
Proof.
  intros He. destruct (handle_error_cases cfg msg w) as (_ & _ & H).
  rewrite He in H. cbn -[handle_error] in H.
  destruct (topic_truthy (error_topic cfg)), (mqtt w); exact H.
Qed.

Lemma handle_error_default_reboots_witness :
  let w := node_world (temp_sensor ACTIVE None None None) 0 (Some client_up) 0 in
  fst (handle_error (mkErrorConfig [] (Some "errors")) "boom" w) = Halted.
Proof.
  intros w. exact (proj1 (handle_error_default_reboots (mkErrorConfig [] (Some "errors")) "boom" w
                            eq_refl)).
Defined.

(** X9: [MQTTManager.subscribe] on a manager that is not connected
    registers no callback: it only logs a warning and returns normally,
    so a later message on that topic finds no callback. *)
Theorem mqtt_subscribe_disconnected topic sid w cbs m :
  mqtt w = Some m -> connected m = false ->
  exists w', mqtt_subscribe topic sid (w, cbs) = (Ok tt, (w', cbs)) /\ same_but_logs w w'.
Proof.
  intros Hm Hc. unfold mqtt_subscribe.
  rewrite (bindc_ok _ _ _ m (w, cbs)) by (rewrite lift_run; unfold get_mqtt; rewrite Hm; reflexivity).
  rewrite Hc. cbn. eexists. split; [reflexivity|]. unfold same_but_logs; cbn; splits; reflexivity.
Qed.

Lemma mqtt_subscribe_disconnected_witness :
  let w := node_world (temp_sensor ACTIVE None None None) 0 (Some client_down) 0 in
  snd (snd (mqtt_subscribe (VStr "node/temp/commands") "temp" (w, ([] : callbacks)))) = [].
Proof.
  intros w.
  destruct (mqtt_subscribe_disconnected (VStr "node/temp/commands") "temp" w [] client_down
              eq_refl eq_refl) as (w' & E & _).
  rewrite E. reflexivity.
Defined.

(** X10: on a connected manager, [subscribe(topic, _make_cb(sid))] with a
    string topic stores the callback and changes nothing but the
    callbacks and the log; it returns normally, unless [client.subscribe]
    refuses the topic, in which case the [OSError] is logged and
    re-raised, the callback staying stored. From then on the router
    hands every message on that topic to the callback of [sid] (a later
    subscription to the same topic replaces the earlier one), which
    returns normally. *)
Theorem subscribe_then_route t sid w cbs m :
  mqtt w = Some m -> connected m = true ->
  exists w1, mqtt_subscribe (VStr t) sid (w, cbs) =
      ((if client_sub_fails m t then Raise OSError else Ok tt), (w1, assoc_set cbs t sid)) /\
    same_but_logs w w1 /\
    forall msg w2, message_router (Some t) msg (w2, assoc_set cbs t sid) =
      (Ok tt, (snd (sensor_cb sid t msg (snd (log LDebug "MQTT message received" w2))),
               assoc_set cbs t sid)).
Proof.
  intros Hm Hc. unfold mqtt_subscribe.
  rewrite (bindc_ok _ _ _ m (w, cbs)) by (rewrite lift_run; unfold get_mqtt; rewrite Hm; reflexivity).
  rewrite Hc. destruct (client_sub_fails m t); cbn; eexists; (split; [reflexivity|]); split.
  all: try (unfold same_but_logs; cbn; splits; reflexivity).
  all: intros msg w2; apply router_delivers; apply assoc_get_set_same.
Qed.

Lemma subscribe_then_route_witness :
  let w := node_world (temp_sensor ACTIVE None None None) 0 (Some client_up) 0 in
  snd (snd (mqtt_subscribe (VStr "node/temp/commands") "temp" (w, ([("node/temp/commands", "old")] : callbacks))))
    = [("node/temp/commands", "temp")].
Proof.
  intros w.
  destruct (subscribe_then_route "node/temp/commands" "temp" w [("node/temp/commands", "old")]
              client_up eq_refl eq_refl) as (w1 & E & _).
  rewrite E. reflexivity.
Defined.

(** X11: [_message_router] on a topic with no registered callback only
    logs a warning and returns normally; on a topic that is not valid
    UTF-8 it raises [ValueError] before anything else. Neither changes
    the callbacks. *)
Theorem message_router_unrouted t msg w cbs :
  assoc_get cbs t = None ->
  (exists w', message_router (Some t) msg (w, cbs) = (Ok tt, (w', cbs)) /\ same_but_logs w w') /\
  message_router None msg (w, cbs) = (Raise ValueError, (w, cbs)).
Proof.
  intros Hc. split; [|reflexivity]. unfold message_router.
  rewrite (bindc_ok _ _ (w, cbs) tt (snd (log LDebug "MQTT message received" w), cbs))
    by (rewrite lift_run; reflexivity).
  unfold bindc at 1, get_callbacks at 1. cbn [fst snd]. rewrite Hc.
  rewrite lift_run. eexists. split; [reflexivity|]. unfold same_but_logs; cbn; splits; reflexivity.
Qed.

Lemma message_router_unrouted_witness :
  let w := node_world (temp_sensor ACTIVE None None None) 0 (Some client_up) 0 in
  fst (message_router (Some "node/other") None (w, ([("node/temp/commands", "temp")] : callbacks))) = Ok tt.
Proof.
  intros w.
  destruct (message_router_unrouted "node/other" None w [("node/temp/commands", "temp")] eq_refl)
    as [(w' & E & _) _].
  exact (f_equal fst E).
Defined.

(** X12: when [client.check_msg()] fails on a connected manager (a
    socket error, or a message whose topic is not valid UTF-8, raised by
    the router), [check_messages] logs the error, marks the manager not
    connected and re-raises; no sensor, timer or publish is touched. *)
Theorem check_messages_failure ib w cbs m :
  mqtt w = Some m -> connected m = true ->
  (ib = SockError \/ exists msg, ib = Msg None msg) ->
  exists w', check_messages ib (w, cbs) = (Raise (match ib with SockError => OSError | _ => ValueError end), (w', cbs)) /\
    mqtt w' = Some (mkClient false (client_fails m) (client_sub_fails m)) /\
    sensors w' = sensors w /\ next_update_times w' = next_update_times w /\ trace w' = trace w.
Proof.
  intros Hm Hc Hib. unfold check_messages.
  rewrite (bindc_ok _ _ _ m (w, cbs)) by (rewrite lift_run; unfold get_mqtt; rewrite Hm; reflexivity).
  rewrite Hc. cbv beta iota. unfold try_exceptc.
  destruct Hib as [->|[msg ->]]; cbn; rewrite Hm; eexists; (split; [reflexivity|]); splits; reflexivity.
Qed.

Lemma check_messages_failure_witness :
  let w := node_world (temp_sensor ACTIVE None None None) 0 (Some client_up) 0 in
  fst (check_messages SockError (w, ([] : callbacks))) = Raise OSError.
Proof.
  intros w.
  destruct (check_messages_failure SockError w [] client_up eq_refl eq_refl (or_introl eq_refl))
    as (w' & E & _).
  rewrite E. reflexivity.
Defined.

(** X14: with the default error configuration (no handlers) a socket
    error of [client.check_msg()] while connected makes the main loop
    end with a reboot: the run halts and the last device action is
    [machine.reset()]. *)
Theorem socket_error_reboots ecfg pre t post st st1 m :
  error_handling ecfg = [] ->
  main_loop pre st = (Ok tt, st1) ->
  mqtt (fst st1) = Some m -> connected m = true ->
  fst (run_main_loop ecfg (pre ++ (SockError, t) :: post) st) = Halted /\
  trace (fst (snd (run_main_loop ecfg (pre ++ (SockError, t) :: post) st))) = Reboot :: trace (fst st1).
Proof.
  intros He H1 Hm Hc. destruct st1 as [w1 cbs1]. cbn [fst] in Hm |- *.
  set (w1' := snd (set_clock t w1)).
  assert (Hm' : mqtt w1' = Some m) by exact Hm.
  destruct (check_messages_fails SockError w1' cbs1 m Hm' Hc (or_introl eq_refl))
    as (w2 & E2 & M2 & S2 & N2 & T2).
  assert (Hp : loop_pass SockError t (w1, cbs1) = (Raise OSError, (w2, cbs1))).
  { unfold loop_pass. rewrite (bindc_ok _ _ (w1, cbs1) tt (w1', cbs1)) by (rewrite lift_run; reflexivity).
    rewrite (bindc_raise _ _ _ _ _ E2). reflexivity. }
  rewrite (run_main_loop_raise ecfg pre SockError t post st (w1, cbs1) OSError (w2, cbs1) H1 Hp).
  rewrite lift_run. cbn [fst snd].
  destruct (handle_error_cases ecfg ("Error during main loop: " ++ exn_str OSError) w2) as (_ & _ & H).
  rewrite He in H. cbn -[handle_error] in H.
  rewrite T2 in H. destruct (topic_truthy (error_topic ecfg)), (mqtt w2); exact H.
Qed.

Lemma socket_error_reboots_witness :
  let w := node_world (temp_sensor ACTIVE None None None) 0 (Some client_up) 0 in
  fst (run_main_loop (mkErrorConfig [] None) ([(NoMsg, 1%Z)] ++ (SockError, 5%Z) :: [(NoMsg, 10%Z)])
         (w, ([] : callbacks))) = Halted.
Proof.
  intros w.
  pose proof (socket_error_reboots (mkErrorConfig [] None) [(NoMsg, 1%Z)] 5%Z [(NoMsg, 10%Z)] (w, [])
                (snd (main_loop [(NoMsg, 1%Z)] (w, []))) client_up ltac:(reflexivity)
                ltac:(vm_compute; reflexivity) ltac:(vm_compute; reflexivity) ltac:(reflexivity)) as E.
  exact (proj1 E).
Defined.





(** X17: [MQTTManager.connect()] with a client: when [client.connect()]
    succeeds the manager is marked connected and nothing else but the
    log changes; when it fails the error is re-raised and everything but
    the log is left as it was (in particular the connected flag). *)
Theorem mqtt_connect_outcome broker_up w m :
  mqtt w = Some m ->
  exists w', mqtt_connect broker_up w = (if broker_up then Ok tt else Raise OSError, w') /\
    sensors w' = sensors w /\ next_update_times w' = next_update_times w /\
    trace w' = trace w /\ clock w' = clock w /\
    mqtt w' = (if broker_up then Some (mkClient true (client_fails m) (client_sub_fails m)) else Some m).
Proof.
  intros Hm. destruct w as [ss nx mqt tr lg ck dt cw]. cbn [mqtt] in Hm. subst mqt.
  destruct broker_up; cbn; eexists; (split; [reflexivity|]); cbn; splits; reflexivity.
Qed.

Lemma mqtt_connect_outcome_witness :
  let w := node_world (temp_sensor ACTIVE None None None) 0 (Some client_down) 0 in
  mqtt (snd (mqtt_connect true w)) = Some client_up.
Proof.
  intros w.
  destruct (mqtt_connect_outcome true w client_down ltac:(reflexivity)) as (w' & E & _ & _ & _ & _ & M).
  rewrite E. exact M.
Defined.

End NodeExtras.
